(** * dataTrade: the candle streaming service (data_streaming_service/server.py)

    A shallow embedding of the replay engine of [server.py]: the batch-size
    clamp, the simple moving average, the session setup that reads the query
    parameters and the indicator specifications, the control listener, the
    replay loop with its pacing delay and its cursor, the query and the
    parameters that [fetch_candles] executes, and the reading of the
    environment at the top of the module.  The rows the database returns
    and their conversion are not modelled: a fetch is given by the rows
    it yields.

    Numbers are modelled as Python has them: [int] is [Z], [float] is the
    IEEE-754 binary64 type of the kernel ([PrimFloat.float]), whose [+], [-],
    [*], [/] and comparisons are the operations CPython executes.  The
    two-argument builtins [max] and [min] keep their first argument unless
    the second one is strictly greater (smaller), true division raises
    [ZeroDivisionError] on a zero divisor, and a raised exception is a value
    of the [result] type.

    Texts are strings of bytes, the UTF-8 encoding of Python's [str].
    [int] of a text of ASCII characters is defined here, with its limit
    of 4300 digits.  What the interpreter decides from its own tables and
    decoders is a parameter of the model, the [runtime]: [json.loads]
    with its three outcomes, [float] of a string, and [int] of a text
    with characters outside ASCII. *)

From Stdlib Require Import ZArith List String Ascii Bool Lia Floats QArith.
From Stdlib Require Import DecimalString DecimalPos DecimalZ.
From Stdlib Require DecimalFacts.
Import ListNotations.

Set Warnings "-inexact-float,-register-all".
Local Open Scope string_scope.
Local Open Scope list_scope.
Local Open Scope Z_scope.

(* ================================================================== *)
(** ** Python values and exceptions *)
(* ================================================================== *)

Module Py.

(** The exceptions the modelled code can raise. *)
Inductive exn : Set :=
| ValueError
| TypeError
| OverflowError
| ZeroDivisionError
| AttributeError
| RecursionError.

(** A computation that returns a value or raises. *)
Inductive result (A : Type) : Type :=
| Ok (a : A)
| Raise (e : exn).
Arguments Ok {A} a.
Arguments Raise {A} e.

Definition bind {A B : Type} (c : result A) (k : A -> result B) : result B :=
  match c with
  | Ok a => k a
  | Raise e => Raise e
  end.

Definition is_ok {A : Type} (c : result A) : bool :=
  match c with Ok _ => true | Raise _ => false end.

(** [max(a, b)] on floats: [b] replaces [a] only when [b > a]. *)
Definition max (a b : float) : float := if (a <? b)%float then b else a.

(** [min(a, b)] on floats: [b] replaces [a] only when [b < a]. *)
Definition min (a b : float) : float := if (b <? a)%float then b else a.

(** [a / b] on floats: a zero divisor (of either sign) raises. *)
Definition truediv (a b : float) : result float :=
  if (b =? 0)%float then Raise ZeroDivisionError else Ok (a / b)%float.

(** [float(z)] for an [int]: the nearest binary64 value (ties to even);
    an [int] that rounds beyond the largest finite float raises. *)
Definition float_of_int (z : Z) : result float :=
  let f := SF2Prim (binary_normalize prec emax z 0 false) in
  if is_infinity f then Raise OverflowError else Ok f.

(** The float a container length converts to in [x / len(xs)]. *)
Definition float_of_len (n : nat) : float :=
  SF2Prim (binary_normalize prec emax (Z.of_nat n) 0 false).

(** [a / len(xs)]: the length is converted to a float, which is zero
    only for the length zero. *)
Definition truediv_len (a : float) (n : nat) : result float :=
  match n with
  | O => Raise ZeroDivisionError
  | S _ => Ok (a / float_of_len n)%float
  end.

(** [int(f)] for a [float]: truncation toward zero; [nan] and the
    infinities raise. *)
Definition int_of_float (f : float) : result Z :=
  match Prim2SF f with
  | S754_zero _ => Ok 0
  | S754_nan => Raise ValueError
  | S754_infinity _ => Raise OverflowError
  | S754_finite s m e =>
      let mag := if 0 <=? e then Z.pos m * 2 ^ e else Z.pos m / 2 ^ (- e) in
      Ok (if s then - mag else mag)
  end.

(** *** [int(s)] for a string, base ten

    For a text of ASCII characters: surrounding white space (the
    characters 9 to 13 and the space) is stripped, one sign is allowed,
    the digits may be grouped by single underscores, and a literal of
    more than 4300 digits is refused (the default of
    [sys.int_max_str_digits]).  A text with a character outside ASCII is
    read after the interpreter has replaced the decimal digits and the
    white space of Unicode, from the tables of its version: for such a
    text the answer is the interpreter's, [int_of_text], with [None]
    when it raises [ValueError]. *)

Definition is_space (c : ascii) : bool :=
  let n := nat_of_ascii c in
  ((9 <=? n)%nat && (n <=? 13)%nat) || (n =? 32)%nat.

Definition is_ascii (c : ascii) : bool := (nat_of_ascii c <? 128)%nat.

Fixpoint lstrip (s : list ascii) : list ascii :=
  match s with
  | c :: s' => if is_space c then lstrip s' else s
  | [] => []
  end.

Definition strip (s : list ascii) : list ascii :=
  rev (lstrip (rev (lstrip s))).

Definition digit_val (c : ascii) : option Z :=
  let n := nat_of_ascii c in
  if ((48 <=? n)%nat && (n <=? 57)%nat) then Some (Z.of_nat n - 48) else None.

(** [prev] tells whether the character just read was a digit: an
    underscore must stand between two digits. *)
Fixpoint parse_digits (acc : Z) (prev : bool) (s : list ascii) : option Z :=
  match s with
  | [] => if prev then Some acc else None
  | c :: s' =>
      if Ascii.eqb c "_"%char
      then (if prev then parse_digits acc false s' else None)
      else match digit_val c with
           | Some d => parse_digits (10 * acc + d) true s'
           | None => None
           end
  end.

(** The value of a literal, whatever its length. *)
Definition read_literal (cs : list ascii) : option Z :=
  let body := strip cs in
  match body with
  | c :: rest =>
      if Ascii.eqb c "-"%char then option_map Z.opp (parse_digits 0 false rest)
      else if Ascii.eqb c "+"%char then parse_digits 0 false rest
      else parse_digits 0 false body
  | [] => None
  end.

(** The digits of a literal: the sign, the underscores and the white
    space are not counted, leading zeros are. *)
Definition count_digits (cs : list ascii) : Z :=
  Z.of_nat (List.length (filter (fun c => match digit_val c with
                                          | Some _ => true
                                          | None => false
                                          end) cs)).

Definition int_max_str_digits : Z := 4300.

Definition int_of_str (int_of_text : string -> option Z) (s : string)
    : result Z :=
  let cs := list_ascii_of_string s in
  let parsed :=
    if forallb is_ascii cs
    then match read_literal cs with
         | Some z =>
             if int_max_str_digits <? count_digits cs then None else Some z
         | None => None
         end
    else int_of_text s in
  match parsed with
  | Some z => Ok z
  | None => Raise ValueError
  end.

(** [str(z)] for an [int], as an f-string prints it.  (An [int] of more
    than 4300 digits, which [str] refuses, is none that [int] or
    [json.loads] returns.) *)
Definition str_of_int (z : Z) : string := NilZero.string_of_int (Z.to_int z).

(** [a or b] on optional strings: [None] and the empty string are falsy. *)
Definition or_str (a b : option string) : option string :=
  match a with
  | Some s => if String.eqb s "" then b else a
  | None => b
  end.

(** Truthiness of an optional string ([if raw], [if not symbol]). *)
Definition truthy_str (a : option string) : bool :=
  match a with
  | Some s => negb (String.eqb s "")
  | None => false
  end.

End Py.

Notation "x <- c ;; k" := (Py.bind c (fun x => k))
  (at level 61, c at next level, right associativity).

(* ================================================================== *)
(** ** JSON values, as [json.loads] and [receive_json] produce them *)
(* ================================================================== *)

(** A [JDict] lists the items of a Python dict, whose keys are distinct. *)
Inductive json : Type :=
| JNull
| JBool (b : bool)
| JInt (z : Z)
| JFloat (f : float)
| JStr (s : string)
| JList (xs : list json)
| JDict (kvs : list (string * json)).

Module Json.

Definition is_dict (v : json) : bool :=
  match v with JDict _ => true | _ => false end.

Definition is_list (v : json) : bool :=
  match v with JList _ => true | _ => false end.

Fixpoint lookup (k : string) (kvs : list (string * json)) : option json :=
  match kvs with
  | [] => None
  | (k', v) :: rest => if String.eqb k k' then Some v else lookup k rest
  end.

(** [d.get(k)]: [None] (here [JNull]) when the key is missing. *)
Definition get (k : string) (kvs : list (string * json)) : json :=
  match lookup k kvs with Some v => v | None => JNull end.

(** [d.get(k, default)]. *)
Definition get_default (k : string) (default : json)
    (kvs : list (string * json)) : json :=
  match lookup k kvs with Some v => v | None => default end.

(** Truthiness, as [or] and [if] test it. *)
Definition truthy (v : json) : bool :=
  match v with
  | JNull => false
  | JBool b => b
  | JInt z => negb (z =? 0)
  | JFloat f => negb (f =? 0)%float
  | JStr s => negb (String.eqb s "")
  | JList xs => match xs with [] => false | _ => true end
  | JDict kvs => match kvs with [] => false | _ => true end
  end.

(** [v == "..."] against a string literal: only an equal string is equal. *)
Definition eq_str (v : json) (s : string) : bool :=
  match v with JStr s' => String.eqb s' s | _ => false end.

(** [int(v)]; [int_of_text] is the interpreter's [int] of a text with
    characters outside ASCII. *)
Definition to_int (int_of_text : string -> option Z) (v : json) : Py.result Z :=
  match v with
  | JInt z => Py.Ok z
  | JBool b => Py.Ok (if b then 1 else 0)
  | JFloat f => Py.int_of_float f
  | JStr s => Py.int_of_str int_of_text s
  | JNull | JList _ | JDict _ => Py.Raise Py.TypeError
  end.

(** [float(v)]; [float_of_str] is the interpreter's [float(str)], with
    [None] for the strings it rejects with [ValueError]. *)
Definition to_float (float_of_str : string -> option float) (v : json)
    : Py.result float :=
  match v with
  | JFloat f => Py.Ok f
  | JInt z => Py.float_of_int z
  | JBool b => Py.Ok (if b then 1%float else 0%float)
  | JStr s => match float_of_str s with
              | Some f => Py.Ok f
              | None => Py.Raise Py.ValueError
              end
  | JNull | JList _ | JDict _ => Py.Raise Py.TypeError
  end.

(** The integer a finite float with no fractional part is equal to. *)
Definition float_as_int (f : float) : option Z :=
  match Prim2SF f with
  | S754_zero _ => Some 0
  | S754_finite s m e =>
      if 0 <=? e then Some ((if s then -1 else 1) * (Z.pos m * 2 ^ e))
      else if Z.pos m mod 2 ^ (- e) =? 0
           then Some ((if s then -1 else 1) * (Z.pos m / 2 ^ (- e)))
           else None
  | _ => None
  end.

(** Only lists and dicts among JSON values cannot be dict keys. *)
Definition hashable (k : json) : bool :=
  match k with JList _ | JDict _ => false | _ => true end.

(** Equality of dict keys: [==] on scalars, where [bool], [int] and
    [float] compare by numeric value; every [NaN] read from JSON is the
    decoder's one constant object, which a dict finds by identity. *)
Definition key_eqb (a b : json) : bool :=
  let as_int v :=
    match v with
    | JInt z => Some z
    | JBool c => Some (if c then 1 else 0)
    | JFloat f => float_as_int f
    | _ => None
    end in
  match a, b with
  | JNull, JNull => true
  | JStr s, JStr t => String.eqb s t
  | JFloat f, JFloat g => (f =? g)%float || (is_nan f && is_nan g)
  | _, _ =>
      match as_int a, as_int b with
      | Some x, Some y => x =? y
      | _, _ => false
      end
  end.

End Json.

(* ================================================================== *)
(** ** What the interpreter provides *)
(* ================================================================== *)

(** How [json.loads] ends: with the decoded value, with
    [json.JSONDecodeError] for a text that is not JSON, or with another
    exception ([ValueError] for an integer of more than 4300 digits,
    [RecursionError] for a text nested too deep). *)
Inductive loads_result : Type :=
| Decoded (v : json)
| JSONDecodeError
| LoadsRaise (e : Py.exn).

(** [json.loads], [float] of a string ([None] when it raises
    [ValueError]), and [int] of a text with characters outside ASCII
    ([None] when it raises [ValueError]). *)
Record runtime : Type := {
  json_loads : string -> loads_result;
  float_of_str : string -> option float;
  int_of_text : string -> option Z
}.

(* ================================================================== *)
(** ** Configuration read from the environment *)
(* ================================================================== *)

Record config : Type := {
  POLL_INTERVAL_SECONDS : float;
  DEFAULT_BATCH_SIZE : Z;
  MAX_BATCH_SIZE : Z;
  MIN_EMIT_DELAY_MS : float;
  MAX_EMIT_DELAY_MS : float;
  BASE_DELAY_MS : float;
  REFERENCE_DELTA_MS : float
}.

(** The values used when the environment sets none of the variables. *)
Definition default_config : config := {|
  POLL_INTERVAL_SECONDS := 0.5;
  DEFAULT_BATCH_SIZE := 500;
  MAX_BATCH_SIZE := 2000;
  MIN_EMIT_DELAY_MS := 1;
  MAX_EMIT_DELAY_MS := 250;
  BASE_DELAY_MS := 400;
  REFERENCE_DELTA_MS := 900000
|}.

(* ================================================================== *)
(** ** [clamp_batch_size] *)
(* ================================================================== *)

(** [requested = int(raw) if raw else DEFAULT_BATCH_SIZE], with
    [ValueError] caught, then [max(1, min(requested, MAX_BATCH_SIZE))]. *)
Definition clamp_batch_size (cfg : config) (rt : runtime)
    (raw : option string) : Z :=
  let requested :=
    match raw with
    | Some s =>
        if Py.truthy_str raw
        then match Py.int_of_str (int_of_text rt) s with
             | Py.Ok z => z
             | Py.Raise _ => DEFAULT_BATCH_SIZE cfg
             end
        else DEFAULT_BATCH_SIZE cfg
    | None => DEFAULT_BATCH_SIZE cfg
    end in
  Z.max 1 (Z.min requested (MAX_BATCH_SIZE cfg)).

(* ================================================================== *)
(** ** [SimpleMovingAverage] *)
(* ================================================================== *)

Record SimpleMovingAverage : Type := {
  period : Z;
  window : list float;
  sum : float
}.

(** [__init__]: [period] is clamped to at least one, the window is empty. *)
Definition SimpleMovingAverage_init (p : Z) : SimpleMovingAverage :=
  {| period := Z.max 1 p; window := []; sum := 0%float |}.

(** [update]: append, add, evict the oldest value when the window is
    longer than [period], and answer [None] until the window is full. *)
Definition update (self : SimpleMovingAverage) (value : float)
    : Py.result (SimpleMovingAverage * option float) :=
  let window1 := window self ++ [value] in
  let sum1 := (sum self + value)%float in
  let '(window2, sum2) :=
    if period self <? Z.of_nat (List.length window1)
    then match window1 with
         | dropped :: rest => (rest, (sum1 - dropped)%float)
         | [] => (window1, sum1)
         end
    else (window1, sum1) in
  let self' := {| period := period self; window := window2; sum := sum2 |} in
  if Z.of_nat (List.length window2) <? period self
  then Py.Ok (self', None)
  else r <- Py.truediv_len sum2 (List.length window2) ;;
       Py.Ok (self', Some r).

(** [update] applied to each value in turn, with the outputs in order. *)
Fixpoint run_updates (self : SimpleMovingAverage) (values : list float)
    : Py.result (SimpleMovingAverage * list (option float)) :=
  match values with
  | [] => Py.Ok (self, [])
  | value :: rest =>
      r <- update self value ;;
      let '(self1, out) := r in
      r' <- run_updates self1 rest ;;
      let '(self2, outs) := r' in
      Py.Ok (self2, out :: outs)
  end.

(* ================================================================== *)
(** ** The session: what [_handle_candle_stream] keeps and emits *)
(* ================================================================== *)

(** A row of [fetch_candles]. *)
Module Candle.
Record t : Type := {
  timestamp : float;
  symbol : string;
  timeframe : string;
  dataset_id : option string;
  open : float;
  high : float;
  low : float;
  close : float;
  volume : float
}.
End Candle.

(** An entry of [indicator_instances]: the dict with the keys ["id"],
    ["warmup"] and ["impl"]. *)
Record instance : Type := {
  inst_id : json;
  warmup : Z;
  impl : SimpleMovingAverage
}.

(** [indicator_payload]: a dict from indicator ids to the values [update]
    returned, in insertion order. *)
Definition indicator_dict : Type := list (json * option float).

Fixpoint dict_store (k : json) (v : option float) (d : indicator_dict)
    : indicator_dict :=
  match d with
  | [] => [(k, v)]
  | (k', v') :: rest =>
      if Json.key_eqb k' k then (k', v) :: rest
      else (k', v') :: dict_store k v rest
  end.

(** [d[k] = v]: an unhashable key raises [TypeError]. *)
Definition dict_setitem (d : indicator_dict) (k : json) (v : option float)
    : Py.result indicator_dict :=
  if Json.hashable k then Py.Ok (dict_store k v d) else Py.Raise Py.TypeError.

Fixpoint dict_getitem (d : indicator_dict) (k : json) : option (option float) :=
  match d with
  | [] => None
  | (k', v') :: rest => if Json.key_eqb k' k then Some v' else dict_getitem rest k
  end.

(** The payload of a CANDLE message: the row, and the indicator dict when
    it is not empty. *)
Record payload : Type := {
  row : Candle.t;
  indicators : option indicator_dict
}.

Inductive out_msg : Type :=
| MsgError (error : string)
| MsgCandle (p : payload).

(** What the handler does to the outside, in order. *)
Inductive event : Type :=
| Accept
| SendJson (m : out_msg)
| Close
| Sleep (seconds : float).

(** [last_timestamp] is the [int] read from the query until the first row
    is sent, and the row's [float] timestamp from then on. *)
Inductive number : Type :=
| NInt (z : Z)
| NFloat (f : float).

Record session : Type := {
  symbol : string;
  timeframe : string;
  dataset_id : option string;
  batch_size : Z;
  speed : float;
  paused : bool;
  last_sent_ts : option float;
  last_timestamp : option number;
  indicator_instances : list instance;
  listening : bool   (* the [control_listener] task has not returned *)
}.

Definition with_speed (s : session) (v : float) : session :=
  {| symbol := symbol s; timeframe := timeframe s; dataset_id := dataset_id s;
     batch_size := batch_size s; speed := v; paused := paused s;
     last_sent_ts := last_sent_ts s; last_timestamp := last_timestamp s;
     indicator_instances := indicator_instances s; listening := listening s |}.

Definition with_paused (s : session) (b : bool) : session :=
  {| symbol := symbol s; timeframe := timeframe s; dataset_id := dataset_id s;
     batch_size := batch_size s; speed := speed s; paused := b;
     last_sent_ts := last_sent_ts s; last_timestamp := last_timestamp s;
     indicator_instances := indicator_instances s; listening := listening s |}.

Definition with_listening (s : session) (b : bool) : session :=
  {| symbol := symbol s; timeframe := timeframe s; dataset_id := dataset_id s;
     batch_size := batch_size s; speed := speed s; paused := paused s;
     last_sent_ts := last_sent_ts s; last_timestamp := last_timestamp s;
     indicator_instances := indicator_instances s; listening := b |}.

(** After a row is sent: the instances were updated, and both
    [last_timestamp] and [last_sent_ts] become the row's timestamp. *)
Definition with_sent (s : session) (insts : list instance) (ts : float)
    : session :=
  {| symbol := symbol s; timeframe := timeframe s; dataset_id := dataset_id s;
     batch_size := batch_size s; speed := speed s; paused := paused s;
     last_sent_ts := Some ts; last_timestamp := Some (NFloat ts);
     indicator_instances := insts; listening := listening s |}.

(* ================================================================== *)
(** ** Session setup: query parameters and indicator specifications *)
(* ================================================================== *)

(** [ws.query_params]: [get] of a name. *)
Definition query_params : Type := string -> option string.

(** One turn of the loop over [specs]. *)
Inductive spec_outcome : Type :=
| SpecSkip                      (* [continue] *)
| SpecAppend (i : instance)     (* [indicator_instances.append(...)] *)
| SpecRaise (e : Py.exn).       (* an exception no handler catches *)

Definition read_spec (rt : runtime) (spec : json) : spec_outcome :=
  match spec with
  | JDict kvs =>
      if negb (Json.eq_str (Json.get "type" kvs) "sma") then SpecSkip
      else
        let params := Json.get "params" kvs in
        match (if Json.truthy params then params else JDict []) with
        | JDict pkvs =>
            let period_raw := Json.get_default "period" (JInt 20) pkvs in
            match Json.to_int (int_of_text rt) period_raw with
            | Py.Ok z =>
                let period_val := Z.max 1 z in
                let given := Json.get "id" kvs in
                SpecAppend
                  {| inst_id :=
                       if Json.truthy given then given
                       else JStr ("sma-" ++ Py.str_of_int period_val)%string;
                     warmup := Z.max 0 (period_val - 1);
                     impl := SimpleMovingAverage_init period_val |}
            | Py.Raise Py.TypeError | Py.Raise Py.ValueError => SpecSkip
            | Py.Raise e => SpecRaise e
            end
        | _ => SpecRaise Py.AttributeError
        end
  | _ => SpecSkip
  end.

(** The loop [for spec in specs], appending to [acc]. *)
Fixpoint read_specs (rt : runtime) (specs : list json) (acc : list instance)
    : Py.result (list instance) :=
  match specs with
  | [] => Py.Ok acc
  | spec :: rest =>
      match read_spec rt spec with
      | SpecSkip => read_specs rt rest acc
      | SpecAppend i => read_specs rt rest (acc ++ [i])
      | SpecRaise e => Py.Raise e
      end
  end.

(** How the setup part of the handler ends. *)
Inductive setup_result : Type :=
| Rejected                 (* an ERROR message, [close], [return] *)
| Crashed (e : Py.exn)     (* an exception leaves the handler *)
| Started (s : session).   (* the control task and the loop start *)

Section Handler.

Variable cfg : config.
Variable rt : runtime.

(** The block that reads the [indicators] parameter: [None] stands for
    the [except json.JSONDecodeError] branch, which catches no other
    exception of [json.loads] and none of the loop over the
    specifications. *)
Definition read_indicators (indicators_raw : option string)
    : option (Py.result (list instance)) :=
  match indicators_raw with
  | Some raw =>
      if Py.truthy_str indicators_raw
      then match json_loads rt raw with
           | JSONDecodeError => None
           | LoadsRaise e => Some (Py.Raise e)
           | Decoded (JList specs) => Some (read_specs rt specs [])
           | Decoded _ => Some (Py.Ok [])
           end
      else Some (Py.Ok [])
  | None => Some (Py.Ok [])
  end.

(** [_handle_candle_stream] up to the creation of the control task. *)
Definition setup (params : query_params) : list event * setup_result :=
  let symbol := params "symbol" in
  let timeframe := params "timeframe" in
  let dataset_id := Py.or_str (params "datasetId") (params "dataset_id") in
  let after_raw := Py.or_str (params "after") (params "from") in
  let batch_size := clamp_batch_size cfg rt (params "batch") in
  let speed :=
    match params "speed" with
    | Some speed_raw =>
        match float_of_str rt speed_raw with
        | Some f => Py.max 0.1 f
        | None => 1%float
        end
    | None => 1%float
    end in
  match symbol, timeframe with
  | Some sym, Some tf =>
      if Py.truthy_str symbol && Py.truthy_str timeframe then
        let after :=
          match after_raw with
          | Some a => match Py.int_of_str (int_of_text rt) a with
                      | Py.Ok z => Some (Some (NInt z))
                      | Py.Raise _ => None
                      end
          | None => Some None
          end in
        match after with
        | None =>
            ([Accept;
              SendJson (MsgError "after/from must be a unix epoch in milliseconds");
              Close], Rejected)
        | Some last_timestamp =>
            match read_indicators (params "indicators") with
            | None =>
                ([Accept; SendJson (MsgError "invalid indicators payload");
                  Close], Rejected)
            | Some (Py.Raise e) => ([Accept], Crashed e)
            | Some (Py.Ok indicator_instances) =>
                ([Accept],
                 Started
                   {| symbol := sym; timeframe := tf;
                      dataset_id := dataset_id; batch_size := batch_size;
                      speed := speed; paused := false;
                      last_sent_ts := None;
                      last_timestamp := last_timestamp;
                      indicator_instances := indicator_instances;
                      listening := true |})
            end
        end
      else
        ([Accept;
          SendJson (MsgError "symbol and timeframe query params are required");
          Close], Rejected)
  | _, _ =>
      ([Accept;
        SendJson (MsgError "symbol and timeframe query params are required");
        Close], Rejected)
  end.

(* ================================================================ *)
(** ** [control_listener] *)
(* ================================================================ *)

(** What [await ws.receive_json()] gives: a decoded message, or an
    exception (a disconnect, a frame that is not JSON). *)
Inductive ctrl_input : Type :=
| CtrlJson (message : json)
| CtrlRaise.

(** One turn of the [while True] of the listener. *)
Definition control_listener (s : session) (i : ctrl_input) : session :=
  if negb (listening s) then s
  else
    match i with
    | CtrlRaise => with_listening s false
    | CtrlJson (JDict kvs) =>
        let msg_type := Json.get "type" kvs in
        if Json.eq_str msg_type "SET_SPEED" then
          match Json.to_float (float_of_str rt) (Json.get "speed" kvs) with
          | Py.Ok next_speed => with_speed s (Py.max 0.1 next_speed)
          | Py.Raise Py.TypeError | Py.Raise Py.ValueError => s
          | Py.Raise _ => with_listening s false
          end
        else if Json.eq_str msg_type "PAUSE" then with_paused s true
        else if Json.eq_str msg_type "PLAY" then with_paused s false
        else s
    | CtrlJson _ => s
    end.

(* ================================================================ *)
(** ** The replay loop *)
(* ================================================================ *)

(** The delay, in milliseconds, computed after a row is sent. *)
Definition pacing_delay (delta_ms speed : float) : Py.result float :=
  q <- Py.truediv delta_ms (REFERENCE_DELTA_MS cfg) ;;
  let normalized := (q * BASE_DELAY_MS cfg)%float in
  delay_ms <- Py.truediv normalized (Py.max speed 0.1) ;;
  tenth <- Py.truediv speed 10 ;;
  ratio <- Py.truediv (MAX_EMIT_DELAY_MS cfg) (Py.max 1 tenth) ;;
  let dynamic_max := Py.max 20 ratio in
  Py.Ok (Py.max (MIN_EMIT_DELAY_MS cfg) (Py.min dynamic_max delay_ms)).

(** The loop over [indicator_instances] for one row: every instance is
    updated with the close, and its value is stored under its id. *)
Fixpoint update_instances (insts : list instance) (close : float)
    (indicator_payload : indicator_dict)
    : Py.result (list instance * indicator_dict) :=
  match insts with
  | [] => Py.Ok ([], indicator_payload)
  | i :: rest =>
      r <- update (impl i) close ;;
      let '(impl1, value) := r in
      d <- dict_setitem indicator_payload (inst_id i) value ;;
      r' <- update_instances rest close d ;;
      let '(rest1, d1) := r' in
      Py.Ok ({| inst_id := inst_id i; warmup := warmup i; impl := impl1 |}
             :: rest1, d1)
  end.

(** The body of [for row in rows].  [during_send] are the control
    messages the listener handles while the loop awaits [send_json];
    the speed they leave is the one the delay is computed from. *)
Definition process_row (s : session) (r : Candle.t)
    (during_send : list ctrl_input) : list event * Py.result session :=
  match update_instances (indicator_instances s) (Candle.close r) [] with
  | Py.Raise e => ([], Py.Raise e)
  | Py.Ok (insts, indicator_payload) =>
      let p := {| row := r;
                  indicators := match indicator_payload with
                                | [] => None
                                | _ => Some indicator_payload
                                end |} in
      let ts := Candle.timestamp r in
      let s1 := fold_left control_listener during_send s in
      match last_sent_ts s1 with
      | Some last =>
          let delta_ms := Py.max 1 (ts - last)%float in
          match pacing_delay delta_ms (speed s1) with
          | Py.Ok delay_ms =>
              ([SendJson (MsgCandle p); Sleep (delay_ms / 1000)%float],
               Py.Ok (with_sent s1 insts ts))
          | Py.Raise e => ([SendJson (MsgCandle p)], Py.Raise e)
          end
      | None => ([SendJson (MsgCandle p)], Py.Ok (with_sent s1 insts ts))
      end
  end.

Fixpoint process_rows (s : session) (rows : list (Candle.t * list ctrl_input))
    : list event * Py.result session :=
  match rows with
  | [] => ([], Py.Ok s)
  | (r, during_send) :: rest =>
      match process_row s r during_send with
      | (evs, Py.Ok s1) =>
          let '(evs', res) := process_rows s1 rest in (evs ++ evs', res)
      | (evs, Py.Raise e) => (evs, Py.Raise e)
      end
  end.

(** The arguments of the [fetch_candles] call at the head of the loop. *)
Record fetch_request : Type := {
  req_symbol : string;
  req_timeframe : string;
  req_dataset_id : option string;
  after_timestamp : option number;
  limit : Z
}.

Definition fetch_request_of (s : session) : fetch_request :=
  {| req_symbol := symbol s; req_timeframe := timeframe s;
     req_dataset_id := dataset_id s; after_timestamp := last_timestamp s;
     limit := batch_size s |}.

(** One turn of the [while True] of the loop.  [fetched] is what
    [fetch_candles] returns for [fetch_request_of s] (it is not called
    while the session is paused), each row with the control messages
    handled while it is being sent. *)
Definition iteration (s : session) (fetched : list (Candle.t * list ctrl_input))
    : list event * Py.result session :=
  if paused s then ([Sleep 0.05], Py.Ok s)
  else
    match fetched with
    | [] => ([Sleep (POLL_INTERVAL_SECONDS cfg)], Py.Ok s)
    | _ =>
        match process_rows s fetched with
        | (evs, Py.Ok s1) => (evs ++ [Sleep 0], Py.Ok s1)
        | (evs, Py.Raise e) => (evs, Py.Raise e)
        end
    end.

(** What happens to a running session: the listener handles a message
    while the loop sleeps or awaits the fetch, or the loop takes a turn. *)
Inductive input : Type :=
| Control (i : ctrl_input)
| Iteration (fetched : list (Candle.t * list ctrl_input)).

Definition step (s : session) (i : input) : list event * Py.result session :=
  match i with
  | Control c => ([], Py.Ok (control_listener s c))
  | Iteration fetched => iteration s fetched
  end.

Fixpoint run (s : session) (inputs : list input)
    : list event * Py.result session :=
  match inputs with
  | [] => ([], Py.Ok s)
  | i :: rest =>
      match step s i with
      | (evs, Py.Ok s1) =>
          let '(evs', res) := run s1 rest in (evs ++ evs', res)
      | (evs, Py.Raise e) => (evs, Py.Raise e)
      end
  end.

(** The handler: the setup, then the session on its inputs.  A
    disconnect ends the inputs. *)
Definition _handle_candle_stream (params : query_params) (inputs : list input)
    : list event :=
  match setup params with
  | (evs, Started s) => evs ++ fst (run s inputs)
  | (evs, _) => evs
  end.

End Handler.

(* ================================================================== *)
(** ** The data source's contract and the order of cursors *)
(* ================================================================== *)

(** [z < f] and [z <= f] for an [int] and a [float], compared by value as
    Python compares them. *)
Definition int_cmp_float (cmp : Z -> Z -> bool) (z : Z) (f : float) : bool :=
  match Prim2SF f with
  | S754_zero _ => cmp z 0
  | S754_infinity s => negb s
  | S754_nan => false
  | S754_finite s m e =>
      let v := if s then Z.neg m else Z.pos m in
      if 0 <=? e then cmp z (v * 2 ^ e) else cmp (z * 2 ^ (- e)) v
  end.

(** [n < ts] for the value of [last_timestamp] and a row's timestamp. *)
Definition number_ltb (n : number) (ts : float) : bool :=
  match n with
  | NInt z => int_cmp_float Z.ltb z ts
  | NFloat f => (f <? ts)%float
  end.

(** The cursor did not move, or it moved to a greater timestamp. *)
Definition cursor_le (c c' : option number) : Prop :=
  c' = c \/
  match c, c' with
  | None, Some _ => True
  | Some n, Some (NFloat ts) => number_ltb n ts = true
  | _, _ => False
  end.

Fixpoint ascending (ts : list float) : bool :=
  match ts with
  | a :: (b :: _) as rest => (a <=? b)%float && ascending rest
  | _ => true
  end.

(** What [fetch_candles] promises for a request: at most [limit] rows,
    in ascending order of timestamp, each after [after_timestamp] when
    one is given. *)
Definition source_contract (req : fetch_request) (rows : list Candle.t) : bool :=
  (Z.of_nat (List.length rows) <=? limit req)
  && ascending (map Candle.timestamp rows)
  && forallb (fun r => match after_timestamp req with
                       | Some n => number_ltb n (Candle.timestamp r)
                       | None => true
                       end) rows.

(** An input keeps the contract when the rows of an iteration are what
    the source may return for the request the session makes. *)
Definition respects_contract (s : session) (i : input) : bool :=
  match i with
  | Control _ => true
  | Iteration fetched =>
      paused s || source_contract (fetch_request_of s) (map fst fetched)
  end.

(** The values [last_timestamp] takes along a run: one after each input
    that the session survives. *)
Fixpoint cursors (cfg : config) (rt : runtime) (s : session) (inputs : list input)
    : list (option number) :=
  match inputs with
  | [] => []
  | i :: rest =>
      match step cfg rt s i with
      | (_, Py.Ok s1) => last_timestamp s1 :: cursors cfg rt s1 rest
      | (_, Py.Raise _) => []
      end
  end.

(** Every input of a run keeps the contract, in the state it meets. *)
Fixpoint run_respects_contract (cfg : config) (rt : runtime) (s : session)
    (inputs : list input) : bool :=
  match inputs with
  | [] => true
  | i :: rest =>
      respects_contract s i &&
      match step cfg rt s i with
      | (_, Py.Ok s1) => run_respects_contract cfg rt s1 rest
      | (_, Py.Raise _) => true
      end
  end.

(** Consecutive cursors never decrease. *)
Fixpoint non_decreasing (c : option number) (cs : list (option number)) : Prop :=
  match cs with
  | [] => True
  | c' :: rest => cursor_le c c' /\ non_decreasing c' rest
  end.

(* ================================================================== *)
(** ** The pacing formula, in the words of the specification *)
(* ================================================================== *)

Module Spec.

(** [clamp(x, lo, hi)]: [x] capped at [hi], then raised to [lo]. *)
Definition clamp (x lo hi : float) : float := Py.max lo (Py.min hi x).

Definition dynamicMax (cfg : config) (speed : float) : float :=
  Py.max 20 (MAX_EMIT_DELAY_MS cfg / Py.max 1 (speed / 10))%float.

Definition delay (cfg : config) (deltaMs speed : float) : float :=
  let normalized := (deltaMs / REFERENCE_DELTA_MS cfg * BASE_DELAY_MS cfg)%float in
  let raw := (normalized / Py.max speed 0.1)%float in
  clamp raw (MIN_EMIT_DELAY_MS cfg) (dynamicMax cfg speed).

End Spec.

(* ================================================================== *)
(** ** Exact values of floats, for statements about sums *)
(* ================================================================== *)

(** The rational number a finite float denotes. *)
Definition exact (f : float) : option Q :=
  match Prim2SF f with
  | S754_zero _ => Some 0%Q
  | S754_finite s m e =>
      Some ((if s then Qopp else (fun q => q))
              (inject_Z (Z.pos m) * Qpower 2 e))%Q
  | _ => None
  end.

(** The sum of the values of a list of floats, with no rounding. *)
Fixpoint exact_sum (xs : list float) : option Q :=
  match xs with
  | [] => Some 0%Q
  | x :: rest =>
      match exact x, exact_sum rest with
      | Some a, Some b => Some (a + b)%Q
      | _, _ => None
      end
  end.

(** [runningSum] denotes the sum of the values in the window. *)
Definition sum_is_exact (self : SimpleMovingAverage) : bool :=
  match exact (sum self), exact_sum (window self) with
  | Some a, Some b => Qeq_bool a b
  | _, _ => false
  end.

(** The float addition [a + b] rounded nothing away. *)
Definition exact_add (a b : float) : bool :=
  match exact a, exact b, exact (a + b)%float with
  | Some x, Some y, Some z => Qeq_bool z (x + y)
  | _, _, _ => false
  end.

(** The float subtraction [a - b] rounded nothing away. *)
Definition exact_sub (a b : float) : bool :=
  match exact a, exact b, exact (a - b)%float with
  | Some x, Some y, Some z => Qeq_bool z (x - y)
  | _, _, _ => false
  end.

(** The addition, and the subtraction when a value is evicted, that
    [update self value] performs are both exact. *)
Definition exact_update (self : SimpleMovingAverage) (value : float) : bool :=
  exact_add (sum self) value &&
  (if period self <? Z.of_nat (List.length (window self ++ [value]))
   then match window self ++ [value] with
        | dropped :: _ => exact_sub (sum self + value)%float dropped
        | [] => true
        end
   else true).

(** Every [update] of a run is exact. *)
Fixpoint exact_updates (self : SimpleMovingAverage) (values : list float) : bool :=
  match values with
  | [] => true
  | value :: rest =>
      exact_update self value &&
      match update self value with
      | Py.Ok (self1, _) => exact_updates self1 rest
      | Py.Raise _ => false
      end
  end.

(** The arithmetic mean of the values of a list of floats, with no
    rounding. *)
Definition exact_mean (xs : list float) : option Q :=
  match exact_sum xs with
  | Some q => Some (q / inject_Z (Z.of_nat (List.length xs)))%Q
  | None => None
  end.

(** The float [f] denotes the rational [q]. *)
Definition denotes (f : float) (q : option Q) : bool :=
  match exact f, q with
  | Some a, Some b => Qeq_bool a b
  | _, _ => false
  end.

(** The last [k] elements of a list (all of it when it is shorter). *)
Definition lastn {A : Type} (k : nat) (xs : list A) : list A :=
  skipn (List.length xs - k) xs.

(** The text of [n] nines. *)
Fixpoint nines (n : nat) : string :=
  match n with
  | O => ""
  | S n' => String "9" (nines n')
  end.

(** A runtime for the examples: it agrees with [json.loads] and [float]
    on the texts listed, the only ones it is applied to; the integer of
    4301 digits is one that [json.loads] refuses with [ValueError]. *)
Definition example_runtime : runtime := {|
  json_loads := fun text =>
    if String.eqb text "{}" then Decoded (JDict [])
    else if String.eqb text "5" then Decoded (JInt 5)
    else if String.eqb text "[]" then Decoded (JList [])
    else if String.eqb text (nines 4301) then LoadsRaise Py.ValueError
    else JSONDecodeError;
  float_of_str := fun text =>
    if String.eqb text "2.5" then Some 2.5%float
    else if String.eqb text "0.01" then Some 0.01%float
    else None;
  int_of_text := fun _ => None
|}.

(** Query parameters given as a list of pairs. *)
Fixpoint query (items : list (string * string)) : query_params :=
  fun name =>
    match items with
    | [] => None
    | (k, v) :: rest => if String.eqb name k then Some v else query rest name
    end.

(** The instances [read_specs] appends for a list of specifications when
    no turn raises: those of the entries [read_spec] appends. *)
Definition appended (rt : runtime) (specs : list json) : list instance :=
  flat_map (fun spec => match read_spec rt spec with
                        | SpecAppend i => [i]
                        | _ => []
                        end) specs.

(* ================================================================== *)
(** ** The order of floats *)
(* ================================================================== *)

(** The place of a float in the order of the floats that are not NaN: its
    class (the infinities at the ends, the zeros in the middle), then its
    exponent and its mantissa, negated for a negative float. *)
Definition sf_key (f : spec_float) : option (Z * Z * Z) :=
  match f with
  | S754_nan => None
  | S754_infinity s => Some (if s then -2 else 2, 0, 0)
  | S754_zero _ => Some (0, 0, 0)
  | S754_finite s m e =>
      Some (if s then (-1, - e, Z.neg m) else (1, e, Z.pos m))
  end.

Definition key_lt (a b : Z * Z * Z) : Prop :=
  let '(a1, a2, a3) := a in
  let '(b1, b2, b3) := b in
  a1 < b1 \/ (a1 = b1 /\ (a2 < b2 \/ (a2 = b2 /\ a3 < b3))).

Definition key_eq (a b : Z * Z * Z) : Prop :=
  let '(a1, a2, a3) := a in
  let '(b1, b2, b3) := b in
  a1 = b1 /\ a2 = b2 /\ a3 = b3.

Definition fkey (x : float) : option (Z * Z * Z) := sf_key (Prim2SF x).

(** [x < y], [x == y] and [x <= y] on floats, as propositions. *)
Definition flt (x y : float) : Prop :=
  match fkey x, fkey y with
  | Some a, Some b => key_lt a b
  | _, _ => False
  end.

Definition feq (x y : float) : Prop :=
  match fkey x, fkey y with
  | Some a, Some b => key_eq a b
  | _, _ => False
  end.

Definition fle (x y : float) : Prop := flt x y \/ feq x y.

(* ================================================================== *)
(** ** Rounding, as [SpecFloat] performs it

    The division of [SpecFloat] keeps, below the quotient, a round bit
    and a sticky bit.  An integer [T] with these two extra bits is the
    "sticky quotient" of a ratio: twice its floor, plus one when the
    division is not exact. *)
(* ================================================================== *)


(** The sticky quotient of [a / b]. *)
Definition sq (a b : Z) : Z := 2 * (a / b) + (if a mod b =? 0 then 0 else 1).

(** A bit as an integer. *)
Definition b2z (b : bool) : Z := if b then 1 else 0.

(** A shift record as an integer with its round and sticky bits. *)
Definition enc (r : shr_record) : Z :=
  4 * shr_m r + 2 * b2z (shr_r r) + b2z (shr_s r).

(** The two extra bits a location stands for. *)
Definition loc_code (l : location) : Z :=
  match l with
  | loc_Exact => 0
  | loc_Inexact Lt => 1
  | loc_Inexact Eq => 2
  | loc_Inexact Gt => 3
  end.

(** Rounding to nearest, ties to even, of an integer with two extra bits. *)
Definition rne (T : Z) : Z :=
  let m := T / 4 in
  let t := T mod 4 in
  if t <=? 1 then m
  else if t =? 2 then (if Z.even m then m else m + 1)
  else m + 1.

(** The exponent a binary64 value of a given magnitude is written with. *)
Definition fexp64 : Z -> Z := fexp prec emax.

(** The result of [binary_round_aux], from the integer it rounds. *)
Definition finish (sx : bool) (m2 e2 : Z) : spec_float :=
  match m2 with
  | 0 => S754_zero sx
  | Z.pos m => if e2 <=? 971 then S754_finite sx m e2 else S754_infinity sx
  | Z.neg _ => S754_nan
  end.

(** The float [binary_round_aux] gives for [T] read at the exponent [c]. *)
Definition round_at (sx : bool) (T c : Z) : spec_float :=
  let m1 := rne T in
  let n2 := Z.max 0 (fexp64 (Zdigits2 m1 + c) - c) in
  finish sx (m1 / 2 ^ n2) (c + n2).

(** [T] has at most 53 digits before its two extra bits, and exactly 53
    above the smallest exponent. *)
Definition canon (T c : Z) : Prop :=
  -1074 <= c /\ 0 <= T /\ T / 4 < 2 ^ 53 /\ (c = -1074 \/ 2 ^ 52 <= T / 4).

(** The place of [round_at false T c] in the order of floats. *)
Definition round_key (T c : Z) : Z * Z * Z :=
  let m1 := rne T in
  if m1 =? 0 then (0, 0, 0)
  else if m1 <? 2 ^ 53 then (if c <=? 971 then (1, c, m1) else (2, 0, 0))
  else (if c + 1 <=? 971 then (1, c + 1, 2 ^ 52) else (2, 0, 0)).

(** [a <= b] on keys. *)
Definition key_le (a b : Z * Z * Z) : Prop := key_lt a b \/ key_eq a b.

(** [T], read at the exponent [c], is the sticky quotient of [wx / wy]:
    for some [a / b] equal to [(wx / wy) / 2 ^ c]. *)
Definition stands_for (T c wx wy : Z) : Prop :=
  exists a b, 0 < b /\ 0 <= a /\ T = sq (2 * a) b
              /\ a * wy * 2 ^ (c + 1074) = b * wx * 2 ^ 1074.

(** The value of a finite float, in units of [2 ^ -1074]. *)
Definition weight (m : positive) (e : Z) : Z := Z.pos m * 2 ^ (e + 1074).

(** [x <= y] and [x < y] on the floats of [SpecFloat], by their keys. *)
Definition sf_le (x y : spec_float) : Prop :=
  match sf_key x, sf_key y with
  | Some a, Some b => key_le a b
  | _, _ => False
  end.

Definition sf_lt (x y : spec_float) : Prop :=
  match sf_key x, sf_key y with
  | Some a, Some b => key_lt a b
  | _, _ => False
  end.

Definition sf_inf (x : spec_float) : Prop := x = S754_infinity false.

Definition sf_valid (x : spec_float) : Prop :=
  SpecFloat.valid_binary prec emax x = true.

(** A float is plus infinity. *)
Definition finf (x : float) : Prop := Prim2SF x = S754_infinity false.

(* ================================================================== *)
(** ** Invariants of the session *)
(* ================================================================== *)

(** A candle for the examples: a timestamp and a close. *)
Definition example_candle (ts close : float) : Candle.t :=
  {| Candle.timestamp := ts; Candle.symbol := "BTCUSDT";
     Candle.timeframe := "15m"; Candle.dataset_id := None;
     Candle.open := close; Candle.high := close; Candle.low := close;
     Candle.close := close; Candle.volume := 1 |}.

(** The instances a session can run with: string ids, and periods of
    at least one (those that [SimpleMovingAverage.__init__] builds). *)
Definition instances_ok (insts : list instance) : Prop :=
  Forall (fun j => (exists s, inst_id j = JStr s) /\ 1 <= period (impl j)) insts.

(** The speed of a session is at least 0.1. *)
Definition speed_ok (s : session) : Prop := (0.1 <=? speed s)%float = true.

(** [clamp] written with comparisons: [lo] below [lo], [hi] above [hi]. *)
Definition clamp_cases (x lo hi : float) : float :=
  if (x <? lo)%float then lo else if (hi <? x)%float then hi else x.

(** The configurations the delay is studied for: a positive reference
    delta, a base delay and a maximum that are not negative, a minimum of
    at most 20.  The default configuration is one. *)
Definition config_ok (cfg : config) : bool :=
  ((0 <? REFERENCE_DELTA_MS cfg) && (0 <=? BASE_DELAY_MS cfg)
   && (0 <=? MAX_EMIT_DELAY_MS cfg) && (MIN_EMIT_DELAY_MS cfg <=? 20))%float.

(* ================================================================== *)
(** ** What the handler sends, and what its instances were fed *)
(* ================================================================== *)

(** The rows of the CANDLE messages among events, in order. *)
Definition sent_rows (evs : list event) : list Candle.t :=
  flat_map (fun e => match e with
                     | SendJson (MsgCandle p) => [row p]
                     | _ => []
                     end) evs.

(** What the replay loop does to the outside: it sends CANDLE messages
    and sleeps. *)
Definition loop_event (e : event) : bool :=
  match e with
  | SendJson (MsgCandle _) | Sleep _ => true
  | _ => false
  end.

(** The sleeps of a paused loop: one of 0.05 s for each turn. *)
Definition paused_sleeps (inputs : list input) : list event :=
  flat_map (fun i => match i with
                     | Iteration _ => [Sleep 0.05]
                     | Control _ => []
                     end) inputs.

(** A float is an infinity. *)
Definition is_inf (f : float) : bool :=
  match Prim2SF f with S754_infinity _ => true | _ => false end.

(** The instance [j'] is [j] after its average was fed [closes]. *)
Definition fed (closes : list float) (j j' : instance) : Prop :=
  inst_id j' = inst_id j /\ warmup j' = warmup j
  /\ exists outs, run_updates (impl j) closes = Py.Ok (impl j', outs).

(** Every instance has a period of at least one. *)
Definition periods_ok (insts : list instance) : Prop :=
  Forall (fun j => 1 <= period (impl j)) insts.

(** Every id can be a key of [indicator_payload]. *)
Definition ids_hashable (insts : list instance) : bool :=
  forallb (fun j => Json.hashable (inst_id j)) insts.

(** ** [fetch_candles]: the query and its parameters *)

(** A value passed to [cur.execute] beside the query. *)
Inductive sql_param : Type :=
| ParamStr (s : string)
| ParamNumber (n : number)
| ParamInt (z : Z).

Definition nl : string := String (ascii_of_nat 10) "".

(** The f-string of [fetch_candles], with the joined filters in its
    [WHERE] clause. *)
Definition query_text (filters : list string) : string :=
  String.concat nl
    [ "";
      "    SELECT";
      "      EXTRACT(EPOCH FROM timestamp) * 1000 AS timestamp,";
      "      symbol,";
      "      timeframe,";
      "      dataset_id,";
      "      open,";
      "      high,";
      "      low,";
      "      close,";
      "      volume";
      "    FROM candles";
      ("    WHERE " ++ String.concat " AND " filters)%string;
      "    ORDER BY timestamp ASC";
      "    LIMIT %s;";
      "    " ].

(** The query and the parameters [fetch_candles] executes: a filter on
    the dataset when [dataset_id] is truthy, one on the timestamp when
    [after_timestamp] is not [None], and the limit last. *)
Definition fetch_query (req : fetch_request) : string * list sql_param :=
  let filters := ["symbol = %s"; "timeframe = %s"] in
  let params := [ParamStr (req_symbol req); ParamStr (req_timeframe req)] in
  let '(filters, params) :=
    match req_dataset_id req with
    | Some ds =>
        if Py.truthy_str (req_dataset_id req)
        then (filters ++ ["dataset_id = %s"], params ++ [ParamStr ds])
        else (filters, params)
    | None => (filters, params)
    end in
  let '(filters, params) :=
    match after_timestamp req with
    | Some after =>
        (filters ++ ["timestamp > to_timestamp(%s / 1000.0)"],
         params ++ [ParamNumber after])
    | None => (filters, params)
    end in
  let params := params ++ [ParamInt (limit req)] in
  (query_text filters, params).

(** The placeholders of a query, as the driver counts them: [%s], with
    [%%] standing for a percent sign. *)
Fixpoint placeholders_from (cs : list ascii) : nat :=
  match cs with
  | c :: (c' :: rest') as rest =>
      if Ascii.eqb c "%"
      then if Ascii.eqb c' "s" then S (placeholders_from rest')
           else if Ascii.eqb c' "%" then placeholders_from rest'
           else placeholders_from rest
      else placeholders_from rest
  | _ => O
  end.

Definition placeholders (query : string) : nat :=
  placeholders_from (list_ascii_of_string query).

(* ================================================================== *)
(** ** The digits of an integer *)
(* ================================================================== *)

(** The value [parse_digits] reaches on the digits of [d], from [acc]. *)
Fixpoint uint_acc (d : Decimal.uint) (acc : Z) : Z :=
  match d with
  | Decimal.Nil => acc
  | Decimal.D0 l => uint_acc l (10 * acc + 0)
  | Decimal.D1 l => uint_acc l (10 * acc + 1)
  | Decimal.D2 l => uint_acc l (10 * acc + 2)
  | Decimal.D3 l => uint_acc l (10 * acc + 3)
  | Decimal.D4 l => uint_acc l (10 * acc + 4)
  | Decimal.D5 l => uint_acc l (10 * acc + 5)
  | Decimal.D6 l => uint_acc l (10 * acc + 6)
  | Decimal.D7 l => uint_acc l (10 * acc + 7)
  | Decimal.D8 l => uint_acc l (10 * acc + 8)
  | Decimal.D9 l => uint_acc l (10 * acc + 9)
  end.

(** No white space, and no sign or underscore: digits only. *)
Definition all_digits (cs : list ascii) : Prop :=
  Forall (fun c => Py.digit_val c <> None) cs.

(* ================================================================== *)
(** ** Sums that are not finite *)
(* ================================================================== *)

(** An output of [update] that is [None] or NaN. *)
Definition nan_or_none (o : option float) : bool :=
  match o with None => true | Some f => is_nan f end.

(** A running sum that is NaN, or the infinity of the sign [sg]. *)
Definition poisoned (sg : bool) (s : float) : Prop :=
  Prim2SF s = S754_nan \/ Prim2SF s = S754_infinity sg.

(* ================================================================== *)
(** ** The sleeps of the loop *)
(* ================================================================== *)

(** The sleeps of the loop: the three constant ones, and the pacing
    sleeps, between the minimum and the dynamic maximum of the lowest
    speed, in seconds. *)
Definition sleep_in_bounds (cfg : config) (e : event) : Prop :=
  match e with
  | Sleep x =>
      x = 0.05%float \/ x = POLL_INTERVAL_SECONDS cfg \/ x = 0%float
      \/ (fle (MIN_EMIT_DELAY_MS cfg / 1000) x
          /\ fle x (Spec.dynamicMax cfg 0.1 / 1000))
  | _ => True
  end.

(** ** A runtime and a query for the examples *)

(** The double quote, for JSON texts. *)
Definition dq : string := String (ascii_of_nat 34) "".

(** The text of a list with one specification: a simple moving average
    of period 2. *)
Definition sma2_text : string :=
  String.concat dq
    ["[{"; "type"; ":"; "sma"; ","; "params"; ":{"; "period"; ":2}}]"].

(** A runtime that also decodes [sma2_text], as [json.loads] does. *)
Definition demo_runtime : runtime := {|
  json_loads := fun text =>
    if String.eqb text sma2_text
    then Decoded (JList [JDict [("type", JStr "sma");
                                ("params", JDict [("period", JInt 2)])]])
    else json_loads example_runtime text;
  float_of_str := float_of_str example_runtime;
  int_of_text := int_of_text example_runtime
|}.

Definition demo_params : query_params :=
  query [("symbol", "BTCUSDT"); ("timeframe", "15m"); ("speed", "2.5");
         ("indicators", sma2_text)].

(** The session [demo_params] starts. *)
Definition demo_session : session :=
  {| symbol := "BTCUSDT"; timeframe := "15m"; dataset_id := None;
     batch_size := 500; speed := 2.5; paused := false;
     last_sent_ts := None; last_timestamp := None;
     indicator_instances :=
       [ {| inst_id := JStr "sma-2"; warmup := 1;
            impl := SimpleMovingAverage_init 2 |} ];
     listening := true |}.

(** A batch of three rows, a pause, a turn while paused. *)
Definition demo_inputs : list input :=
  [Iteration [(example_candle 900000 10, []); (example_candle 1800000 20, []);
              (example_candle 2700000 30, [])];
   Control (CtrlJson (JDict [("type", JStr "PAUSE")]));
   Iteration [(example_candle 3600000 40, [])]].

(* ================================================================== *)
(** ** PLAY messages *)
(* ================================================================== *)

(** A control message whose type is PLAY. *)
Definition is_play (i : input) : bool :=
  match i with
  | Control (CtrlJson (JDict kvs)) => Json.eq_str (Json.get "type" kvs) "PLAY"
  | _ => false
  end.

(* ================================================================== *)
(** ** The last row sent *)
(* ================================================================== *)

(** The last row sent among events, if any. *)
Definition last_sent (evs : list event) : option Candle.t :=
  last (map Some (sent_rows evs)) None.

(** The cursor and [last_sent_ts] after [evs], from the values [c] and
    [l] they had before. *)
Definition cursor_after (evs : list event) (c : option number) (l : option float)
    : option number * option float :=
  match last_sent evs with
  | Some r => (Some (NFloat (Candle.timestamp r)), Some (Candle.timestamp r))
  | None => (c, l)
  end.

(* ================================================================== *)
(** ** The module's top level: reading the environment *)
(* ================================================================== *)

(** How the import of the module ends. *)
Inductive load_result : Type :=
| Loaded (cfg : config)
| LoadRuntimeError          (* [DATABASE_URL] is required *)
| LoadValueError.           (* a tunable is not a number *)

(** [os.getenv(name, default)]: the default only when the variable is
    not set. *)
Definition getenv (env : string -> option string) (name default : string)
    : string :=
  match env name with Some v => v | None => default end.

(** The assignments at the top of the module, in order: the check of
    [DATABASE_URL], then each tunable converted with [float] or [int]. *)
Definition load_config (rt : runtime) (env : string -> option string)
    : load_result :=
  if negb (Py.truthy_str (env "DATABASE_URL")) then LoadRuntimeError
  else
    match float_of_str rt (getenv env "STREAM_POLL_INTERVAL" "0.5") with
    | None => LoadValueError
    | Some poll =>
    match Py.int_of_str (int_of_text rt)
            (getenv env "STREAM_BATCH_SIZE" "500") with
    | Py.Raise _ => LoadValueError
    | Py.Ok default_batch =>
    match Py.int_of_str (int_of_text rt)
            (getenv env "STREAM_MAX_BATCH_SIZE" "2000") with
    | Py.Raise _ => LoadValueError
    | Py.Ok max_batch =>
    match float_of_str rt (getenv env "STREAM_MIN_EMIT_DELAY_MS" "1") with
    | None => LoadValueError
    | Some min_delay =>
    match float_of_str rt (getenv env "STREAM_MAX_EMIT_DELAY_MS" "250") with
    | None => LoadValueError
    | Some max_delay =>
    match float_of_str rt (getenv env "STREAM_BASE_DELAY_MS" "400") with
    | None => LoadValueError
    | Some base =>
    match float_of_str rt (getenv env "STREAM_REFERENCE_DELTA_MS"
                             (Py.str_of_int (15 * 60 * 1000))) with
    | None => LoadValueError
    | Some reference =>
        Loaded {| POLL_INTERVAL_SECONDS := poll;
                  DEFAULT_BATCH_SIZE := default_batch;
                  MAX_BATCH_SIZE := max_batch;
                  MIN_EMIT_DELAY_MS := min_delay;
                  MAX_EMIT_DELAY_MS := max_delay;
                  BASE_DELAY_MS := base;
                  REFERENCE_DELTA_MS := reference |}
    end end end end end end end.

(** The texts of the defaults, read as [float] reads them. *)
Definition reads_the_defaults (rt : runtime) : Prop :=
  float_of_str rt "0.5" = Some 0.5%float
  /\ float_of_str rt "1" = Some 1%float
  /\ float_of_str rt "250" = Some 250%float
  /\ float_of_str rt "400" = Some 400%float
  /\ float_of_str rt "900000" = Some 900000%float.

(** A runtime that reads the defaults, and an environment that sets
    [DATABASE_URL] only. *)
Definition defaults_runtime : runtime := {|
  json_loads := json_loads example_runtime;
  float_of_str := fun text =>
    if String.eqb text "0.5" then Some 0.5%float
    else if String.eqb text "1" then Some 1%float
    else if String.eqb text "250" then Some 250%float
    else if String.eqb text "400" then Some 400%float
    else if String.eqb text "900000" then Some 900000%float
    else float_of_str example_runtime text;
  int_of_text := int_of_text example_runtime
|}.

Definition database_only : string -> option string :=
  query [("DATABASE_URL", "postgresql://localhost/candles")].

(* ================================================================== *)
(** ** Instances that share an id *)
(* ================================================================== *)

(** The payloads of the CANDLE messages among events, in order. *)
Definition sent_payloads (evs : list event) : list payload :=
  flat_map (fun e => match e with
                     | SendJson (MsgCandle p) => [p]
                     | _ => []
                     end) evs.

(** [payload["indicators"][k]] of a CANDLE message: [None] when the
    message has no [indicators] or the dict has no key [k]. *)
Definition indicator_value (k : json) (p : payload) : option (option float) :=
  match indicators p with
  | Some d => dict_getitem d k
  | None => None
  end.

(** In the list [pre ++ i :: post] of instances with string ids and
    periods of at least one, [i] is the last one with the id [k]. *)
Definition last_with_id (k : string) (pre : list instance) (i : instance)
    (post : list instance) : Prop :=
  instances_ok (pre ++ i :: post)
  /\ inst_id i = JStr k
  /\ Forall (fun j => inst_id j <> JStr k) post.

(** What a part of a run does with the id [k], whose last instance is
    [i] at its start: the values sent under [k] are the outputs of the
    average of [i] on the closes sent, and in the state it ends in the
    last instance with the id [k] is [i] with that average. *)
Definition carries_later_value (k : string) (i : instance)
    (part : list event * Py.result session) : Prop :=
  exists self outs,
    run_updates (impl i) (map Candle.close (sent_rows (fst part)))
    = Py.Ok (self, outs)
    /\ map (indicator_value (JStr k)) (sent_payloads (fst part)) = map Some outs
    /\ forall s', snd part = Py.Ok s' ->
         exists pre' i' post',
           indicator_instances s' = pre' ++ i' :: post'
           /\ impl i' = self
           /\ last_with_id k pre' i' post'.

(** The text of two specifications with the id "x", of the periods 1
    and 2. *)
Definition shared_id_text : string :=
  String.concat dq
    ["[{"; "type"; ":"; "sma"; ","; "id"; ":"; "x"; ","; "params"; ":{";
     "period"; ":1}},{"; "type"; ":"; "sma"; ","; "id"; ":"; "x"; ",";
     "params"; ":{"; "period"; ":2}}]"].

(** A runtime that also decodes [shared_id_text], as [json.loads] does. *)
Definition shared_id_runtime : runtime := {|
  json_loads := fun text =>
    if String.eqb text shared_id_text
    then Decoded (JList [JDict [("type", JStr "sma"); ("id", JStr "x");
                                ("params", JDict [("period", JInt 1)])];
                         JDict [("type", JStr "sma"); ("id", JStr "x");
                                ("params", JDict [("period", JInt 2)])]])
    else json_loads example_runtime text;
  float_of_str := float_of_str example_runtime;
  int_of_text := int_of_text example_runtime
|}.

Definition shared_id_params : query_params :=
  query [("symbol", "BTCUSDT"); ("timeframe", "15m");
         ("indicators", shared_id_text)].

(** The session [shared_id_params] starts. *)
Definition shared_id_session : session :=
  {| symbol := "BTCUSDT"; timeframe := "15m"; dataset_id := None;
     batch_size := 500; speed := 1; paused := false;
     last_sent_ts := None; last_timestamp := None;
     indicator_instances :=
       [ {| inst_id := JStr "x"; warmup := 0;
            impl := SimpleMovingAverage_init 1 |};
         {| inst_id := JStr "x"; warmup := 1;
            impl := SimpleMovingAverage_init 2 |} ];
     listening := true |}.

(* ================================================================== *)
(** ** Configurations for the examples *)
(* ================================================================== *)

(** Tunables the environment can set: a minimum delay of 50 ms, and a
    negative base delay with a negative minimum. *)
Definition high_minimum_config : config := {|
  POLL_INTERVAL_SECONDS := 0.5;
  DEFAULT_BATCH_SIZE := 500;
  MAX_BATCH_SIZE := 2000;
  MIN_EMIT_DELAY_MS := 50;
  MAX_EMIT_DELAY_MS := 250;
  BASE_DELAY_MS := 400;
  REFERENCE_DELTA_MS := 900000
|}.

Definition negative_base_config : config := {|
  POLL_INTERVAL_SECONDS := 0.5;
  DEFAULT_BATCH_SIZE := 500;
  MAX_BATCH_SIZE := 2000;
  MIN_EMIT_DELAY_MS := -1000;
  MAX_EMIT_DELAY_MS := 250;
  BASE_DELAY_MS := -400;
  REFERENCE_DELTA_MS := 900000
|}.

(* ================================================================== *)
(** * Properties *)
(* ================================================================== *)

(** ** [clamp_batch_size] *)

Lemma int_of_str_empty (f : string -> option Z) :
  Py.int_of_str f "" = Py.Raise Py.ValueError.
Proof. reflexivity. Qed.

(** [int] of a string raises nothing but [ValueError]. *)
Lemma int_of_str_raises (f : string -> option Z) (s : string) (e : Py.exn) :
  Py.int_of_str f s = Py.Raise e -> e = Py.ValueError.
Proof.
  unfold Py.int_of_str.
  destruct (if forallb Py.is_ascii (list_ascii_of_string s) then _ else _);
    [discriminate|].
  now intros [= <-].
Qed.

(** The literals [int] reads in a text of ASCII characters: those of at
    most 4300 digits. *)
Lemma int_of_str_ascii (f : string -> option Z) (s : string) (z : Z) :
  forallb Py.is_ascii (list_ascii_of_string s) = true ->
  (Py.int_of_str f s = Py.Ok z <->
   Py.read_literal (list_ascii_of_string s) = Some z
   /\ Py.count_digits (list_ascii_of_string s) <= Py.int_max_str_digits).
Proof.
  intros Ha. unfold Py.int_of_str. rewrite Ha.
  destruct (Py.read_literal (list_ascii_of_string s)) as [v|].
  - destruct (Z.ltb_spec Py.int_max_str_digits
                (Py.count_digits (list_ascii_of_string s))) as [Hl|Hl].
    + split; [discriminate|]. intros [_ H]. lia.
    + split; [intros [= ->]; now split | now intros [[= ->] _]].
  - split; [discriminate | now intros [H _]].
Qed.

(** *** The decimal text of an integer *)

Lemma parse_digits_uint (d : Decimal.uint) :
  forall acc,
    Py.parse_digits acc true (list_ascii_of_string (NilEmpty.string_of_uint d))
    = Some (uint_acc d acc).
Proof.
  induction d; intros acc; simpl; try reflexivity; apply IHd.
Qed.

Lemma parse_digits_uint_first (d : Decimal.uint) (acc : Z) :
  d <> Decimal.Nil ->
  Py.parse_digits acc false (list_ascii_of_string (NilEmpty.string_of_uint d))
  = Some (uint_acc d acc).
Proof.
  destruct d; intros H; try contradiction; simpl; apply parse_digits_uint.
Qed.

Lemma uint_acc_pos (d : Decimal.uint) :
  forall acc : positive, uint_acc d (Z.pos acc) = Z.pos (Pos.of_uint_acc d acc).
Proof.
  induction d; intros acc; cbn [uint_acc Pos.of_uint_acc]; try reflexivity;
    rewrite <- IHd; f_equal; lia.
Qed.

Lemma uint_acc_0 (d : Decimal.uint) : uint_acc d 0 = Z.of_uint d.
Proof.
  unfold Z.of_uint.
  induction d; cbn [uint_acc Pos.of_uint Z.of_N]; try reflexivity;
    try exact IHd; apply uint_acc_pos.
Qed.

Lemma uint_digits (d : Decimal.uint) :
  all_digits (list_ascii_of_string (NilEmpty.string_of_uint d)).
Proof.
  unfold all_digits. induction d; simpl; constructor; try exact IHd; discriminate.
Qed.

Lemma digit_range (c : ascii) :
  Py.digit_val c <> None -> (48 <= nat_of_ascii c <= 57)%nat.
Proof.
  unfold Py.digit_val.
  destruct ((48 <=? nat_of_ascii c)%nat && (nat_of_ascii c <=? 57)%nat) eqn:E;
    [|congruence].
  intros _. apply andb_true_iff in E. destruct E as [E1 E2].
  apply Nat.leb_le in E1, E2. lia.
Qed.

Lemma digit_not_space (c : ascii) : Py.digit_val c <> None -> Py.is_space c = false.
Proof.
  intros H. apply digit_range in H. unfold Py.is_space.
  apply orb_false_iff. split.
  - apply andb_false_iff. right. apply Nat.leb_gt. lia.
  - apply Nat.eqb_neq. lia.
Qed.

Lemma digit_is_ascii (c : ascii) : Py.digit_val c <> None -> Py.is_ascii c = true.
Proof.
  intros H. apply digit_range in H. unfold Py.is_ascii. apply Nat.ltb_lt. lia.
Qed.

Lemma lstrip_no_space (cs : list ascii) :
  Forall (fun c => Py.is_space c = false) cs -> Py.lstrip cs = cs.
Proof.
  destruct 1 as [|c cs Hc _]; simpl; [reflexivity|]. now rewrite Hc.
Qed.

Lemma strip_no_space (cs : list ascii) :
  Forall (fun c => Py.is_space c = false) cs -> Py.strip cs = cs.
Proof.
  intros H. unfold Py.strip. rewrite (lstrip_no_space cs H).
  rewrite lstrip_no_space; [apply rev_involutive|].
  apply Forall_rev. exact H.
Qed.

(** The literal of a positive number, and of its opposite, read with no
    limit on the digits. *)
Lemma read_literal_pos (p : positive) :
  Py.read_literal
    (list_ascii_of_string (NilEmpty.string_of_uint (Pos.to_uint p)))
  = Some (Z.pos p)
  /\ Py.read_literal
       (list_ascii_of_string
          (String "-" (NilEmpty.string_of_uint (Pos.to_uint p))))
     = Some (Z.neg p).
Proof.
  pose proof (Unsigned.to_uint_nonnil p) as Hnil.
  pose proof (uint_digits (Pos.to_uint p)) as Hd.
  assert (Forall (fun c => Py.is_space c = false)
            (list_ascii_of_string (NilEmpty.string_of_uint (Pos.to_uint p))))
    as Hs.
  { eapply Forall_impl; [|exact Hd]. intros c. apply digit_not_space. }
  assert (uint_acc (Pos.to_uint p) 0 = Z.pos p) as Hv.
  { rewrite uint_acc_0. unfold Z.of_uint.
    now rewrite DecimalPos.Unsigned.of_to. }
  split.
  - unfold Py.read_literal. rewrite (strip_no_space _ Hs).
    pose proof (parse_digits_uint_first _ 0 Hnil) as Hp.
    destruct (list_ascii_of_string (NilEmpty.string_of_uint (Pos.to_uint p)))
      as [|c rest] eqn:E.
    + simpl in Hp. discriminate.
    + inversion Hd as [|? ? Hc _]; subst.
      assert (Ascii.eqb c "-" = false) as ->.
      { destruct (Ascii.eqb_spec c "-"%char) as [->|]; [|reflexivity].
        exfalso. now apply Hc. }
      assert (Ascii.eqb c "+" = false) as ->.
      { destruct (Ascii.eqb_spec c "+"%char) as [->|]; [|reflexivity].
        exfalso. now apply Hc. }
      now rewrite Hp, Hv.
  - unfold Py.read_literal.
    change (list_ascii_of_string
              (String "-" (NilEmpty.string_of_uint (Pos.to_uint p))))
      with ("-"%char
            :: list_ascii_of_string (NilEmpty.string_of_uint (Pos.to_uint p))).
    rewrite strip_no_space by (constructor; [reflexivity | exact Hs]).
    change (Ascii.eqb "-" "-") with true. cbv iota.
    now rewrite (parse_digits_uint_first _ 0 Hnil), Hv.
Qed.

(** [str(n)] is a literal whose value is [n]. *)
Lemma read_literal_of_int (n : Z) :
  Py.read_literal (list_ascii_of_string (Py.str_of_int n)) = Some n.
Proof.
  unfold Py.str_of_int. destruct n as [|p|p]; [reflexivity| |]; simpl.
  - unfold NilZero.string_of_uint.
    pose proof (Unsigned.to_uint_nonnil p) as Hnil.
    destruct (Pos.to_uint p) eqn:E; try contradiction;
      rewrite <- E; apply read_literal_pos.
  - unfold NilZero.string_of_uint.
    pose proof (Unsigned.to_uint_nonnil p) as Hnil.
    destruct (Pos.to_uint p) eqn:E; try contradiction;
      rewrite <- E; apply read_literal_pos.
Qed.

Lemma str_of_int_nonempty (n : Z) : Py.str_of_int n <> "".
Proof.
  intros H. pose proof (read_literal_of_int n) as Hn. rewrite H in Hn.
  discriminate.
Qed.

Lemma str_of_int_inj (a b : Z) : Py.str_of_int a = Py.str_of_int b -> a = b.
Proof.
  intros H. pose proof (read_literal_of_int a) as Ha.
  rewrite H, read_literal_of_int in Ha. now injection Ha.
Qed.

(** The value of digits is at least the accumulator shifted by their
    number. *)
Lemma uint_acc_lower (d : Decimal.uint) :
  forall acc, 0 <= acc ->
    acc * 10 ^ Z.of_nat (Decimal.nb_digits d) <= uint_acc d acc.
Proof.
  induction d; intros acc Hacc; cbn [uint_acc Decimal.nb_digits];
    [simpl; lia | ..];
    rewrite Nat2Z.inj_succ, Z.pow_succ_r by lia;
    (etransitivity; [|apply IHd; lia]);
    assert (0 < 10 ^ Z.of_nat (Decimal.nb_digits d)) by (apply Z.pow_pos_nonneg; lia);
    nia.
Qed.

Lemma to_uint_normal (p : positive) :
  Decimal.unorm (Pos.to_uint p) = Pos.to_uint p.
Proof.
  pose proof (DecimalPos.Unsigned.to_of (Pos.to_uint p)) as H.
  rewrite DecimalPos.Unsigned.of_to in H. symmetry. exact H.
Qed.

(** A positive number below [10 ^ k] is printed with at most [k]
    digits. *)
Lemma to_uint_digits (p : positive) (k : Z) :
  0 <= k -> Z.pos p < 10 ^ k ->
  Z.of_nat (Decimal.nb_digits (Pos.to_uint p)) <= k.
Proof.
  intros Hk Hp.
  assert (uint_acc (Pos.to_uint p) 0 = Z.pos p) as Hv.
  { rewrite uint_acc_0. unfold Z.of_uint.
    now rewrite DecimalPos.Unsigned.of_to. }
  pose proof (to_uint_normal p) as Hn.
  pose proof (Unsigned.to_uint_nonnil p) as Hnil.
  pose proof (Unsigned.to_uint_nonzero p) as Hzero.
  destruct (Pos.to_uint p) as [|d|d|d|d|d|d|d|d|d|d] eqn:E;
    [contradiction | | ..].
  1: { (* no leading zero *)
    exfalso. unfold Decimal.unorm in Hn. cbn [Decimal.nzhead] in Hn.
    pose proof (DecimalFacts.nb_digits_nzhead d) as Hlen.
    destruct (Decimal.nzhead d) eqn:Ez; try discriminate.
    - injection Hn as <-. now apply Hzero.
    - rewrite Hn in Hlen. cbn [Decimal.nb_digits] in Hlen. lia. }
  all: cbn [uint_acc] in Hv; cbn [Decimal.nb_digits];
    rewrite Nat2Z.inj_succ;
    match type of Hv with
    | uint_acc ?u ?a = _ =>
        pose proof (uint_acc_lower u a ltac:(lia)) as Hl;
        rewrite Hv in Hl;
        destruct (Z.le_gt_cases (Z.succ (Z.of_nat (Decimal.nb_digits u))) k)
          as [|Hgt]; [assumption|];
        exfalso;
        assert (10 ^ k <= 10 ^ Z.of_nat (Decimal.nb_digits u))
          by (apply Z.pow_le_mono_r; lia);
        assert (0 < 10 ^ Z.of_nat (Decimal.nb_digits u))
          by (apply Z.pow_pos_nonneg; lia);
        nia
    end.
Qed.

Lemma digits_length (d : Decimal.uint) :
  List.length (list_ascii_of_string (NilEmpty.string_of_uint d))
  = Decimal.nb_digits d.
Proof. induction d; simpl; congruence. Qed.

Lemma count_all_digits (cs : list ascii) :
  all_digits cs -> Py.count_digits cs = Z.of_nat (List.length cs).
Proof.
  unfold Py.count_digits. intros H. f_equal.
  induction H as [|c cs Hc _ IH]; simpl; [reflexivity|].
  destruct (Py.digit_val c); [simpl; now rewrite IH | contradiction].
Qed.

Lemma int_of_str_pos (f : string -> option Z) (p : positive) :
  Z.pos p < 10 ^ 4300 ->
  Py.int_of_str f (NilEmpty.string_of_uint (Pos.to_uint p)) = Py.Ok (Z.pos p)
  /\ Py.int_of_str f (String "-" (NilEmpty.string_of_uint (Pos.to_uint p)))
     = Py.Ok (Z.neg p).
Proof.
  intros Hp.
  pose proof (uint_digits (Pos.to_uint p)) as Hd.
  pose proof (to_uint_digits p 4300 ltac:(lia) Hp) as Hlen.
  rewrite <- digits_length, <- (count_all_digits _ Hd) in Hlen.
  assert (forallb Py.is_ascii
            (list_ascii_of_string (NilEmpty.string_of_uint (Pos.to_uint p)))
          = true) as Ha.
  { apply forallb_forall. intros c Hc. apply digit_is_ascii.
    unfold all_digits in Hd. rewrite Forall_forall in Hd. now apply Hd. }
  destruct (read_literal_pos p) as [H1 H2].
  split; apply int_of_str_ascii.
  - exact Ha.
  - now split.
  - cbn [list_ascii_of_string forallb]. now rewrite Ha.
  - split; [exact H2|]. cbn [list_ascii_of_string].
    unfold Py.count_digits in *. cbn [filter]. exact Hlen.
Qed.

Lemma int_of_str_of_int (f : string -> option Z) (n : Z) :
  Z.abs n < 10 ^ 4300 -> Py.int_of_str f (Py.str_of_int n) = Py.Ok n.
Proof.
  intros Hn.
  unfold Py.str_of_int. destruct n as [|p|p]; [reflexivity| |]; simpl.
  - unfold NilZero.string_of_uint.
    pose proof (Unsigned.to_uint_nonnil p) as Hnil.
    destruct (Pos.to_uint p) eqn:E; try contradiction;
      rewrite <- E; now apply int_of_str_pos.
  - unfold NilZero.string_of_uint.
    pose proof (Unsigned.to_uint_nonnil p) as Hnil.
    destruct (Pos.to_uint p) eqn:E; try contradiction;
      rewrite <- E; now apply int_of_str_pos.
Qed.

(** *** The clamp *)

Lemma clamp_batch_size_int (cfg : config) (rt : runtime) (s : string) (z : Z) :
  Py.int_of_str (int_of_text rt) s = Py.Ok z ->
  clamp_batch_size cfg rt (Some s) = Z.max 1 (Z.min z (MAX_BATCH_SIZE cfg)).
Proof.
  intros Hz. unfold clamp_batch_size, Py.truthy_str.
  destruct (String.eqb_spec s "") as [-> | _]; simpl.
  - rewrite int_of_str_empty in Hz. discriminate.
  - now rewrite Hz.
Qed.

Lemma clamp_batch_size_default (cfg : config) (rt : runtime)
    (raw : option string) :
  match raw with
  | Some s => Py.int_of_str (int_of_text rt) s = Py.Raise Py.ValueError
  | None => True
  end ->
  clamp_batch_size cfg rt raw
  = Z.max 1 (Z.min (DEFAULT_BATCH_SIZE cfg) (MAX_BATCH_SIZE cfg)).
Proof.
  destruct raw as [s|]; [|reflexivity].
  intros H. unfold clamp_batch_size. rewrite H.
  now destruct (Py.truthy_str (Some s)).
Qed.

(** C2, as the code has it.  The configuration is taken with
    [1 <= DEFAULT_BATCH_SIZE <= MAX_BATCH_SIZE].  An absent or empty
    value resolves to the default, and so does every text that [int]
    refuses: [int] answers with an integer or with [ValueError], and it
    refuses a text that is no integer literal (["abc"], the negative
    number ["-2.5"], a digit behind the control character 28) and a
    literal of more than 4300 digits, whatever its value (4301 nines
    are far above the maximum).  A text that [int] reads as the integer
    [z] resolves to [max(1, min(z, MAX_BATCH_SIZE))]: ["0"] and every
    negative integer resolve to 1, the lower bound of the clamp, an
    integer above the maximum to the maximum, and an integer in between
    is kept; the decimal text [str(n)] of an integer [n] of at most 4300
    digits is read as [n]. *)
Theorem clamp_batch_size_cases (cfg : config) (rt : runtime)
    (Hcfg : 1 <= DEFAULT_BATCH_SIZE cfg <= MAX_BATCH_SIZE cfg) :
  clamp_batch_size cfg rt None = DEFAULT_BATCH_SIZE cfg
  /\ clamp_batch_size cfg rt (Some "") = DEFAULT_BATCH_SIZE cfg
  /\ (forall s,
        (exists z, Py.int_of_str (int_of_text rt) s = Py.Ok z)
        \/ Py.int_of_str (int_of_text rt) s = Py.Raise Py.ValueError)
  /\ (forall s, Py.int_of_str (int_of_text rt) s = Py.Raise Py.ValueError ->
        clamp_batch_size cfg rt (Some s) = DEFAULT_BATCH_SIZE cfg)
  /\ (forall s,
        forallb Py.is_ascii (list_ascii_of_string s) = true ->
        Py.read_literal (list_ascii_of_string s) = None
        \/ Py.int_max_str_digits < Py.count_digits (list_ascii_of_string s) ->
        clamp_batch_size cfg rt (Some s) = DEFAULT_BATCH_SIZE cfg)
  /\ clamp_batch_size cfg rt (Some "abc") = DEFAULT_BATCH_SIZE cfg
  /\ clamp_batch_size cfg rt (Some "-2.5") = DEFAULT_BATCH_SIZE cfg
  /\ clamp_batch_size cfg rt (Some (String (ascii_of_nat 28) "5"))
     = DEFAULT_BATCH_SIZE cfg
  /\ clamp_batch_size cfg rt (Some (nines 4301)) = DEFAULT_BATCH_SIZE cfg
  /\ (forall s z, Py.int_of_str (int_of_text rt) s = Py.Ok z ->
        clamp_batch_size cfg rt (Some s)
        = Z.max 1 (Z.min z (MAX_BATCH_SIZE cfg)))
  /\ clamp_batch_size cfg rt (Some "0") = 1
  /\ (forall s z, Py.int_of_str (int_of_text rt) s = Py.Ok z -> z <= 0 ->
        clamp_batch_size cfg rt (Some s) = 1)
  /\ (forall s z, Py.int_of_str (int_of_text rt) s = Py.Ok z ->
        MAX_BATCH_SIZE cfg < z ->
        clamp_batch_size cfg rt (Some s) = MAX_BATCH_SIZE cfg)
  /\ (forall s z, Py.int_of_str (int_of_text rt) s = Py.Ok z ->
        1 <= z <= MAX_BATCH_SIZE cfg ->
        clamp_batch_size cfg rt (Some s) = z)
  /\ (forall n, Z.abs n < 10 ^ 4300 ->
        Py.int_of_str (int_of_text rt) (Py.str_of_int n) = Py.Ok n
        /\ clamp_batch_size cfg rt (Some (Py.str_of_int n))
           = Z.max 1 (Z.min n (MAX_BATCH_SIZE cfg))).
Proof.
  assert (forall s, Py.int_of_str (int_of_text rt) s = Py.Raise Py.ValueError ->
            clamp_batch_size cfg rt (Some s) = DEFAULT_BATCH_SIZE cfg) as Hbad.
  { intros s Hs. rewrite (clamp_batch_size_default cfg rt (Some s) Hs). lia. }
  assert (forall s,
            forallb Py.is_ascii (list_ascii_of_string s) = true ->
            Py.read_literal (list_ascii_of_string s) = None
            \/ Py.int_max_str_digits < Py.count_digits (list_ascii_of_string s) ->
            Py.int_of_str (int_of_text rt) s = Py.Raise Py.ValueError) as Hrefused.
  { intros s Ha Hs.
    destruct (Py.int_of_str (int_of_text rt) s) as [z|e] eqn:E.
    - apply (int_of_str_ascii _ s z Ha) in E. destruct E as [Hz Hn].
      destruct Hs as [Hs|Hs]; [congruence | lia].
    - now rewrite (int_of_str_raises _ s e E). }
  repeat split.
  - rewrite (clamp_batch_size_default cfg rt None I). lia.
  - rewrite (clamp_batch_size_default cfg rt (Some "") (int_of_str_empty _)). lia.
  - intros s. destruct (Py.int_of_str (int_of_text rt) s) as [z|e] eqn:E.
    + left. now exists z.
    + right. now rewrite (int_of_str_raises _ s e E).
  - exact Hbad.
  - intros s Ha Hs. apply Hbad. now apply Hrefused.
  - apply Hbad. reflexivity.
  - apply Hbad. reflexivity.
  - apply Hbad. reflexivity.
  - apply Hbad. apply Hrefused; [now vm_compute|]. right. now vm_compute.
  - intros s z Hs. exact (clamp_batch_size_int cfg rt s z Hs).
  - rewrite (clamp_batch_size_int cfg rt "0" 0 eq_refl). lia.
  - intros s z Hs Hz. rewrite (clamp_batch_size_int cfg rt s z Hs). lia.
  - intros s z Hs Hz. rewrite (clamp_batch_size_int cfg rt s z Hs). lia.
  - intros s z Hs Hz. rewrite (clamp_batch_size_int cfg rt s z Hs). lia.
  - now apply int_of_str_of_int.
  - apply clamp_batch_size_int. now apply int_of_str_of_int.
Qed.

Lemma default_batch_bounds :
  1 <= DEFAULT_BATCH_SIZE default_config <= MAX_BATCH_SIZE default_config.
Proof. simpl. lia. Qed.

Lemma clamp_batch_size_cases_witness :
  clamp_batch_size default_config example_runtime (Some "-5") = 1
  /\ clamp_batch_size default_config example_runtime (Some "9999")
     = MAX_BATCH_SIZE default_config
  /\ clamp_batch_size default_config example_runtime (Some "abc")
     = DEFAULT_BATCH_SIZE default_config
  /\ clamp_batch_size default_config example_runtime (Some "-2.5")
     = DEFAULT_BATCH_SIZE default_config
  /\ clamp_batch_size default_config example_runtime (Some (nines 4301))
     = DEFAULT_BATCH_SIZE default_config.
Proof.
  destruct (clamp_batch_size_cases default_config example_runtime
              default_batch_bounds)
    as (_ & _ & _ & _ & _ & Habc & Hfrac & _ & Hlong & _ & _ & Hlow & Hhigh & _).
  split; [|split; [|split; [|split]]].
  - apply (Hlow "-5" (-5)); [reflexivity | lia].
  - apply (Hhigh "9999" 9999); [reflexivity | simpl; lia].
  - exact Habc.
  - exact Hfrac.
  - exact Hlong.
Defined.

(** C2 as stated fails: with the default configuration the requested
    sizes ["0"] and ["-5"] resolve to 1, not to the default 500. *)
Lemma clamp_batch_size_zero_not_default :
  clamp_batch_size default_config example_runtime (Some "0") = 1
  /\ clamp_batch_size default_config example_runtime (Some "-5") = 1
  /\ clamp_batch_size default_config example_runtime (Some "0")
     <> DEFAULT_BATCH_SIZE default_config
  /\ clamp_batch_size default_config example_runtime (Some "-5")
     <> DEFAULT_BATCH_SIZE default_config.
Proof. repeat split; vm_compute; congruence. Qed.

(** ** Reading the indicator specifications *)

Lemma eq_str_true (v : json) (s : string) :
  Json.eq_str v s = true <-> v = JStr s.
Proof.
  destruct v; simpl; try (split; [discriminate | discriminate]).
  rewrite String.eqb_eq. split; [now intros -> | now intros [= ->]].
Qed.

Lemma read_specs_appended (rt : runtime) (specs : list json) :
  forall acc insts,
    read_specs rt specs acc = Py.Ok insts -> insts = acc ++ appended rt specs.
Proof.
  induction specs as [|spec rest IH]; simpl; intros acc insts H.
  - injection H as <-. now rewrite app_nil_r.
  - unfold appended in *. simpl.
    destruct (read_spec rt spec) as [|i|e]; simpl.
    + now apply IH.
    + rewrite (IH _ _ H). now rewrite <- app_assoc.
    + discriminate.
Qed.

Lemma read_spec_append_inv (rt : runtime) (spec : json) (i : instance) :
  read_spec rt spec = SpecAppend i ->
  exists kvs pkvs z,
    spec = JDict kvs
    /\ Json.get "type" kvs = JStr "sma"
    /\ (if Json.truthy (Json.get "params" kvs)
        then Json.get "params" kvs else JDict []) = JDict pkvs
    /\ Json.to_int (int_of_text rt) (Json.get_default "period" (JInt 20) pkvs) = Py.Ok z
    /\ i = {| inst_id :=
                if Json.truthy (Json.get "id" kvs) then Json.get "id" kvs
                else JStr ("sma-" ++ Py.str_of_int (Z.max 1 z))%string;
              warmup := Z.max 0 (Z.max 1 z - 1);
              impl := SimpleMovingAverage_init (Z.max 1 z) |}.
Proof.
  destruct spec as [| | | | | |kvs]; simpl; try discriminate.
  destruct (Json.eq_str (Json.get "type" kvs) "sma") eqn:Ht; simpl;
    [|discriminate].
  apply eq_str_true in Ht.
  destruct (if Json.truthy (Json.get "params" kvs)
            then Json.get "params" kvs else JDict [])
    as [| | | | | |pkvs] eqn:Hp; try discriminate.
  destruct (Json.to_int (int_of_text rt) (Json.get_default "period" (JInt 20) pkvs))
    as [z|[]] eqn:Hz; try discriminate.
  intros [= <-]. exists kvs, pkvs, z. repeat split; assumption.
Qed.

(** An instance that was read has a period of at least one. *)
Lemma read_spec_period (rt : runtime) (spec : json) (i : instance) :
  read_spec rt spec = SpecAppend i -> 1 <= period (impl i).
Proof.
  intros H. apply read_spec_append_inv in H.
  destruct H as (kvs & pkvs & z & _ & _ & _ & _ & ->). simpl. lia.
Qed.

(** C1, as the code has it: the field that is read is [type].  An entry
    is appended rt to [indicator_instances] exactly when it is a dict whose
    [type] is the string "sma", whose [params] is falsy or a dict, and
    whose period ([params.period], 20 when missing) converts with [int];
    the instance then has the period [max(1, int(period))].  Every other
    dict whose [type] is not "sma", and every entry that is not a dict, is
    skipped without an exception, and the instances registered are those
    of the appended rt entries, in order. *)
Theorem read_spec_appends_iff (rt : runtime) (spec : json) :
  (forall i,
     read_spec rt spec = SpecAppend i <->
     exists kvs pkvs z,
       spec = JDict kvs
       /\ Json.get "type" kvs = JStr "sma"
       /\ (if Json.truthy (Json.get "params" kvs)
           then Json.get "params" kvs else JDict []) = JDict pkvs
       /\ Json.to_int (int_of_text rt) (Json.get_default "period" (JInt 20) pkvs) = Py.Ok z
       /\ i = {| inst_id :=
                   if Json.truthy (Json.get "id" kvs) then Json.get "id" kvs
                   else JStr ("sma-" ++ Py.str_of_int (Z.max 1 z))%string;
                 warmup := Z.max 0 (Z.max 1 z - 1);
                 impl := SimpleMovingAverage_init (Z.max 1 z) |})
  /\ (forall kvs, spec = JDict kvs -> Json.get "type" kvs <> JStr "sma" ->
        read_spec rt spec = SpecSkip)
  /\ (Json.is_dict spec = false -> read_spec rt spec = SpecSkip)
  /\ (forall specs insts,
        read_specs rt specs [] = Py.Ok insts -> insts = appended rt specs).
Proof.
  split; [|split; [|split]].
  - intros i. split.
    + apply read_spec_append_inv.
    + intros (kvs & pkvs & z & -> & Ht & Hp & Hz & ->). simpl.
      apply eq_str_true in Ht. rewrite Ht. simpl.
      rewrite Hp, Hz. reflexivity.
  - intros kvs -> Ht. simpl.
    destruct (Json.eq_str (Json.get "type" kvs) "sma") eqn:E; [|reflexivity].
    apply eq_str_true in E. contradiction.
  - destruct spec; simpl; try reflexivity. discriminate.
  - intros specs insts H. now apply read_specs_appended in H.
Qed.

(** C1 as stated fails: an entry whose [kind] is "sma" (and whose period
    is 3) is skipped, and an entry whose [kind] is "ema" is registered
    when its [type] is "sma". *)
Lemma kind_field_is_not_read :
  read_specs example_runtime
    [JDict [("kind", JStr "sma"); ("params", JDict [("period", JInt 3)])]] []
  = Py.Ok []
  /\ read_specs example_runtime
       [JDict [("kind", JStr "ema"); ("type", JStr "sma");
               ("params", JDict [("period", JInt 3)])]] []
     = Py.Ok [ {| inst_id := JStr "sma-3"; warmup := 2;
                  impl := SimpleMovingAverage_init 3 |} ].
Proof. split; reflexivity. Qed.

(** ** Session setup and the [indicators] parameter *)

Lemma truthy_str_some (s : string) :
  s <> "" -> Py.truthy_str (Some s) = true.
Proof.
  intros H. simpl. destruct (String.eqb_spec s ""); [contradiction | reflexivity].
Qed.

Lemma setup_rejects_undecodable (cfg : config) (rt : runtime)
    (params : query_params) (raw : string) :
  params "indicators" = Some raw -> raw <> "" ->
  json_loads rt raw = JSONDecodeError ->
  exists e, setup cfg rt params = ([Accept; SendJson (MsgError e); Close], Rejected).
Proof.
  intros Hraw Hne Hloads. unfold setup.
  destruct (params "symbol") as [sym|]; [|eauto].
  destruct (params "timeframe") as [tf|]; [|eauto].
  destruct (Py.truthy_str (Some sym) && Py.truthy_str (Some tf)); [|eauto].
  destruct (Py.or_str (params "after") (params "from")) as [a|].
  - destruct (Py.int_of_str (int_of_text rt) a); [|eauto].
    unfold read_indicators. rewrite Hraw, (truthy_str_some raw Hne), Hloads. eauto.
  - unfold read_indicators. rewrite Hraw, (truthy_str_some raw Hne), Hloads. eauto.
Qed.

(** The setup of a query with a symbol, a timeframe and a cursor that
    [int] reads (or none) is decided by the [indicators] block. *)
Lemma setup_of_indicators (cfg : config) (rt : runtime)
    (params : query_params) (sym tf : string) :
  params "symbol" = Some sym -> sym <> "" ->
  params "timeframe" = Some tf -> tf <> "" ->
  match Py.or_str (params "after") (params "from") with
  | Some a => Py.is_ok (Py.int_of_str (int_of_text rt) a) = true
  | None => True
  end ->
  match read_indicators rt (params "indicators") with
  | None => True
  | Some (Py.Raise e) => setup cfg rt params = ([Accept], Crashed e)
  | Some (Py.Ok insts) =>
      exists s, setup cfg rt params = ([Accept], Started s)
                /\ indicator_instances s = insts
  end.
Proof.
  intros Hsym Hsne Htf Htne Hafter. unfold setup.
  rewrite Hsym, Htf, (truthy_str_some sym Hsne), (truthy_str_some tf Htne).
  simpl andb. cbv iota.
  destruct (read_indicators rt (params "indicators")) as [[insts|e]|];
    [| |exact I].
  - destruct (Py.or_str (params "after") (params "from")) as [a|].
    + destruct (Py.int_of_str (int_of_text rt) a) as [z|]; [|discriminate].
      eexists. split; reflexivity.
    + eexists. split; reflexivity.
  - destruct (Py.or_str (params "after") (params "from")) as [a|];
      [|reflexivity].
    destruct (Py.int_of_str (int_of_text rt) a) as [z|];
      [reflexivity | discriminate].
Qed.

(** C3, as the code has it: when [indicators] is present and not empty,
    the outcome follows that of [json.loads].  When it raises
    [JSONDecodeError] (the text is not JSON), the setup sends exactly
    one ERROR message, closes the channel and starts no loop, whatever
    the inputs.  When it returns a value that is not a list, the value
    is ignored: with a symbol, a timeframe and a valid [after], the
    session starts with no indicator and no ERROR message is sent.  When
    it raises another exception ([ValueError] for an integer of more
    than 4300 digits, [RecursionError] for a text nested too deep), the
    [except] clause does not catch it: with a symbol, a timeframe and a
    valid [after], the handler has accepted the connection and sends
    nothing, neither an ERROR message nor a close. *)
Theorem setup_indicators_decoding (cfg : config) (rt : runtime)
    (params : query_params) (raw : string)
    (Hraw : params "indicators" = Some raw) (Hne : raw <> "") :
  (json_loads rt raw = JSONDecodeError ->
     exists e,
       setup cfg rt params = ([Accept; SendJson (MsgError e); Close], Rejected)
       /\ forall inputs,
            _handle_candle_stream cfg rt params inputs
            = [Accept; SendJson (MsgError e); Close])
  /\ (forall v sym tf,
        json_loads rt raw = Decoded v -> Json.is_list v = false ->
        params "symbol" = Some sym -> sym <> "" ->
        params "timeframe" = Some tf -> tf <> "" ->
        match Py.or_str (params "after") (params "from") with
        | Some a => Py.is_ok (Py.int_of_str (int_of_text rt) a) = true
        | None => True
        end ->
        exists s,
          setup cfg rt params = ([Accept], Started s)
          /\ indicator_instances s = []
          /\ forall inputs,
               _handle_candle_stream cfg rt params inputs
               = Accept :: fst (run cfg rt s inputs))
  /\ (forall e sym tf,
        json_loads rt raw = LoadsRaise e ->
        params "symbol" = Some sym -> sym <> "" ->
        params "timeframe" = Some tf -> tf <> "" ->
        match Py.or_str (params "after") (params "from") with
        | Some a => Py.is_ok (Py.int_of_str (int_of_text rt) a) = true
        | None => True
        end ->
        setup cfg rt params = ([Accept], Crashed e)
        /\ forall inputs, _handle_candle_stream cfg rt params inputs = [Accept]).
Proof.
  split; [|split].
  - intros Hloads.
    destruct (setup_rejects_undecodable cfg rt params raw Hraw Hne Hloads)
      as [e He].
    exists e. split; [exact He|].
    intros inputs. unfold _handle_candle_stream. now rewrite He.
  - intros v sym tf Hloads Hlist Hsym Hsne Htf Htne Hafter.
    assert (Hind : read_indicators rt (params "indicators") = Some (Py.Ok [])).
    { unfold read_indicators.
      rewrite Hraw, (truthy_str_some raw Hne), Hloads.
      destruct v; try reflexivity. discriminate. }
    pose proof (setup_of_indicators cfg rt params sym tf Hsym Hsne Htf Htne
                  Hafter) as H.
    rewrite Hind in H. destruct H as (s & Hs & Hi).
    exists s. split; [exact Hs|]. split; [exact Hi|].
    intros inputs. unfold _handle_candle_stream. now rewrite Hs.
  - intros e sym tf Hloads Hsym Hsne Htf Htne Hafter.
    assert (Hind : read_indicators rt (params "indicators")
                   = Some (Py.Raise e)).
    { unfold read_indicators.
      now rewrite Hraw, (truthy_str_some raw Hne), Hloads. }
    pose proof (setup_of_indicators cfg rt params sym tf Hsym Hsne Htf Htne
                  Hafter) as H.
    rewrite Hind in H. split; [exact H|].
    intros inputs. unfold _handle_candle_stream. now rewrite H.
Qed.

Lemma nines_not_empty : nines 4301 <> "".
Proof. discriminate. Qed.

Lemma setup_indicators_decoding_witness :
  (exists e,
     setup default_config example_runtime
       (query [("symbol", "BTCUSDT"); ("timeframe", "15m"); ("indicators", "[{")])
     = ([Accept; SendJson (MsgError e); Close], Rejected))
  /\ (exists s,
        setup default_config example_runtime
          (query [("symbol", "BTCUSDT"); ("timeframe", "15m"); ("indicators", "5")])
        = ([Accept], Started s)
        /\ indicator_instances s = [])
  /\ setup default_config example_runtime
       (query [("symbol", "BTCUSDT"); ("timeframe", "15m");
               ("indicators", nines 4301)])
     = ([Accept], Crashed Py.ValueError).
Proof.
  split; [|split].
  - destruct (setup_indicators_decoding default_config example_runtime
                (query [("symbol", "BTCUSDT"); ("timeframe", "15m");
                        ("indicators", "[{")]) "[{" eq_refl
                ltac:(discriminate)) as [H _].
    destruct (H eq_refl) as (e & He & _). now exists e.
  - destruct (setup_indicators_decoding default_config example_runtime
                (query [("symbol", "BTCUSDT"); ("timeframe", "15m");
                        ("indicators", "5")]) "5" eq_refl
                ltac:(discriminate)) as (_ & H & _).
    destruct (H (JInt 5) "BTCUSDT" "15m" eq_refl eq_refl eq_refl
                ltac:(discriminate) eq_refl ltac:(discriminate) I)
      as (s & Hs & Hi & _).
    exists s. now split.
  - destruct (setup_indicators_decoding default_config example_runtime
                (query [("symbol", "BTCUSDT"); ("timeframe", "15m");
                        ("indicators", nines 4301)]) (nines 4301) eq_refl
                nines_not_empty) as (_ & _ & H).
    destruct (H Py.ValueError "BTCUSDT" "15m" ltac:(now vm_compute) eq_refl
                ltac:(discriminate) eq_refl ltac:(discriminate) I)
      as (Hs & _).
    exact Hs.
Defined.

(** C3 as stated fails for valid JSON that is not a list: with
    [indicators={}] the setup sends no ERROR message and starts the
    session, with no indicator. *)
Lemma non_list_indicators_start_the_session :
  setup default_config example_runtime
    (query [("symbol", "BTCUSDT"); ("timeframe", "15m"); ("indicators", "{}")])
  = ([Accept],
     Started {| symbol := "BTCUSDT"; timeframe := "15m"; dataset_id := None;
                batch_size := 500; speed := 1; paused := false;
                last_sent_ts := None; last_timestamp := None;
                indicator_instances := []; listening := true |}).
Proof. reflexivity. Qed.

(** ** [SimpleMovingAverage.update] *)

(** [update] in one piece, for an instance with a period of at least one:
    it never raises. *)
Lemma update_eq (self : SimpleMovingAverage) (value : float) :
  1 <= period self ->
  let window1 := window self ++ [value] in
  let sum1 := (sum self + value)%float in
  let evict := period self <? Z.of_nat (List.length window1) in
  let window2 := if evict then tl window1 else window1 in
  let sum2 := if evict then (sum1 - hd 0%float window1)%float else sum1 in
  update self value
  = Py.Ok ({| period := period self; window := window2; sum := sum2 |},
           if Z.of_nat (List.length window2) <? period self then None
           else Some (sum2 / Py.float_of_len (List.length window2))%float).
Proof.
  intros Hp. cbv zeta. unfold update.
  destruct (window self ++ [value]) as [|dropped rest] eqn:Hw.
  - now destruct (window self).
  - destruct (period self <? Z.of_nat (List.length (dropped :: rest))) eqn:He;
      cbn [tl hd].
    + destruct (Z.of_nat (List.length rest) <? period self) eqn:Hl;
        [reflexivity|].
      destruct rest as [|x rest']; [cbn in Hl; lia|reflexivity].
    + destruct (Z.of_nat (List.length (dropped :: rest)) <? period self) eqn:Hl;
        reflexivity.
Qed.

Lemma update_total (self : SimpleMovingAverage) (value : float) :
  1 <= period self ->
  exists self' out,
    update self value = Py.Ok (self', out) /\ period self' = period self.
Proof.
  intros Hp. rewrite (update_eq self value Hp). cbv zeta.
  eexists. eexists. split; reflexivity.
Qed.

Lemma init_period (p : Z) : 1 <= period (SimpleMovingAverage_init p).
Proof. simpl. lia. Qed.

(** ** Instances that share an id *)

Lemma key_eqb_str (x : json) (k : string) :
  Json.key_eqb x (JStr k) = match x with JStr s => String.eqb s k | _ => false end.
Proof.
  destruct x as [|c|z|f|s|xs|kvs]; simpl; try reflexivity;
    try (destruct c; reflexivity);
    try (destruct (Json.float_as_int f); reflexivity).
Qed.

Lemma dict_getitem_store (d : indicator_dict) (k k' : string) (v : option float) :
  dict_getitem (dict_store (JStr k) v d) (JStr k')
  = if String.eqb k k' then Some v else dict_getitem d (JStr k').
Proof.
  induction d as [|[x vx] rest IH]; cbn [dict_store dict_getitem].
  - rewrite (key_eqb_str (JStr k) k'). now destruct (String.eqb k k').
  - rewrite (key_eqb_str x k).
    assert (Hx : Json.key_eqb x (JStr k')
                 = match x with JStr s => String.eqb s k' | _ => false end)
      by apply key_eqb_str.
    destruct x as [|c|z|f|s|xs|kvs]; cbn [dict_getitem]; rewrite ?Hx;
      try exact IH.
    destruct (String.eqb_spec s k) as [->|Hsk]; cbn [dict_getitem]; rewrite Hx.
    + now destruct (String.eqb k k').
    + destruct (String.eqb_spec s k') as [->|Hsk'].
      * destruct (String.eqb_spec k k') as [->|_]; [contradiction|reflexivity].
      * exact IH.
Qed.

(** The loop over the instances never raises when every id is a string
    and every period is at least one; it keeps the ids, in order, and
    updates every instance with the close. *)
Lemma update_instances_total (insts : list instance) (close : float) :
  Forall (fun j => (exists s, inst_id j = JStr s) /\ 1 <= period (impl j)) insts ->
  forall d,
  exists insts' d',
    update_instances insts close d = Py.Ok (insts', d')
    /\ map inst_id insts' = map inst_id insts
    /\ Forall2 (fun j j' => exists out,
                  update (impl j) close = Py.Ok (impl j', out)
                  /\ dict_getitem d' (inst_id j) <> None)
         insts insts'
    /\ (forall k, Forall (fun j => inst_id j <> JStr k) insts ->
          dict_getitem d' (JStr k) = dict_getitem d (JStr k))
    /\ (forall k, dict_getitem d (JStr k) <> None ->
          dict_getitem d' (JStr k) <> None).
Proof.
  induction 1 as [|j rest [[s Hs] Hp] _ IH]; intros d.
  - exists [], d. simpl. repeat split; auto.
  - destruct (update_total (impl j) close Hp) as (impl1 & out & Hu & _).
    destruct (IH (dict_store (inst_id j) out d))
      as (rest' & d' & Hrest & Hids & Hall & Hkeep & Hmono).
    exists ({| inst_id := inst_id j; warmup := warmup j; impl := impl1 |} :: rest'), d'.
    simpl. rewrite Hu. simpl. unfold dict_setitem.
    replace (Json.hashable (inst_id j)) with true by now rewrite Hs.
    simpl. rewrite Hrest. simpl.
    rewrite Hs in Hkeep, Hmono.
    split; [reflexivity|]. split; [now rewrite Hids|]. split; [|split].
    + constructor; [|exact Hall].
      exists out. simpl. split; [exact Hu|].
      rewrite Hs. apply Hmono. rewrite dict_getitem_store, String.eqb_refl.
      discriminate.
    + intros k Hk. inversion Hk as [|? ? Hjk Hrk]; subst.
      rewrite (Hkeep k Hrk), dict_getitem_store.
      destruct (String.eqb_spec s k) as [->|_]; [|reflexivity].
      rewrite Hs in Hjk. contradiction.
    + intros k Hk. apply Hmono. rewrite dict_getitem_store.
      destruct (String.eqb s k); [discriminate | exact Hk].
Qed.

Lemma update_instances_app (pre post : list instance) (close : float) :
  forall d pre' d1 post' d2,
    update_instances pre close d = Py.Ok (pre', d1) ->
    update_instances post close d1 = Py.Ok (post', d2) ->
    update_instances (pre ++ post) close d = Py.Ok (pre' ++ post', d2).
Proof.
  induction pre as [|j pre IH]; simpl; intros d pre' d1 post' d2 Hpre Hpost.
  - injection Hpre as <- <-. exact Hpost.
  - destruct (update (impl j) close) as [[impl1 out]|]; simpl in *; [|discriminate].
    destruct (dict_setitem d (inst_id j) out) as [d0|]; simpl in *; [|discriminate].
    destruct (update_instances pre close d0) as [[pre1 d1']|] eqn:Hp; simpl in *;
      [|discriminate].
    injection Hpre as <- <-.
    now rewrite (IH _ _ _ _ _ Hp Hpost).
Qed.

(** C4 as stated fails: two specifications with the id "x" and the
    periods 2 and 3 leave two instances in [indicator_instances], the
    earlier one included. *)
Lemma both_instances_of_an_id_are_registered :
  read_specs example_runtime
    [JDict [("type", JStr "sma"); ("id", JStr "x");
            ("params", JDict [("period", JInt 2)])];
     JDict [("type", JStr "sma"); ("id", JStr "x");
            ("params", JDict [("period", JInt 3)])]] []
  = Py.Ok [ {| inst_id := JStr "x"; warmup := 1;
               impl := SimpleMovingAverage_init 2 |};
            {| inst_id := JStr "x"; warmup := 2;
               impl := SimpleMovingAverage_init 3 |} ].
Proof. reflexivity. Qed.

(** ** The order of floats *)

Lemma SFcompare_key (f g : spec_float) :
  match SFcompare f g with
  | None => sf_key f = None \/ sf_key g = None
  | Some c =>
      exists a b, sf_key f = Some a /\ sf_key g = Some b /\
        match c with
        | Lt => key_lt a b
        | Eq => key_eq a b
        | Gt => key_lt b a
        end
  end.
Proof.
  destruct f as [sf|sf| |sf mf ef], g as [sg|sg| |sg mg eg]; simpl; auto;
    try (destruct sf); try (destruct sg); simpl;
    try (eexists; eexists; split; [reflexivity|split; [reflexivity|]]; simpl; lia).
  - eexists; eexists; split; [reflexivity|split; [reflexivity|]].
    change (PosDef.Pos.compare_cont Eq mf mg) with (Pos.compare mf mg).
    destruct (Z.compare_spec ef eg); simpl; try lia.
    destruct (Pos.compare_spec mf mg); simpl; subst; lia.
  - eexists; eexists; split; [reflexivity|split; [reflexivity|]].
    change (PosDef.Pos.compare_cont Eq mf mg) with (Pos.compare mf mg).
    destruct (Z.compare_spec ef eg); simpl; try lia.
    destruct (Pos.compare_spec mf mg); simpl; subst; lia.
Qed.

Ltac compare_keys x y :=
  unfold SFltb, SFleb, SFeqb, fle, flt, feq, fkey;
  let H := fresh "H" in
  pose proof (SFcompare_key (Prim2SF x) (Prim2SF y)) as H;
  destruct (SFcompare (Prim2SF x) (Prim2SF y)) as [[]|];
  [ destruct H as ([[? ?] ?] & [[? ?] ?] & -> & -> & H)
  | destruct H as ([[? ?] ?] & [[? ?] ?] & -> & -> & H)
  | destruct H as ([[? ?] ?] & [[? ?] ?] & -> & -> & H)
  | destruct H as [-> | ->]; [|destruct (sf_key _) as [[[? ?] ?]|]] ];
  simpl in *; split; try discriminate; try tauto; try lia.

Lemma ltb_flt (x y : float) : (x <? y)%float = true <-> flt x y.
Proof. rewrite FloatAxioms.ltb_spec. compare_keys x y. Qed.

Lemma leb_fle (x y : float) : (x <=? y)%float = true <-> fle x y.
Proof. rewrite FloatAxioms.leb_spec. compare_keys x y. Qed.

Lemma eqb_feq (x y : float) : (x =? y)%float = true <-> feq x y.
Proof. rewrite FloatAxioms.eqb_spec. compare_keys x y. Qed.

Lemma ltb_false (x y : float) : (x <? y)%float = false <-> ~ flt x y.
Proof.
  rewrite <- ltb_flt. destruct (x <? y)%float; split; congruence.
Qed.

Lemma leb_false (x y : float) : (x <=? y)%float = false <-> ~ fle x y.
Proof.
  rewrite <- leb_fle. destruct (x <=? y)%float; split; congruence.
Qed.

Lemma eqb_false (x y : float) : (x =? y)%float = false <-> ~ feq x y.
Proof.
  rewrite <- eqb_feq. destruct (x =? y)%float; split; congruence.
Qed.

(** Comparisons become propositions on keys; the keys of the constants
    are computed, the others are taken apart, and [lia] decides. *)
Ltac float_literal c :=
  tryif is_var c then fail
  else lazymatch c with
       | ?f ?a => fail
       | _ => idtac
       end.

Ltac float_keys :=
  repeat match goal with
         | H : context [fkey ?c] |- _ =>
             float_literal c;
             let k := eval vm_compute in (fkey c) in
             change (fkey c) with k in H
         | |- context [fkey ?c] =>
             float_literal c;
             let k := eval vm_compute in (fkey c) in
             change (fkey c) with k
         end.

Ltac float_order :=
  rewrite ?ltb_flt, ?leb_fle, ?eqb_feq, ?ltb_false, ?leb_false, ?eqb_false in *;
  unfold fle, flt, feq in *; float_keys;
  repeat match goal with
         | H : context [fkey ?x] |- _ => destruct (fkey x) as [[[? ?] ?]|]
         | |- context [fkey ?x] => destruct (fkey x) as [[[? ?] ?]|]
         end;
  simpl in *; try tauto; try lia.

Lemma ltb_leb (x y : float) : (x <? y)%float = true -> (x <=? y)%float = true.
Proof. intros H. float_order. Qed.

Lemma leb_refl_l (x y : float) : (x <=? y)%float = true -> (x <=? x)%float = true.
Proof. intros H. float_order. Qed.

Lemma leb_refl_r (x y : float) : (x <=? y)%float = true -> (y <=? y)%float = true.
Proof. intros H. float_order. Qed.

Lemma leb_trans (x y z : float) :
  (x <=? y)%float = true -> (y <=? z)%float = true -> (x <=? z)%float = true.
Proof. intros H1 H2. float_order. Qed.

Lemma leb_ltb_trans (x y z : float) :
  (x <=? y)%float = true -> (y <? z)%float = true -> (x <? z)%float = true.
Proof. intros H1 H2. float_order. Qed.

(** [max(a, b)] is at least [a], for an [a] that is a number. *)
Lemma max_ge_l (a b : float) :
  (a <=? a)%float = true -> (a <=? Py.max a b)%float = true.
Proof.
  intros Ha. unfold Py.max. destruct (a <? b)%float eqn:E; [|exact Ha].
  now apply ltb_leb.
Qed.

(** A zero is below every positive constant, so [max] of anything and
    a positive constant is not zero. *)
Lemma max_pos_r_nonzero (a c : float) :
  (0 <? c)%float = true -> (Py.max a c =? 0)%float = false.
Proof.
  intros Hc. unfold Py.max. destruct (a <? c)%float eqn:E; float_order.
Qed.

Lemma max_pos_l_nonzero (c a : float) :
  (0 <? c)%float = true -> (Py.max c a =? 0)%float = false.
Proof.
  intros Hc. unfold Py.max. destruct (c <? a)%float eqn:E; float_order.
Qed.

(** ** The pacing delay *)

(** With a reference delta that is not zero no division of the delay
    computation raises, and the delay is the formula of the
    specification. *)
Lemma pacing_delay_spec (cfg : config) (delta speed : float) :
  (REFERENCE_DELTA_MS cfg =? 0)%float = false ->
  pacing_delay cfg delta speed = Py.Ok (Spec.delay cfg delta speed).
Proof.
  intros Href. unfold pacing_delay, Spec.delay, Spec.dynamicMax, Spec.clamp,
    Py.truediv.
  rewrite Href. cbn [Py.bind].
  rewrite (max_pos_r_nonzero speed 0.1 eq_refl). cbn [Py.bind].
  change (10 =? 0)%float with false. cbn [Py.bind].
  rewrite (max_pos_l_nonzero 1 (speed / 10)%float eq_refl). reflexivity.
Qed.

(** The two readings of [clamp] agree on a number [x] when [lo <= hi]. *)
Lemma clamp_cases_eq (x lo hi : float) :
  (lo <=? hi)%float = true -> (x <=? x)%float = true ->
  feq (Spec.clamp x lo hi) (clamp_cases x lo hi).
Proof.
  intros Hlh Hx. unfold Spec.clamp, clamp_cases, Py.max, Py.min.
  destruct (x <? hi)%float eqn:E1;
    [destruct (lo <? x)%float eqn:E4 | destruct (lo <? hi)%float eqn:E5];
    destruct (x <? lo)%float eqn:E2; try destruct (hi <? x)%float eqn:E3;
    float_order.
Qed.

(** C5: for every delta and speed the delay computed in the loop is
    [clamp((deltaMs / referenceDeltaMs) * baseDelayMs / max(speed, 0.1),
    minEmitDelayMs, max(20, maxEmitDelayMs / max(1, speed / 10)))], for
    every configuration whose reference delta is not zero and so for the
    default one; with the default tunables a delta of 900000 gives 250 at
    speed 1 and 40 at speed 10. *)
Theorem pacing_delay_formula :
  (forall cfg delta speed,
     (REFERENCE_DELTA_MS cfg =? 0)%float = false ->
     pacing_delay cfg delta speed = Py.Ok (Spec.delay cfg delta speed))
  /\ (forall delta speed,
        pacing_delay default_config delta speed
        = Py.Ok (Spec.delay default_config delta speed))
  /\ pacing_delay default_config 900000 1 = Py.Ok 250%float
  /\ pacing_delay default_config 900000 10 = Py.Ok 40%float.
Proof.
  split; [exact pacing_delay_spec|]. split; [|split].
  - intros delta speed. now apply pacing_delay_spec.
  - vm_compute. reflexivity.
  - vm_compute. reflexivity.
Qed.

(** The delay lies between the minimum and the dynamic maximum, for a
    minimum of at most 20. *)
Lemma delay_bounds (cfg : config) (delta speed : float) :
  (MIN_EMIT_DELAY_MS cfg <=? 20)%float = true ->
  (MIN_EMIT_DELAY_MS cfg <=? Spec.delay cfg delta speed)%float = true
  /\ (Spec.delay cfg delta speed <=? Spec.dynamicMax cfg speed)%float = true.
Proof.
  intros Hmin. unfold Spec.delay, Spec.clamp.
  set (raw := (_ / Py.max speed 0.1)%float).
  unfold Spec.dynamicMax.
  set (ratio := (MAX_EMIT_DELAY_MS cfg / _)%float).
  set (lo := MIN_EMIT_DELAY_MS cfg) in *.
  clearbody raw ratio lo. unfold Py.max, Py.min.
  destruct (20 <? ratio)%float eqn:E1.
  - destruct (raw <? ratio)%float eqn:E2.
    + destruct (lo <? raw)%float eqn:E3; split; float_order.
    + destruct (lo <? ratio)%float eqn:E3; split; float_order.
  - destruct (raw <? 20)%float eqn:E2.
    + destruct (lo <? raw)%float eqn:E3; split; float_order.
    + destruct (lo <? 20)%float eqn:E3; split; float_order.
Qed.

(** ** The speed of a session *)

Lemma speed_ok_max (s : session) (f : float) :
  speed_ok (with_speed s (Py.max 0.1 f)).
Proof. unfold speed_ok. simpl. now apply max_ge_l. Qed.

(** The listener sets the speed only to [max(0.1, parsed)]. *)
Lemma control_listener_speed (rt : runtime) (s : session) (i : ctrl_input) :
  speed (control_listener rt s i) = speed s
  \/ exists parsed, speed (control_listener rt s i) = Py.max 0.1 parsed.
Proof.
  unfold control_listener.
  destruct (negb (listening s)); [now left|].
  destruct i as [[| | | | | |kvs]|]; try (now left).
  destruct (Json.eq_str (Json.get "type" kvs) "SET_SPEED").
  - destruct (Json.to_float (float_of_str rt) (Json.get "speed" kvs))
      as [parsed|[]]; try (now left).
    right. now exists parsed.
  - destruct (Json.eq_str (Json.get "type" kvs) "PAUSE"); [now left|].
    destruct (Json.eq_str (Json.get "type" kvs) "PLAY"); now left.
Qed.

Lemma control_listener_speed_ok (rt : runtime) (s : session) (i : ctrl_input) :
  speed_ok s -> speed_ok (control_listener rt s i).
Proof.
  intros Hs. unfold speed_ok in *.
  destruct (control_listener_speed rt s i) as [-> | [parsed ->]];
    [exact Hs | now apply max_ge_l].
Qed.

Lemma control_listener_cursor (rt : runtime) (s : session) (i : ctrl_input) :
  last_timestamp (control_listener rt s i) = last_timestamp s
  /\ last_sent_ts (control_listener rt s i) = last_sent_ts s
  /\ indicator_instances (control_listener rt s i) = indicator_instances s.
Proof.
  unfold control_listener.
  destruct (negb (listening s)); [now repeat split|].
  destruct i as [[| | | | | |kvs]|]; try (now repeat split).
  destruct (Json.eq_str (Json.get "type" kvs) "SET_SPEED").
  - destruct (Json.to_float (float_of_str rt) (Json.get "speed" kvs))
      as [parsed|[]]; now repeat split.
  - destruct (Json.eq_str (Json.get "type" kvs) "PAUSE"); [now repeat split|].
    destruct (Json.eq_str (Json.get "type" kvs) "PLAY"); now repeat split.
Qed.

Lemma listeners_speed_ok (rt : runtime) (cs : list ctrl_input) :
  forall s, speed_ok s -> speed_ok (fold_left (control_listener rt) cs s).
Proof.
  induction cs as [|c cs IH]; simpl; intros s Hs; [exact Hs|].
  apply IH. now apply control_listener_speed_ok.
Qed.

Lemma listeners_cursor (rt : runtime) (cs : list ctrl_input) :
  forall s,
    last_timestamp (fold_left (control_listener rt) cs s) = last_timestamp s
    /\ last_sent_ts (fold_left (control_listener rt) cs s) = last_sent_ts s
    /\ indicator_instances (fold_left (control_listener rt) cs s)
       = indicator_instances s.
Proof.
  induction cs as [|c cs IH]; simpl; intros s; [now repeat split|].
  destruct (IH (control_listener rt s c)) as (H1 & H2 & H3).
  destruct (control_listener_cursor rt s c) as (G1 & G2 & G3).
  repeat split; congruence.
Qed.

(** What a row leaves: the speed the listener left, and the row's
    timestamp as the cursor. *)
Lemma process_row_ok (cfg : config) (rt : runtime) (s s' : session)
    (r : Candle.t) (cs : list ctrl_input) (evs : list event) :
  process_row cfg rt s r cs = (evs, Py.Ok s') ->
  speed s' = speed (fold_left (control_listener rt) cs s)
  /\ last_timestamp s' = Some (NFloat (Candle.timestamp r))
  /\ last_sent_ts s' = Some (Candle.timestamp r).
Proof.
  unfold process_row.
  destruct (update_instances (indicator_instances s) (Candle.close r) [])
    as [[insts d]|]; [|discriminate].
  destruct (last_sent_ts (fold_left (control_listener rt) cs s)) as [last|].
  - destruct (pacing_delay cfg _ _); [|discriminate].
    intros [= _ <-]. now repeat split.
  - intros [= _ <-]. now repeat split.
Qed.

Lemma process_rows_speed_ok (cfg : config) (rt : runtime)
    (rows : list (Candle.t * list ctrl_input)) :
  forall s s' evs,
    speed_ok s -> process_rows cfg rt s rows = (evs, Py.Ok s') -> speed_ok s'.
Proof.
  induction rows as [|[r cs] rows IH]; simpl; intros s s' evs Hs H.
  - now injection H as _ <-.
  - destruct (process_row cfg rt s r cs) as [evs1 [s1|]] eqn:Hr; [|discriminate].
    destruct (process_rows cfg rt s1 rows) as [evs2 res] eqn:Hrs.
    injection H as _ ->.
    apply (IH s1 s' evs2); [|exact Hrs].
    apply process_row_ok in Hr. destruct Hr as (Hsp & _).
    unfold speed_ok. rewrite Hsp. now apply listeners_speed_ok.
Qed.

Lemma step_speed_ok (cfg : config) (rt : runtime) (s s' : session)
    (i : input) (evs : list event) :
  speed_ok s -> step cfg rt s i = (evs, Py.Ok s') -> speed_ok s'.
Proof.
  intros Hs. destruct i as [c|fetched]; simpl.
  - intros [= _ <-]. now apply control_listener_speed_ok.
  - unfold iteration. destruct (paused s); [now intros [= _ <-]|].
    destruct fetched as [|row rows]; [now intros [= _ <-]|].
    destruct (process_rows cfg rt s (row :: rows)) as [evs1 [s1|]] eqn:Hr;
      [|discriminate].
    intros [= _ <-]. now apply (process_rows_speed_ok cfg rt _ _ _ _ Hs Hr).
Qed.

Lemma run_speed_ok (cfg : config) (rt : runtime) (inputs : list input) :
  forall s s' evs,
    speed_ok s -> run cfg rt s inputs = (evs, Py.Ok s') -> speed_ok s'.
Proof.
  induction inputs as [|i inputs IH]; simpl; intros s s' evs Hs H.
  - now injection H as _ <-.
  - destruct (step cfg rt s i) as [evs1 [s1|]] eqn:Hstep; [|discriminate].
    destruct (run cfg rt s1 inputs) as [evs2 res] eqn:Hrun.
    injection H as _ ->.
    apply (IH s1 s' evs2); [|exact Hrun].
    now apply (step_speed_ok cfg rt s s1 i evs1).
Qed.

(** The speed a session starts with. *)
Lemma setup_speed (cfg : config) (rt : runtime) (params : query_params)
    (evs : list event) (s : session) :
  setup cfg rt params = (evs, Started s) ->
  speed s = match params "speed" with
            | Some speed_raw =>
                match float_of_str rt speed_raw with
                | Some value => Py.max 0.1 value
                | None => 1%float
                end
            | None => 1%float
            end.
Proof.
  unfold setup.
  destruct (params "symbol") as [sym|]; [|discriminate].
  destruct (params "timeframe") as [tf|]; [|discriminate].
  destruct (Py.truthy_str (Some sym) && Py.truthy_str (Some tf)); [|discriminate].
  destruct (Py.or_str (params "after") (params "from")) as [a|].
  - destruct (Py.int_of_str (int_of_text rt) a); [|discriminate].
    destruct (read_indicators rt (params "indicators")) as [[insts|]|];
      try discriminate.
    now intros [= _ <-].
  - destruct (read_indicators rt (params "indicators")) as [[insts|]|];
      try discriminate.
    now intros [= _ <-].
Qed.

(** C10: the speed is at least 0.1 in every state a session reaches.  The
    setup starts with [max(0.1, value)] of the [speed] parameter, or with
    1.0 when it is absent or does not parse; a SET_SPEED whose [speed]
    converts sets [max(0.1, parsed)]; one whose [speed] does not convert
    leaves the speed as it was; and every state a run reaches from a
    started session, between rows included, keeps the bound. *)
Theorem speed_never_below_a_tenth (cfg : config) (rt : runtime) :
  (forall params evs s,
     setup cfg rt params = (evs, Started s) ->
     speed_ok s
     /\ speed s = match params "speed" with
                  | Some speed_raw =>
                      match float_of_str rt speed_raw with
                      | Some value => Py.max 0.1 value
                      | None => 1%float
                      end
                  | None => 1%float
                  end)
  /\ (forall s kvs parsed,
        listening s = true ->
        Json.get "type" kvs = JStr "SET_SPEED" ->
        Json.to_float (float_of_str rt) (Json.get "speed" kvs) = Py.Ok parsed ->
        speed (control_listener rt s (CtrlJson (JDict kvs))) = Py.max 0.1 parsed)
  /\ (forall s kvs e,
        Json.get "type" kvs = JStr "SET_SPEED" ->
        Json.to_float (float_of_str rt) (Json.get "speed" kvs) = Py.Raise e ->
        speed (control_listener rt s (CtrlJson (JDict kvs))) = speed s)
  /\ (forall s i, speed_ok s -> speed_ok (control_listener rt s i))
  /\ (forall s cs, speed_ok s -> speed_ok (fold_left (control_listener rt) cs s))
  /\ (forall params evs0 s0 inputs evs s,
        setup cfg rt params = (evs0, Started s0) ->
        run cfg rt s0 inputs = (evs, Py.Ok s) ->
        speed_ok s).
Proof.
  assert (Hsetup : forall params evs s,
             setup cfg rt params = (evs, Started s) -> speed_ok s).
  { intros params evs s H. unfold speed_ok. rewrite (setup_speed _ _ _ _ _ H).
    destruct (params "speed") as [raw|]; [|reflexivity].
    destruct (float_of_str rt raw); [now apply max_ge_l | reflexivity]. }
  split; [|split; [|split; [|split; [|split]]]].
  - intros params evs s H. split; [now apply (Hsetup params evs)|].
    now apply (setup_speed cfg rt params evs).
  - intros s kvs parsed Hl Ht Hf. unfold control_listener.
    rewrite Hl, Ht, Hf. reflexivity.
  - intros s kvs e Ht Hf. unfold control_listener.
    destruct (negb (listening s)); [reflexivity|].
    rewrite Ht, Hf. simpl. now destruct e.
  - intros s i. apply control_listener_speed_ok.
  - intros s cs. apply listeners_speed_ok.
  - intros params evs0 s0 inputs evs s H0 Hrun.
    apply (run_speed_ok cfg rt inputs s0 s evs); [|exact Hrun].
    now apply (Hsetup params evs0).
Qed.

(** ** The cursor *)

Lemma update_period (self self' : SimpleMovingAverage) (value : float)
    (out : option float) :
  1 <= period self -> update self value = Py.Ok (self', out) ->
  period self' = period self.
Proof.
  intros Hp H. rewrite (update_eq self value Hp) in H. cbv zeta in H.
  now injection H as <- _.
Qed.

Lemma update_instances_ok (insts : list instance) (close : float) :
  instances_ok insts ->
  exists insts' d,
    update_instances insts close [] = Py.Ok (insts', d) /\ instances_ok insts'.
Proof.
  intros Hok.
  destruct (update_instances_total insts close Hok [])
    as (insts' & d & Hrun & Hids & Hall & _).
  exists insts', d. split; [exact Hrun|].
  unfold instances_ok in *. clear Hrun.
  revert insts' Hids Hall.
  induction Hok as [|j rest [[s Hs] Hp] _ IH]; intros insts' Hids Hall.
  - inversion Hall. constructor.
  - inversion Hall as [|? j' ? rest' (out & Hu & _) Hrest]; subst.
    simpl in Hids. injection Hids as Hid Hids.
    constructor.
    + split; [exists s; congruence|].
      rewrite (update_period _ _ _ _ Hp Hu). exact Hp.
    + now apply IH.
Qed.

(** A row is processed without an exception when the reference delta is
    not zero and the instances are well formed. *)
Lemma process_row_total (cfg : config) (rt : runtime) (s : session)
    (r : Candle.t) (cs : list ctrl_input) :
  (REFERENCE_DELTA_MS cfg =? 0)%float = false ->
  instances_ok (indicator_instances s) ->
  exists evs s',
    process_row cfg rt s r cs = (evs, Py.Ok s')
    /\ instances_ok (indicator_instances s').
Proof.
  intros Href Hok. unfold process_row.
  destruct (update_instances_ok _ (Candle.close r) Hok) as (insts & d & -> & Hok').
  destruct (last_sent_ts (fold_left (control_listener rt) cs s)) as [last|].
  - rewrite (pacing_delay_spec cfg _ _ Href). eexists. eexists.
    split; [reflexivity | exact Hok'].
  - eexists. eexists. split; [reflexivity | exact Hok'].
Qed.

Lemma process_rows_total (cfg : config) (rt : runtime)
    (rows : list (Candle.t * list ctrl_input)) :
  (REFERENCE_DELTA_MS cfg =? 0)%float = false ->
  forall s,
    instances_ok (indicator_instances s) ->
    exists evs s',
      process_rows cfg rt s rows = (evs, Py.Ok s')
      /\ instances_ok (indicator_instances s').
Proof.
  intros Href. induction rows as [|[r cs] rows IH]; simpl; intros s Hok.
  - exists [], s. now split.
  - destruct (process_row_total cfg rt s r cs Href Hok) as (evs1 & s1 & -> & Hok1).
    destruct (IH s1 Hok1) as (evs2 & s2 & -> & Hok2).
    exists (evs1 ++ evs2), s2. now split.
Qed.

(** After the rows of a batch the cursor is the timestamp of the last. *)
Lemma process_rows_cursor (cfg : config) (rt : runtime)
    (pre : list (Candle.t * list ctrl_input)) (r : Candle.t)
    (cs : list ctrl_input) :
  forall s s' evs,
    process_rows cfg rt s (pre ++ [(r, cs)]) = (evs, Py.Ok s') ->
    last_timestamp s' = Some (NFloat (Candle.timestamp r))
    /\ last_sent_ts s' = Some (Candle.timestamp r).
Proof.
  induction pre as [|[r0 cs0] pre IH]; simpl; intros s s' evs H.
  - destruct (process_row cfg rt s r cs) as [evs1 [s1|]] eqn:Hr; [|discriminate].
    injection H as _ <-. apply process_row_ok in Hr. tauto.
  - destruct (process_row cfg rt s r0 cs0) as [evs1 [s1|]]; [|discriminate].
    destruct (process_rows cfg rt s1 (pre ++ [(r, cs)])) as [evs2 res] eqn:Hrs.
    injection H as _ ->. now apply (IH s1 s' evs2).
Qed.

Lemma iteration_cursor (cfg : config) (rt : runtime) (s s' : session)
    (pre : list (Candle.t * list ctrl_input)) (r : Candle.t)
    (cs : list ctrl_input) (evs : list event) :
  paused s = false ->
  iteration cfg rt s (pre ++ [(r, cs)]) = (evs, Py.Ok s') ->
  last_timestamp s' = Some (NFloat (Candle.timestamp r)).
Proof.
  intros Hp. unfold iteration. rewrite Hp.
  destruct (pre ++ [(r, cs)]) as [|row rows] eqn:Hrows.
  - now destruct pre.
  - rewrite <- Hrows.
    destruct (process_rows cfg rt s (pre ++ [(r, cs)])) as [evs1 [s1|]] eqn:Hr;
      [|discriminate].
    intros [= _ <-]. now apply (process_rows_cursor cfg rt pre r cs s s1 evs1).
Qed.

(** One input never moves the cursor backwards when the source keeps
    its contract. *)
Lemma step_cursor_le (cfg : config) (rt : runtime) (s s' : session)
    (i : input) (evs : list event) :
  respects_contract s i = true ->
  step cfg rt s i = (evs, Py.Ok s') ->
  cursor_le (last_timestamp s) (last_timestamp s').
Proof.
  destruct i as [c|fetched]; simpl; intros Hc H.
  - injection H as _ <-. left. apply control_listener_cursor.
  - destruct (paused s) eqn:Hp.
    + unfold iteration in H. rewrite Hp in H. injection H as _ <-. now left.
    + destruct fetched as [|row rows].
      * unfold iteration in H. rewrite Hp in H. injection H as _ <-.
        now left.
      * destruct (@exists_last _ (row :: rows) ltac:(discriminate))
          as (pre & [r cs] & Hpre).
        rewrite Hpre in *.
        rewrite (iteration_cursor cfg rt s s' pre r cs evs Hp H).
        right. destruct (last_timestamp s) as [n|] eqn:Hn; [|exact I].
        simpl in Hc. unfold source_contract in Hc.
        apply andb_true_iff in Hc. destruct Hc as [_ Hc].
        rewrite forallb_forall in Hc.
        specialize (Hc r). simpl in Hc. rewrite Hn in Hc. apply Hc.
        rewrite map_app. apply in_or_app. right. now left.
Qed.

Lemma iteration_total (cfg : config) (rt : runtime) (s : session)
    (fetched : list (Candle.t * list ctrl_input)) :
  (REFERENCE_DELTA_MS cfg =? 0)%float = false ->
  instances_ok (indicator_instances s) ->
  exists evs s', iteration cfg rt s fetched = (evs, Py.Ok s').
Proof.
  intros Href Hok. unfold iteration.
  destruct (paused s); [eauto|].
  destruct fetched as [|row rows]; [eauto|].
  destruct (process_rows_total cfg rt (row :: rows) Href s Hok)
    as (evs & s' & -> & _).
  eauto.
Qed.

Lemma run_cursors_non_decreasing (cfg : config) (rt : runtime)
    (inputs : list input) :
  forall s,
    run_respects_contract cfg rt s inputs = true ->
    non_decreasing (last_timestamp s) (cursors cfg rt s inputs).
Proof.
  induction inputs as [|i inputs IH]; simpl; intros s H; [exact I|].
  apply andb_true_iff in H. destruct H as [Hc H].
  destruct (step cfg rt s i) as [evs [s1|]] eqn:Hstep; [|exact I].
  simpl. split; [|now apply IH].
  now apply (step_cursor_le cfg rt s s1 i evs).
Qed.

(** C9: after the loop has processed a batch that is not empty the
    cursor is the timestamp of the batch's last row (and the batch is
    processed to its end when the reference delta is not zero and the
    instances are well formed); an empty batch, a turn taken while paused
    and a control message leave the cursor as it was; so along every run
    whose batches keep the source's contract the cursor never decreases. *)
Theorem cursor_is_last_timestamp (cfg : config) (rt : runtime) :
  (forall s s' pre r cs evs,
     paused s = false ->
     iteration cfg rt s (pre ++ [(r, cs)]) = (evs, Py.Ok s') ->
     last_timestamp s' = Some (NFloat (Candle.timestamp r)))
  /\ (forall s fetched,
        (REFERENCE_DELTA_MS cfg =? 0)%float = false ->
        instances_ok (indicator_instances s) ->
        exists evs s', iteration cfg rt s fetched = (evs, Py.Ok s'))
  /\ (forall s,
        iteration cfg rt s []
        = ([Sleep (if paused s then 0.05%float else POLL_INTERVAL_SECONDS cfg)],
           Py.Ok s))
  /\ (forall s fetched,
        paused s = true -> iteration cfg rt s fetched = ([Sleep 0.05], Py.Ok s))
  /\ (forall s c, last_timestamp (control_listener rt s c) = last_timestamp s)
  /\ (forall inputs s,
        run_respects_contract cfg rt s inputs = true ->
        non_decreasing (last_timestamp s) (cursors cfg rt s inputs)).
Proof.
  split; [|split; [|split; [|split; [|split]]]].
  - intros s s' pre r cs evs Hp H.
    exact (iteration_cursor cfg rt s s' pre r cs evs Hp H).
  - intros s fetched. apply iteration_total.
  - intros s. unfold iteration. now destruct (paused s).
  - intros s fetched Hp. unfold iteration. now rewrite Hp.
  - intros s c. apply control_listener_cursor.
  - intros inputs s. apply run_cursors_non_decreasing.
Qed.

(** A session that starts after 1000 and is fed a batch of two rows, an
    empty batch, a pause, and a batch that is ignored while paused: the
    inputs keep the contract and the cursor goes from 1000 to 3000. *)
Lemma cursor_example :
  let params := query [("symbol", "BTCUSDT"); ("timeframe", "15m");
                       ("after", "1000")] in
  let inputs :=
    [Iteration [(example_candle 2000 10, []); (example_candle 3000 11, [])];
     Iteration [];
     Control (CtrlJson (JDict [("type", JStr "PAUSE")]));
     Iteration [(example_candle 4000 12, [])]] in
  exists s0,
    setup default_config example_runtime params = ([Accept], Started s0)
    /\ last_timestamp s0 = Some (NInt 1000)
    /\ run_respects_contract default_config example_runtime s0 inputs = true
    /\ cursors default_config example_runtime s0 inputs
       = [Some (NFloat 3000); Some (NFloat 3000); Some (NFloat 3000);
          Some (NFloat 3000)].
Proof.
  cbv zeta. eexists. split; [reflexivity|].
  split; [reflexivity|]. split; vm_compute; reflexivity.
Qed.

(** ** The window and the running sum *)

Lemma lastn_length {A : Type} (k : nat) (xs : list A) :
  List.length (lastn k xs) = Nat.min k (List.length xs).
Proof. unfold lastn. rewrite length_skipn. lia. Qed.

Lemma lastn_all {A : Type} (k : nat) (xs : list A) :
  (List.length xs <= k)%nat -> lastn k xs = xs.
Proof.
  intros H. unfold lastn.
  replace (List.length xs - k)%nat with 0%nat by lia. reflexivity.
Qed.

Lemma tl_skipn {A : Type} (n : nat) (xs : list A) :
  tl (skipn n xs) = skipn (S n) xs.
Proof.
  revert xs. induction n as [|n IH]; intros [|x xs]; simpl; try reflexivity.
  apply IH.
Qed.

Lemma lastn_snoc_full {A : Type} (k : nat) (xs : list A) (v : A) :
  (1 <= k <= List.length xs)%nat ->
  lastn k (xs ++ [v]) = tl (lastn k xs ++ [v]).
Proof.
  intros H. unfold lastn. rewrite length_app. simpl.
  replace (List.length xs + 1 - k)%nat with (S (List.length xs - k)) by lia.
  rewrite skipn_app.
  replace (S (List.length xs - k) - List.length xs)%nat with 0%nat by lia.
  simpl skipn at 2. rewrite <- tl_skipn.
  destruct (skipn (List.length xs - k) xs) eqn:E; [|reflexivity].
  apply (f_equal (@List.length A)) in E. rewrite length_skipn in E.
  simpl in E. lia.
Qed.

(** One [update] keeps the window equal to the last [period] values
    seen, and answers [None] until [period] values were seen. *)
Lemma update_window (self self' : SimpleMovingAverage) (pre : list float)
    (value : float) (out : option float) :
  1 <= period self ->
  window self = lastn (Z.to_nat (period self)) pre ->
  update self value = Py.Ok (self', out) ->
  period self' = period self
  /\ window self' = lastn (Z.to_nat (period self)) (pre ++ [value])
  /\ out = (if Z.of_nat (List.length (pre ++ [value])) <? period self
            then None
            else Some (sum self'
                       / Py.float_of_len (Z.to_nat (period self)))%float).
Proof.
  intros Hp Hw Hu. rewrite (update_eq self value Hp) in Hu. cbv zeta in Hu.
  injection Hu as <- <-. cbn [period window sum].
  split; [reflexivity|].
  pose proof (lastn_length (Z.to_nat (period self)) pre) as Hlen.
  rewrite <- Hw in Hlen.
  rewrite !length_app. cbn [List.length]. rewrite Hlen.
  destruct (Nat.le_gt_cases (Z.to_nat (period self)) (List.length pre)) as [Hfull|Hsmall].
  - (* the window is full: the oldest value is evicted *)
    replace (period self <? Z.of_nat (Nat.min (Z.to_nat (period self)) (List.length pre) + 1))
      with true by (symmetry; apply Z.ltb_lt; lia).
    rewrite Hw, <- lastn_snoc_full by lia.
    split; [reflexivity|].
    rewrite lastn_length, length_app. cbn [List.length].
    replace (Z.of_nat (Nat.min (Z.to_nat (period self)) (List.length pre + 1)) <? period self)
      with false by (symmetry; apply Z.ltb_ge; lia).
    replace (Z.of_nat (List.length pre + 1) <? period self)
      with false by (symmetry; apply Z.ltb_ge; lia).
    replace (Nat.min (Z.to_nat (period self)) (List.length pre + 1))
      with (Z.to_nat (period self)) by lia.
    reflexivity.
  - (* the window is still filling *)
    replace (period self <? Z.of_nat (Nat.min (Z.to_nat (period self)) (List.length pre) + 1))
      with false by (symmetry; apply Z.ltb_ge; lia).
    rewrite Hw, (lastn_all _ pre) by lia.
    rewrite (lastn_all _ (pre ++ [value]))
      by (rewrite length_app; cbn [List.length]; lia).
    split; [reflexivity|].
    rewrite length_app. cbn [List.length].
    destruct (Z.of_nat (List.length pre + 1) <? period self) eqn:E; [reflexivity|].
    apply Z.ltb_ge in E.
    replace (List.length pre + 1)%nat with (Z.to_nat (period self)) by lia.
    reflexivity.
Qed.

(** A run of updates never raises; it keeps the period, answers once per
    value, and leaves the window equal to the last [period] values. *)
Lemma run_updates_window (values : list float) :
  forall (self : SimpleMovingAverage) (pre : list float),
    1 <= period self ->
    window self = lastn (Z.to_nat (period self)) pre ->
    exists self' outs,
      run_updates self values = Py.Ok (self', outs)
      /\ period self' = period self
      /\ List.length outs = List.length values
      /\ window self' = lastn (Z.to_nat (period self)) (pre ++ values).
Proof.
  induction values as [|value rest IH]; intros self pre Hp Hw.
  - exists self, []. rewrite app_nil_r. now repeat split.
  - destruct (update_total self value Hp) as (self1 & out & Hu & Hp1).
    destruct (update_window self self1 pre value out Hp Hw Hu) as (_ & Hw1 & _).
    destruct (IH self1 (pre ++ [value])) as (self2 & outs & Hrun & Hp2 & Hlen & Hw2).
    + now rewrite Hp1.
    + now rewrite Hp1.
    + exists self2, (out :: outs). simpl. rewrite Hu. simpl. rewrite Hrun. simpl.
      rewrite Hp1 in *. rewrite <- app_assoc in Hw2. simpl in Hw2.
      repeat split; [exact Hp2 | now rewrite Hlen | exact Hw2].
Qed.

Lemma init_window (p : Z) :
  window (SimpleMovingAverage_init p)
  = lastn (Z.to_nat (period (SimpleMovingAverage_init p))) [].
Proof. reflexivity. Qed.

Lemma sum_is_exact_iff (self : SimpleMovingAverage) :
  sum_is_exact self = true <->
  exists a w, exact (sum self) = Some a /\ exact_sum (window self) = Some w
              /\ (a == w)%Q.
Proof.
  unfold sum_is_exact.
  destruct (exact (sum self)) as [a|], (exact_sum (window self)) as [w|];
    split; try discriminate.
  - intros H. exists a, w. now rewrite <- Qeq_bool_iff.
  - intros (a' & w' & [= <-] & [= <-] & H). now apply Qeq_bool_iff.
  - now intros (a' & w' & _ & H & _).
  - now intros (a' & w' & H & _).
  - now intros (a' & w' & H & _).
Qed.

Lemma exact_add_iff (a b : float) :
  exact_add a b = true <->
  exists x y z, exact a = Some x /\ exact b = Some y
                /\ exact (a + b)%float = Some z /\ (z == x + y)%Q.
Proof.
  unfold exact_add.
  destruct (exact a) as [x|], (exact b) as [y|], (exact (a + b)%float) as [z|];
    split; try discriminate;
    try (intros (x' & y' & z' & H1 & H2 & H3 & _); discriminate).
  - intros H. exists x, y, z. now rewrite <- Qeq_bool_iff.
  - intros (x' & y' & z' & [= <-] & [= <-] & [= <-] & H). now apply Qeq_bool_iff.
Qed.

Lemma exact_sub_iff (a b : float) :
  exact_sub a b = true <->
  exists x y z, exact a = Some x /\ exact b = Some y
                /\ exact (a - b)%float = Some z /\ (z == x - y)%Q.
Proof.
  unfold exact_sub.
  destruct (exact a) as [x|], (exact b) as [y|], (exact (a - b)%float) as [z|];
    split; try discriminate;
    try (intros (x' & y' & z' & H1 & H2 & H3 & _); discriminate).
  - intros H. exists x, y, z. now rewrite <- Qeq_bool_iff.
  - intros (x' & y' & z' & [= <-] & [= <-] & [= <-] & H). now apply Qeq_bool_iff.
Qed.

Lemma exact_sum_snoc (xs : list float) (v : float) :
  forall w b,
    exact_sum xs = Some w -> exact v = Some b ->
    exists q, exact_sum (xs ++ [v]) = Some q /\ (q == w + b)%Q.
Proof.
  induction xs as [|x xs IH]; simpl; intros w b Hw Hb.
  - injection Hw as <-. rewrite Hb. eexists. split; [reflexivity|]. ring.
  - destruct (exact x) as [a|]; [|discriminate].
    destruct (exact_sum xs) as [w'|]; [|discriminate].
    injection Hw as <-.
    destruct (IH w' b eq_refl Hb) as (q & -> & Hq).
    eexists. split; [reflexivity|]. rewrite Hq. ring.
Qed.

(** An [update] whose addition and subtraction are exact keeps the
    running sum equal to the sum of the window. *)
Lemma update_exact (self self' : SimpleMovingAverage) (value : float)
    (out : option float) :
  1 <= period self ->
  sum_is_exact self = true ->
  exact_update self value = true ->
  update self value = Py.Ok (self', out) ->
  sum_is_exact self' = true.
Proof.
  intros Hp Hs He Hu. rewrite (update_eq self value Hp) in Hu. cbv zeta in Hu.
  injection Hu as <- _.
  apply sum_is_exact_iff in Hs. destruct Hs as (a & w & Ha & Hw & Haw).
  unfold exact_update in He. apply andb_true_iff in He. destruct He as [Hadd Hsub].
  apply exact_add_iff in Hadd.
  destruct Hadd as (x & b & c & Hx & Hb & Hc & Hcab).
  rewrite Ha in Hx. injection Hx as <-.
  destruct (exact_sum_snoc (window self) value w b Hw Hb) as (q & Hq & Hqw).
  apply sum_is_exact_iff. cbn [sum window].
  destruct (period self <? Z.of_nat (List.length (window self ++ [value]))).
  - destruct (window self ++ [value]) as [|dropped rest] eqn:Hw1;
      [now destruct (window self)|].
    cbn [hd tl]. apply exact_sub_iff in Hsub.
    destruct Hsub as (c' & d & e & Hc' & Hd & He & Hecd).
    rewrite Hc in Hc'. injection Hc' as <-.
    simpl in Hq. rewrite Hd in Hq.
    destruct (exact_sum rest) as [r|]; [|discriminate].
    injection Hq as <-.
    exists e, r. repeat split; [exact He|].
    rewrite Hecd, Hcab, Haw.
    assert (Hd_r : (d + r == w + b)%Q) by exact Hqw.
    setoid_replace (w + b)%Q with (d + r)%Q by (symmetry; exact Hd_r). ring.
  - exists c, q. repeat split; [exact Hc | exact Hq |].
    rewrite Hcab, Hqw, Haw. reflexivity.
Qed.

Lemma run_updates_exact (values : list float) :
  forall self self' outs,
    1 <= period self ->
    sum_is_exact self = true ->
    exact_updates self values = true ->
    run_updates self values = Py.Ok (self', outs) ->
    sum_is_exact self' = true.
Proof.
  induction values as [|value rest IH]; simpl; intros self self' outs Hp Hs He Hr.
  - now injection Hr as <- _.
  - apply andb_true_iff in He. destruct He as [He Hrest].
    destruct (update self value) as [[self1 out]|] eqn:Hu; [|discriminate].
    simpl in Hr.
    destruct (run_updates self1 rest) as [[self2 outs2]|] eqn:Hrun; [|discriminate].
    simpl in Hr. injection Hr as <- _.
    apply (IH self1 self2 outs2); try assumption.
    + now rewrite (update_period self self1 value out Hp Hu).
    + now apply (update_exact self self1 value out).
Qed.

Lemma init_sum_is_exact (p : Z) : sum_is_exact (SimpleMovingAverage_init p) = true.
Proof. reflexivity. Qed.

Lemma run_updates_app (xs ys : list float) :
  forall self self1 outs1 self2 outs2,
    run_updates self xs = Py.Ok (self1, outs1) ->
    run_updates self1 ys = Py.Ok (self2, outs2) ->
    run_updates self (xs ++ ys) = Py.Ok (self2, outs1 ++ outs2).
Proof.
  induction xs as [|x xs IH]; simpl; intros self self1 outs1 self2 outs2 H1 H2.
  - injection H1 as <- <-. exact H2.
  - destruct (update self x) as [[s1 out]|]; [|discriminate]. simpl in *.
    destruct (run_updates s1 xs) as [[s2 outs]|] eqn:Hr; [|discriminate].
    simpl in H1. injection H1 as <- <-.
    now rewrite (IH s1 s2 outs self2 outs2 Hr H2).
Qed.

(** C8, as the code has it: after [n] values the window holds exactly the
    last [min(n, period)] of them, so its length never exceeds the period;
    [runningSum] is a float kept by adding each value and subtracting each
    evicted one, and it is the exact sum of the window when none of these
    additions and subtractions rounded. *)
Theorem window_holds_last_values (p : Z) (values : list float) :
  exists self outs,
    run_updates (SimpleMovingAverage_init p) values = Py.Ok (self, outs)
    /\ period self = Z.max 1 p
    /\ window self
       = lastn (Nat.min (List.length values) (Z.to_nat (period self))) values
    /\ Z.of_nat (List.length (window self)) <= period self
    /\ (exact_updates (SimpleMovingAverage_init p) values = true ->
        sum_is_exact self = true).
Proof.
  destruct (run_updates_window values (SimpleMovingAverage_init p) []
              (init_period p) (init_window p))
    as (self & outs & Hrun & Hp & _ & Hw).
  exists self, outs. simpl in Hw, Hp.
  split; [exact Hrun|]. split; [exact Hp|]. rewrite Hp.
  split; [|split].
  - rewrite Hw. unfold lastn. f_equal. lia.
  - rewrite Hw, lastn_length. lia.
  - intros He.
    exact (run_updates_exact values _ self outs (init_period p)
             (init_sum_is_exact p) He Hrun).
Qed.

(** C8 as stated fails: with the period 1 and the values 1e16 and 1.0 the
    window holds [1.0] and the running sum is 0.0, since 1e16 + 1.0
    rounds to 1e16. *)
Lemma running_sum_is_not_exact :
  exists self outs,
    run_updates (SimpleMovingAverage_init 1) [1e16; 1]%float = Py.Ok (self, outs)
    /\ window self = [1%float]
    /\ sum self = 0%float
    /\ denotes (sum self) (exact_sum (window self)) = false
    /\ sum_is_exact self = false.
Proof.
  eexists. eexists. split; [vm_compute; reflexivity|].
  repeat split; vm_compute; reflexivity.
Qed.

(** The run of the example of the specification rounds nothing. *)
Lemma exact_updates_example :
  exact_updates (SimpleMovingAverage_init 3) [1; 2; 3; 4; 5]%float = true.
Proof. vm_compute. reflexivity. Qed.

(** C7, as the code has it: the [n]-th call ([n] is one more than the
    number of values seen before) returns [None] when [n] is below the
    period and [runningSum / period] from then on, where [runningSum] is
    the float sum the instance keeps; the window then holds the last
    [period] values, and [runningSum] is their exact sum when no addition
    or subtraction of the run rounded.  With the period 3 and the values
    1, 2, 3, 4, 5 the outputs are [None], [None], 2, 3, 4. *)
Theorem nth_update_output (p : Z) (pre : list float) (value : float) :
  (exists before outs self out,
     run_updates (SimpleMovingAverage_init p) pre = Py.Ok (before, outs)
     /\ update before value = Py.Ok (self, out)
     /\ out = (if Z.of_nat (S (List.length pre)) <? Z.max 1 p then None
               else Some (sum self / Py.float_of_len (Z.to_nat (Z.max 1 p)))%float)
     /\ window self = lastn (Z.to_nat (Z.max 1 p)) (pre ++ [value])
     /\ (exact_updates (SimpleMovingAverage_init p) (pre ++ [value]) = true ->
         sum_is_exact self = true)
     /\ (forall post, exists final outs',
           run_updates (SimpleMovingAverage_init p) (pre ++ value :: post)
           = Py.Ok (final, outs ++ out :: outs')))
  /\ (exists self,
        run_updates (SimpleMovingAverage_init 3) [1; 2; 3; 4; 5]%float
        = Py.Ok (self, [None; None; Some 2; Some 3; Some 4]%float)).
Proof.
  split; [|eexists; vm_compute; reflexivity].
  destruct (run_updates_window pre (SimpleMovingAverage_init p) []
              (init_period p) (init_window p))
    as (before & outs & Hrun & Hp & _ & Hw).
  simpl in Hw, Hp.
  assert (Hpb : 1 <= period before) by (rewrite Hp; lia).
  destruct (update_total before value Hpb) as (self & out & Hu & Hps).
  rewrite <- Hp in Hw.
  destruct (update_window before self pre value out Hpb Hw Hu) as (_ & Hws & Hout).
  assert (Hone : run_updates before [value] = Py.Ok (self, [out])).
  { simpl. rewrite Hu. reflexivity. }
  pose proof (run_updates_app pre [value] _ before outs self [out] Hrun Hone) as Hall.
  exists before, outs, self, out.
  split; [exact Hrun|]. split; [exact Hu|]. rewrite Hp in *.
  split; [|split; [|split]].
  - rewrite Hout, length_app. cbn [List.length].
    now replace (Z.of_nat (List.length pre + 1)) with (Z.of_nat (S (List.length pre)))
      by lia.
  - exact Hws.
  - intros He.
    exact (run_updates_exact (pre ++ [value]) _ self (outs ++ [out])
             (init_period p) (init_sum_is_exact p) He Hall).
  - intros post.
    destruct (run_updates_window post self (pre ++ [value]))
      as (final & outs' & Hpost & _).
    + rewrite Hps. lia.
    + now rewrite Hps.
    + exists final, outs'.
      change (value :: post) with ([value] ++ post).
      rewrite app_assoc.
      rewrite (run_updates_app (pre ++ [value]) post _ self (outs ++ [out])
                 final outs' Hall Hpost).
      now rewrite <- app_assoc.
Qed.

(** C7 as stated fails: with the period 2 and the values 0.1, 0.2, 0.3
    the third call returns 0.25000000000000006, while the mean of the
    last two values is exactly 0.25 (and [(0.2 + 0.3) / 2] is 0.25 in
    floats too): the running sum carries the rounding of 0.1 + 0.2. *)
Lemma output_is_not_the_mean :
  exists self,
    run_updates (SimpleMovingAverage_init 2) [0.1; 0.2; 0.3]%float
    = Py.Ok (self, [None; Some 0.15000000000000002; Some 0.25000000000000006]%float)
    /\ denotes 0.25 (exact_mean [0.2; 0.3]%float) = true
    /\ ((0.2 + 0.3) / 2 =? 0.25)%float = true
    /\ denotes 0.25000000000000006 (exact_mean [0.2; 0.3]%float) = false
    /\ (0.25000000000000006 =? 0.25)%float = false.
Proof.
  eexists. split; [vm_compute; reflexivity|].
  repeat split; vm_compute; reflexivity.
Qed.

(** ** Division of floats is monotone *)

Lemma sq_nonneg a b : 0 <= a -> 0 < b -> 0 <= sq a b.
Proof.
  intros Ha Hb. unfold sq. pose proof (Z.div_pos a b Ha Hb).
  destruct (a mod b =? 0); lia.
Qed.

Lemma sq_mono a1 b1 a2 b2 :
  0 < b1 -> 0 < b2 -> a1 * b2 <= a2 * b1 -> sq a1 b1 <= sq a2 b2.
Proof.
  intros Hb1 Hb2 H. unfold sq.
  pose proof (Z.div_mod a1 b1 ltac:(lia)) as E1.
  pose proof (Z.div_mod a2 b2 ltac:(lia)) as E2.
  pose proof (Z.mod_pos_bound a1 b1 Hb1) as M1.
  pose proof (Z.mod_pos_bound a2 b2 Hb2) as M2.
  set (q1 := a1 / b1) in *. set (r1 := a1 mod b1) in *.
  set (q2 := a2 / b2) in *. set (r2 := a2 mod b2) in *.
  assert (Hq : q1 <= q2 \/ q2 + 1 <= q1) by lia.
  destruct Hq as [Hq|Hq].
  - assert (Hq' : q1 = q2 \/ q1 + 1 <= q2) by lia.
    destruct Hq' as [Hq'|Hq'].
    + destruct (Z.eqb_spec r1 0), (Z.eqb_spec r2 0); try lia; subst q2; nia.
    + destruct (r1 =? 0), (r2 =? 0); lia.
  - exfalso.
    assert (b1 * b2 * (q2 + 1) <= a1 * b2) by nia.
    assert (a2 * b1 < b1 * b2 * (q2 + 1)) by nia.
    lia.
Qed.

Lemma sq_ratio a1 b1 a2 b2 :
  0 < b1 -> 0 < b2 -> a1 * b2 = a2 * b1 -> sq a1 b1 = sq a2 b2.
Proof.
  intros. apply Z.le_antisymm; apply sq_mono; lia.
Qed.

Lemma sq_sq a b c : 0 < b -> 0 < c -> sq (sq a b) (2 * c) = sq a (b * c).
Proof.
  intros Hb Hc. unfold sq.
  pose proof (Z.div_mod a b ltac:(lia)) as E1.
  pose proof (Z.mod_pos_bound a b Hb) as M1.
  set (q := a / b) in *. set (r := a mod b) in *.
  pose proof (Z.div_mod q c ltac:(lia)) as E2.
  pose proof (Z.mod_pos_bound q c Hc) as M2.
  set (q' := q / c) in *. set (r' := q mod c) in *.
  set (s := if r =? 0 then 0 else 1).
  assert (Hs : 0 <= s <= 1) by (unfold s; destruct (r =? 0); lia).
  assert (Hdiv : (2 * q + s) / (2 * c) = q').
  { symmetry. apply (Z.div_unique_pos _ _ _ (2 * r' + s)); lia. }
  assert (Hmod : (2 * q + s) mod (2 * c) = 2 * r' + s).
  { symmetry. apply (Z.mod_unique_pos _ _ q'); lia. }
  assert (Hdiv2 : a / (b * c) = q').
  { symmetry. apply (Z.div_unique_pos _ _ _ (b * r' + r)); nia. }
  assert (Hmod2 : a mod (b * c) = b * r' + r).
  { symmetry. apply (Z.mod_unique_pos _ _ q'); nia. }
  rewrite Hdiv, Hmod, Hdiv2, Hmod2.
  unfold s. destruct (Z.eqb_spec r 0), (Z.eqb_spec (2 * r' + 0) 0), (Z.eqb_spec (2 * r' + 1) 0), (Z.eqb_spec (b * r' + r) 0); try lia; nia.
Qed.

Lemma sq_div4 a b : 0 < b -> sq (2 * a) b / 4 = a / b.
Proof.
  intros Hb. unfold sq.
  pose proof (Z.div_mod a b ltac:(lia)) as E1.
  pose proof (Z.mod_pos_bound a b Hb) as M1.
  set (q := a / b) in *. set (r := a mod b) in *.
  pose proof (Z.div_mod (2 * r) b ltac:(lia)) as E2.
  pose proof (Z.mod_pos_bound (2 * r) b Hb) as M2.
  assert (H2q : (2 * a) / b = 2 * q + (2 * r) / b).
  { symmetry. apply (Z.div_unique_pos _ _ _ ((2 * r) mod b)); lia. }
  assert (Hlt : 0 <= (2 * r) / b <= 1).
  { split; [apply Z.div_pos; lia|].
    apply Z.lt_succ_r. apply Z.div_lt_upper_bound; lia. }
  rewrite H2q.
  set (s := if (2 * a) mod b =? 0 then 0 else 1).
  assert (Hs : 0 <= s <= 1) by (unfold s; destruct (_ =? 0); lia).
  symmetry. apply (Z.div_unique_pos _ _ _ (2 * ((2 * r) / b) + s)); lia.
Qed.

Lemma digits2_pos_log2 (p : positive) :
  Z.pos (digits2_pos p) = Z.log2 (Z.pos p) + 1.
Proof.
  induction p as [p IH|p IH|]; simpl; try reflexivity.
  - rewrite Pos2Z.inj_succ, IH. destruct p; simpl; lia.
  - rewrite Pos2Z.inj_succ, IH. destruct p; simpl; lia.
Qed.

Lemma Zdigits2_bounds (m : Z) :
  0 < m -> 2 ^ (Zdigits2 m - 1) <= m < 2 ^ Zdigits2 m.
Proof.
  intros Hm. destruct m as [|p|p]; try lia.
  simpl Zdigits2. rewrite digits2_pos_log2.
  replace (Z.log2 (Z.pos p) + 1 - 1) with (Z.log2 (Z.pos p)) by lia.
  pose proof (Z.log2_spec (Z.pos p) ltac:(lia)). 
  replace (Z.log2 (Z.pos p) + 1) with (Z.succ (Z.log2 (Z.pos p))) by lia. lia.
Qed.

Lemma Zdigits2_pos (m : Z) : 0 < m -> 0 < Zdigits2 m.
Proof. destruct m; simpl; lia. Qed.

Lemma Zdigits2_unique (m d : Z) :
  2 ^ (d - 1) <= m < 2 ^ d -> 0 < d -> Zdigits2 m = d.
Proof.
  intros H Hd.
  assert (Hm : 0 < m) by (pose proof (Z.pow_pos_nonneg 2 (d - 1)); lia).
  destruct m as [|p|p]; try lia. simpl. rewrite digits2_pos_log2.
  rewrite (Z.log2_unique (Z.pos p) (d - 1)); try lia.
  replace (Z.succ (d - 1)) with d by lia. lia.
Qed.

Lemma enc_div4 (r : shr_record) : enc r / 4 = shr_m r.
Proof.
  unfold enc. symmetry.
  apply (Z.div_unique_pos _ _ _ (2 * b2z (shr_r r) + b2z (shr_s r)));
    destruct (shr_r r), (shr_s r); simpl; lia.
Qed.

Lemma shr_1_enc (r : shr_record) :
  0 <= shr_m r -> enc (shr_1 r) = sq (enc r) 4 /\ 0 <= shr_m (shr_1 r).
Proof.
  intros Hm. unfold sq. rewrite enc_div4.
  assert (Hmod : enc r mod 4 = 2 * b2z (shr_r r) + b2z (shr_s r)).
  { unfold enc. symmetry. apply (Z.mod_unique_pos _ _ (shr_m r));
      destruct (shr_r r), (shr_s r); simpl; lia. }
  rewrite Hmod. destruct r as [m rb sb]. simpl in *.
  destruct m as [|[p|p|]|p]; try lia; destruct rb, sb; unfold enc; simpl; lia.
Qed.

Lemma pow2_xO (p : positive) : 2 ^ Z.pos p~0 = 2 ^ Z.pos p * 2 ^ Z.pos p.
Proof.
  replace (Z.pos p~0) with (Z.pos p + Z.pos p) by lia.
  apply Z.pow_add_r; lia.
Qed.

Lemma pow2_xI (p : positive) : 2 ^ Z.pos p~1 = 2 * (2 ^ Z.pos p * 2 ^ Z.pos p).
Proof.
  replace (Z.pos p~1) with (1 + (Z.pos p + Z.pos p)) by lia.
  rewrite !Z.pow_add_r by lia. reflexivity.
Qed.

Lemma iter_shr_1_enc (p : positive) :
  forall r, 0 <= shr_m r ->
    enc (SpecFloat.iter_pos shr_1 p r) = sq (enc r) (2 * 2 ^ Z.pos p)
    /\ 0 <= shr_m (SpecFloat.iter_pos shr_1 p r).
Proof.
  induction p as [p IH|p IH|]; intros r Hr; simpl SpecFloat.iter_pos.
  - destruct (shr_1_enc r Hr) as [E1 H1].
    destruct (IH _ H1) as [E2 H2]. destruct (IH _ H2) as [E3 H3].
    split; [|exact H3]. rewrite E3, E2, E1.
    assert (Hp : 0 < 2 ^ Z.pos p) by (apply Z.pow_pos_nonneg; lia).
    rewrite (sq_sq (enc r) 4 (2 ^ Z.pos p)) by lia.
    rewrite (sq_sq (enc r) (4 * 2 ^ Z.pos p) (2 ^ Z.pos p)) by lia.
    f_equal. rewrite pow2_xI. lia.
  - destruct (IH _ Hr) as [E2 H2]. destruct (IH _ H2) as [E3 H3].
    split; [|exact H3]. rewrite E3, E2.
    assert (Hp : 0 < 2 ^ Z.pos p) by (apply Z.pow_pos_nonneg; lia).
    rewrite (sq_sq (enc r) (2 * 2 ^ Z.pos p) (2 ^ Z.pos p)) by lia.
    f_equal. rewrite pow2_xO. lia.
  - destruct (shr_1_enc r Hr) as [E1 H1]. split; [|exact H1].
    rewrite E1. reflexivity.
Qed.

Lemma enc_of_loc (m : Z) (l : location) :
  enc (shr_record_of_loc m l) = 4 * m + loc_code l
  /\ shr_m (shr_record_of_loc m l) = m.
Proof. destruct l as [|[]]; unfold enc; simpl; split; lia. Qed.

Lemma rne_enc (r : shr_record) :
  round_nearest_even (shr_m r) (loc_of_shr_record r) = rne (enc r).
Proof.
  unfold rne. rewrite enc_div4.
  assert (Hmod : enc r mod 4 = 2 * b2z (shr_r r) + b2z (shr_s r)).
  { unfold enc. symmetry. apply (Z.mod_unique_pos _ _ (shr_m r));
      destruct (shr_r r), (shr_s r); simpl; lia. }
  rewrite Hmod. destruct r as [m [] []]; reflexivity.
Qed.

Lemma rne_bounds (T : Z) : T / 4 <= rne T <= T / 4 + 1.
Proof.
  unfold rne. destruct (T mod 4 <=? 1); [lia|].
  destruct (T mod 4 =? 2); [destruct (Z.even (T / 4))|]; lia.
Qed.

Lemma rne_4 (m : Z) : rne (4 * m) = m.
Proof.
  unfold rne. replace (4 * m) with (m * 4) by lia.
  rewrite Z.div_mul, Z.mod_mul by lia. reflexivity.
Qed.

Lemma rne_mono (T1 T2 : Z) : T1 <= T2 -> rne T1 <= rne T2.
Proof.
  intros H.
  pose proof (Z.div_mod T1 4 ltac:(lia)) as E1.
  pose proof (Z.div_mod T2 4 ltac:(lia)) as E2.
  pose proof (Z.mod_pos_bound T1 4 ltac:(lia)) as M1.
  pose proof (Z.mod_pos_bound T2 4 ltac:(lia)) as M2.
  pose proof (rne_bounds T1) as B1. pose proof (rne_bounds T2) as B2.
  assert (Hm : T1 / 4 < T2 / 4 \/ T1 / 4 = T2 / 4) by lia.
  destruct Hm as [Hm|Hm]; [lia|].
  unfold rne. rewrite Hm.
  destruct (Z.leb_spec (T1 mod 4) 1), (Z.leb_spec (T2 mod 4) 1); try lia.
  - destruct (T2 mod 4 =? 2); [destruct (Z.even (T2 / 4))|]; lia.
  - destruct (Z.eqb_spec (T1 mod 4) 2), (Z.eqb_spec (T2 mod 4) 2); try lia.
    destruct (Z.even (T2 / 4)); lia.
Qed.

Lemma sq_2 (T : Z) : sq T 2 = T.
Proof.
  unfold sq. pose proof (Z.div_mod T 2 ltac:(lia)).
  pose proof (Z.mod_pos_bound T 2 ltac:(lia)).
  destruct (Z.eqb_spec (T mod 2) 0); lia.
Qed.

Lemma shr_enc (r : shr_record) (e n : Z) :
  0 <= shr_m r ->
  enc (fst (shr r e n)) = sq (enc r) (2 * 2 ^ Z.max 0 n)
  /\ snd (shr r e n) = e + Z.max 0 n
  /\ 0 <= shr_m (fst (shr r e n)).
Proof.
  intros Hr. destruct n as [|p|p]; simpl shr; simpl fst; simpl snd.
  - change (2 * 2 ^ Z.max 0 0) with 2. rewrite sq_2. repeat split; lia.
  - destruct (iter_shr_1_enc p r Hr) as [E H].
    replace (Z.max 0 (Z.pos p)) with (Z.pos p) by lia. repeat split; auto.
  - replace (Z.max 0 (Z.neg p)) with 0 by lia.
    change (2 * 2 ^ 0) with 2. rewrite sq_2. repeat split; lia.
Qed.

Lemma fexp64_eq (e : Z) : fexp64 e = Z.max (e - 53) (-1074).
Proof. reflexivity. Qed.

Lemma binary_round_aux_eq (sx : bool) (mx ex : Z) (lx : location) :
  0 <= mx ->
  let T0 := 4 * mx + loc_code lx in
  let n1 := Z.max 0 (fexp64 (Zdigits2 mx + ex) - ex) in
  let m1 := rne (sq T0 (2 * 2 ^ n1)) in
  let e1 := ex + n1 in
  let n2 := Z.max 0 (fexp64 (Zdigits2 m1 + e1) - e1) in
  binary_round_aux prec emax sx mx ex lx = finish sx (m1 / 2 ^ n2) (e1 + n2)
  /\ 0 <= m1.
Proof.
  intros Hm. cbv zeta. unfold binary_round_aux, shr_fexp.
  change (fexp prec emax) with fexp64.
  destruct (enc_of_loc mx lx) as [E0 M0].
  assert (Hr0 : 0 <= shr_m (shr_record_of_loc mx lx)) by (rewrite M0; exact Hm).
  pose proof (shr_enc (shr_record_of_loc mx lx) ex
                (fexp64 (Zdigits2 mx + ex) - ex) Hr0) as (E1 & X1 & H1).
  destruct (shr (shr_record_of_loc mx lx) ex (fexp64 (Zdigits2 mx + ex) - ex))
    as [mrs' e'] eqn:Hshr1.
  simpl fst in *. simpl snd in *. subst e'.
  rewrite rne_enc, E1, E0.
  set (n1 := Z.max 0 (fexp64 (Zdigits2 mx + ex) - ex)).
  set (m1 := rne (sq (4 * mx + loc_code lx) (2 * 2 ^ n1))).
  assert (Hm1 : 0 <= m1).
  { pose proof (rne_bounds (sq (4 * mx + loc_code lx) (2 * 2 ^ n1))) as B.
    assert (0 <= sq (4 * mx + loc_code lx) (2 * 2 ^ n1)).
    { apply sq_nonneg; [destruct lx as [|[]]; cbn [loc_code]; lia|].
      assert (0 < 2 ^ n1) by (apply Z.pow_pos_nonneg; unfold n1; lia). lia. }
    pose proof (Z.div_pos (sq (4 * mx + loc_code lx) (2 * 2 ^ n1)) 4).
    unfold m1. lia. }
  destruct (enc_of_loc m1 loc_Exact) as [E2 M2].
  assert (Hr1 : 0 <= shr_m (shr_record_of_loc m1 loc_Exact))
    by (rewrite M2; exact Hm1).
  pose proof (shr_enc (shr_record_of_loc m1 loc_Exact) (ex + n1)
                (fexp64 (Zdigits2 m1 + (ex + n1)) - (ex + n1)) Hr1)
    as (E3 & X3 & H3).
  destruct (shr (shr_record_of_loc m1 loc_Exact) (ex + n1)
              (fexp64 (Zdigits2 m1 + (ex + n1)) - (ex + n1)))
    as [mrs'' e''] eqn:Hshr2.
  simpl fst in *. simpl snd in *. subst e''.
  set (n2 := Z.max 0 (fexp64 (Zdigits2 m1 + (ex + n1)) - (ex + n1))) in *.
  assert (Hm2 : shr_m mrs'' = m1 / 2 ^ n2).
  { rewrite <- enc_div4, E3, E2. simpl loc_code.
    assert (Hp : 0 < 2 ^ n2) by (apply Z.pow_pos_nonneg; unfold n2; lia).
    replace (4 * m1 + 0) with (sq (2 * m1) 1).
    - rewrite sq_sq by lia. rewrite Z.mul_1_l. apply sq_div4. exact Hp.
    - unfold sq. rewrite Z.div_1_r, Z.mod_1_r.
      change (0 =? 0) with true. cbv iota. lia. }
  rewrite Hm2. split; [reflexivity | exact Hm1].
Qed.

Lemma round_at_key (T c : Z) :
  canon T c -> sf_key (round_at false T c) = Some (round_key T c).
Proof.
  intros (Hc & HT & Hlt & Hn). unfold round_at, round_key.
  pose proof (rne_bounds T) as B.
  assert (H0 : 0 <= T / 4) by (apply Z.div_pos; lia).
  set (m1 := rne T) in *.
  destruct (Z.eqb_spec m1 0) as [E0|E0].
  - rewrite E0. simpl Zdigits2. rewrite fexp64_eq.
    replace (Z.max 0 (Z.max (0 + c - 53) (-1074) - c)) with 0 by lia.
    reflexivity.
  - assert (Hpos : 0 < m1) by lia.
    pose proof (Zdigits2_bounds m1 Hpos) as D.
    pose proof (Zdigits2_pos m1 Hpos) as Dp.
    destruct (Z.ltb_spec m1 (2 ^ 53)) as [Hs|Hs].
    + assert (Hd : Zdigits2 m1 <= 53).
      { destruct (Z.le_gt_cases (Zdigits2 m1) 53) as [|Hgt]; [assumption|].
        exfalso. assert (2 ^ 53 <= 2 ^ (Zdigits2 m1 - 1))
          by (apply Z.pow_le_mono_r; lia). lia. }
      rewrite fexp64_eq.
      replace (Z.max 0 (Z.max (Zdigits2 m1 + c - 53) (-1074) - c)) with 0 by lia.
      rewrite Z.pow_0_r, Z.div_1_r, Z.add_0_r.
      destruct m1 as [|p|p]; try lia. simpl.
      destruct (c <=? 971); reflexivity.
    + assert (Hm : m1 = 2 ^ 53) by lia.
      assert (Hd : Zdigits2 m1 = 54).
      { apply Zdigits2_unique; [|lia]. rewrite Hm. simpl. lia. }
      rewrite Hd, fexp64_eq.
      replace (Z.max 0 (Z.max (54 + c - 53) (-1074) - c)) with 1 by lia.
      rewrite Hm. change (2 ^ 53 / 2 ^ 1) with (2 ^ 52).
      change (2 ^ 52) with (Z.pos (2 ^ 52)%positive). cbn [finish].
      destruct (c + 1 <=? 971); reflexivity.
Qed.

Lemma round_key_mono (T1 c1 T2 c2 : Z) :
  canon T1 c1 -> canon T2 c2 ->
  c1 < c2 \/ (c1 = c2 /\ T1 <= T2) ->
  key_le (round_key T1 c1) (round_key T2 c2).
Proof.
  intros (Hc1 & HT1 & Hlt1 & Hn1) (Hc2 & HT2 & Hlt2 & Hn2) Hord.
  pose proof (rne_bounds T1) as B1. pose proof (rne_bounds T2) as B2.
  assert (H01 : 0 <= T1 / 4) by (apply Z.div_pos; lia).
  assert (H02 : 0 <= T2 / 4) by (apply Z.div_pos; lia).
  assert (Hm : rne T1 <= rne T2 \/ c1 < c2).
  { destruct Hord as [H|[_ H]]; [now right|left]. now apply rne_mono. }
  assert (Hbig : c1 < c2 -> 2 ^ 52 <= rne T2) by lia.
  unfold round_key, key_le, key_lt, key_eq.
  assert (P52 : 0 < 2 ^ 52) by (simpl; lia).
  assert (P53 : 2 ^ 53 = 2 * 2 ^ 52) by reflexivity.
  set (m1 := rne T1) in *. set (m2 := rne T2) in *.
  set (p52 := 2 ^ 52) in *. set (p53 := 2 ^ 53) in *.
  destruct (Z.eqb_spec m1 0), (Z.eqb_spec m2 0);
    destruct (Z.ltb_spec m1 p53), (Z.ltb_spec m2 p53);
    destruct (Z.leb_spec c1 971), (Z.leb_spec c2 971);
    destruct (Z.leb_spec (c1 + 1) 971), (Z.leb_spec (c2 + 1) 971);
    try lia.
Qed.

Lemma stands_for_order (T1 c1 T2 c2 wx1 wy1 wx2 wy2 : Z) :
  0 < wx1 -> 0 < wy1 -> 0 < wx2 -> 0 < wy2 ->
  canon T1 c1 -> canon T2 c2 ->
  stands_for T1 c1 wx1 wy1 -> stands_for T2 c2 wx2 wy2 ->
  wx1 * wy2 <= wx2 * wy1 ->
  c1 < c2 \/ (c1 = c2 /\ T1 <= T2).
Proof.
  intros Hx1 Hy1 Hx2 Hy2 (Hc1 & HT1 & Hlt1 & Hn1) (Hc2 & HT2 & Hlt2 & Hn2)
    (a1 & b1 & Hb1 & Ha1 & E1 & R1) (a2 & b2 & Hb2 & Ha2 & E2 & R2) Hle.
  assert (Q : 0 < 2 ^ 1074) by (apply Z.pow_pos_nonneg; lia).
  assert (P1 : 0 < 2 ^ (c1 + 1074)) by (apply Z.pow_pos_nonneg; lia).
  assert (P2 : 0 < 2 ^ (c2 + 1074)) by (apply Z.pow_pos_nonneg; lia).
  rewrite E1, sq_div4 in Hlt1, Hn1 by lia.
  rewrite E2, sq_div4 in Hlt2, Hn2 by lia.
  set (q := 2 ^ 1074) in *.
  set (p1 := 2 ^ (c1 + 1074)) in *. set (p2 := 2 ^ (c2 + 1074)) in *.
  destruct (Z.lt_trichotomy c1 c2) as [Hlt|[Heq|Hgt]].
  - now left.
  - right. split; [exact Heq|]. rewrite E1, E2.
    apply sq_mono; try lia.
    assert (Hp : p1 = p2) by (unfold p1, p2; now rewrite Heq).
    (* a1 * b2 <= a2 * b1, after multiplying by wy1 * wy2 * p *)
    assert (H1 : a1 * b2 * (wy1 * wy2 * p1) = b1 * b2 * q * (wx1 * wy2)) by nia.
    assert (H2 : a2 * b1 * (wy1 * wy2 * p1) = b1 * b2 * q * (wx2 * wy1)).
    { rewrite Hp. nia. }
    assert (H3 : b1 * b2 * q * (wx1 * wy2) <= b1 * b2 * q * (wx2 * wy1)).
    { apply Z.mul_le_mono_nonneg_l; [|exact Hle]. nia. }
    assert (H4 : 0 < wy1 * wy2 * p1) by nia.
    nia.
  - exfalso.
    assert (Hn1' : 2 ^ 52 <= a1 / b1) by lia.
    assert (Hp : 2 * p2 <= p1).
    { assert (Hsplit : p1 = 2 * p2 * 2 ^ (c1 - c2 - 1)).
      { unfold p1, p2. rewrite <- Z.pow_succ_r, <- Z.pow_add_r by lia.
        f_equal. lia. }
      assert (0 < 2 ^ (c1 - c2 - 1)) by (apply Z.pow_pos_nonneg; lia).
      nia. }
    set (k := 2 ^ 52) in *.
    assert (K53 : 2 ^ 53 = 2 * k) by reflexivity.
    assert (Hk : 0 < k) by (unfold k; simpl; lia).
    assert (A1 : k * b1 <= a1).
    { pose proof (Z.mul_div_le a1 b1 Hb1). nia. }
    assert (A2 : a2 < 2 * k * b2).
    { rewrite K53 in Hlt2.
      destruct (Z.lt_ge_cases a2 (2 * k * b2)) as [|Hge]; [assumption|].
      exfalso. assert (2 * k <= a2 / b2) by (apply Z.div_le_lower_bound; lia).
      lia. }
    (* wx1 * q >= 2 k wy1 p2 and wx2 * q < 2 k wy2 p2 *)
    assert (B0 : k * b1 * (2 * p2) <= a1 * p1)
      by (apply Z.mul_le_mono_nonneg; lia).
    assert (B1 : 2 * k * wy1 * p2 * b1 <= wx1 * q * b1).
    { replace (wx1 * q * b1) with (a1 * p1 * wy1) by lia.
      replace (2 * k * wy1 * p2 * b1) with (k * b1 * (2 * p2) * wy1) by lia.
      apply Z.mul_le_mono_nonneg_r; lia. }
    assert (B1' : 2 * k * wy1 * p2 <= wx1 * q) by nia.
    assert (B2 : wx2 * q * b2 < 2 * k * wy2 * p2 * b2).
    { replace (wx2 * q * b2) with (a2 * (wy2 * p2)) by lia.
      replace (2 * k * wy2 * p2 * b2) with (2 * k * b2 * (wy2 * p2)) by lia.
      apply Z.mul_lt_mono_pos_r; [nia | exact A2]. }
    assert (B2' : wx2 * q < 2 * k * wy2 * p2) by nia.
    assert (C1 : wx2 * q * wy1 < 2 * k * wy2 * p2 * wy1) by nia.
    assert (C2 : 2 * k * wy1 * p2 * wy2 <= wx1 * q * wy2) by nia.
    assert (C3 : wx1 * wy2 * q <= wx2 * wy1 * q) by nia.
    nia.
Qed.

Lemma sq_loc (q r b : Z) :
  0 <= r < b ->
  sq (2 * (q * b + r)) b
  = 4 * q + (if r =? 0 then 0
             else match 2 * r ?= b with Lt => 1 | Eq => 2 | Gt => 3 end).
Proof.
  intros Hr. unfold sq.
  destruct (Z.eqb_spec r 0) as [->|Hr0].
  - replace (2 * (q * b + 0)) with (2 * q * b) by lia.
    rewrite Z.div_mul, Z.mod_mul by lia.
      change (0 =? 0) with true. cbv iota. lia.
  - destruct (Z.compare_spec (2 * r) b) as [He|Hl|Hg].
    + replace (2 * (q * b + r)) with ((2 * q + 1) * b) by lia.
      rewrite Z.div_mul, Z.mod_mul by lia.
      change (0 =? 0) with true. cbv iota. lia.
    + assert (Hd : (2 * (q * b + r)) / b = 2 * q)
        by (symmetry; apply (Z.div_unique_pos _ _ _ (2 * r)); lia).
      assert (Hm : (2 * (q * b + r)) mod b = 2 * r)
        by (symmetry; apply (Z.mod_unique_pos _ _ (2 * q)); lia).
      rewrite Hd, Hm. destruct (Z.eqb_spec (2 * r) 0); lia.
    + assert (Hd : (2 * (q * b + r)) / b = 2 * q + 1)
        by (symmetry; apply (Z.div_unique_pos _ _ _ (2 * r - b)); lia).
      assert (Hm : (2 * (q * b + r)) mod b = 2 * r - b)
        by (symmetry; apply (Z.mod_unique_pos _ _ (2 * q + 1)); lia).
      rewrite Hd, Hm. destruct (Z.eqb_spec (2 * r - b) 0); lia.
Qed.

Lemma new_location_code (b r : Z) :
  0 <= r < b ->
  loc_code (new_location b r)
  = (if r =? 0 then 0
     else match 2 * r ?= b with Lt => 1 | Eq => 2 | Gt => 3 end).
Proof.
  intros Hr. unfold new_location, new_location_even, new_location_odd.
  destruct (Z.even b) eqn:Hev; destruct (Z.eqb_spec r 0) as [|Hr0];
    try reflexivity.
  assert (Hodd : Z.odd b = true) by (rewrite <- Z.negb_even, Hev; reflexivity).
  apply Z.odd_spec in Hodd. destruct Hodd as [k Hk].
  destruct (Z.compare_spec (2 * r + 1) b), (Z.compare_spec (2 * r) b);
    try reflexivity; lia.
Qed.

Lemma shifted_mantissa (m s : Z) :
  0 <= s ->
  match s with
  | 0 => m
  | Z.pos _ => Z.shiftl m s
  | Z.neg _ => 0
  end = m * 2 ^ s.
Proof.
  intros Hs. destruct s as [|p|p]; try lia.
  apply Z.shiftl_mul_pow2. lia.
Qed.

Lemma div_core_eq (mx my : positive) (ex ey : Z) :
  let E := Zdigits2 (Z.pos mx) + ex - (Zdigits2 (Z.pos my) + ey) in
  let e' := Z.min (fexp64 E) (ex - ey) in
  let A := Z.pos mx * 2 ^ (ex - ey - e') in
  exists l,
    SFdiv_core_binary prec emax (Z.pos mx) ex (Z.pos my) ey
    = (A / Z.pos my, e', l)
    /\ 4 * (A / Z.pos my) + loc_code l = sq (2 * A) (Z.pos my).
Proof.
  cbv zeta. unfold SFdiv_core_binary. change (fexp prec emax) with fexp64.
  set (E := Zdigits2 (Z.pos mx) + ex - (Zdigits2 (Z.pos my) + ey)).
  set (e' := Z.min (fexp64 E) (ex - ey)).
  set (s := ex - ey - e').
  assert (Hs : 0 <= s) by (unfold s, e'; lia).
  set (m' := match s with
             | 0 => Z.pos mx
             | Z.pos _ => Z.shiftl (Z.pos mx) s
             | Z.neg _ => 0
             end).
  assert (Hm' : m' = Z.pos mx * 2 ^ s) by (apply shifted_mantissa; exact Hs).
  assert (Hde : Z.div_eucl m' (Z.pos my) = (m' / Z.pos my, m' mod Z.pos my)).
  { unfold Z.div, Z.modulo. now destruct (Z.div_eucl m' (Z.pos my)). }
  rewrite Hde. rewrite <- Hm'.
  exists (new_location (Z.pos my) (m' mod Z.pos my)).
  split; [reflexivity|].
  pose proof (Z.mod_pos_bound m' (Z.pos my) ltac:(lia)) as Hr.
  rewrite (new_location_code _ _ Hr).
  rewrite <- (sq_loc (m' / Z.pos my) (m' mod Z.pos my) (Z.pos my) Hr).
  f_equal. f_equal. rewrite Z.mul_comm. symmetry. apply Z.div_mod. lia.
Qed.

Lemma pow2_pos (k : Z) : 0 <= k -> 0 < 2 ^ k.
Proof. intros. apply Z.pow_pos_nonneg; lia. Qed.

Lemma SFdiv_finite (sx sy : bool) (mx my : positive) (ex ey : Z) :
  -1074 <= ex -> -1074 <= ey ->
  exists T c,
    SFdiv prec emax (S754_finite sx mx ex) (S754_finite sy my ey)
    = round_at (xorb sx sy) T c
    /\ canon T c /\ stands_for T c (weight mx ex) (weight my ey).
Proof.
  intros Hex Hey. unfold SFdiv.
  destruct (div_core_eq mx my ex ey) as (l & Hcore & Hloc). cbv zeta in *.
  rewrite Hcore. clear Hcore.
  set (d1 := Zdigits2 (Z.pos mx)) in *. set (d2 := Zdigits2 (Z.pos my)) in *.
  set (E := d1 + ex - (d2 + ey)) in *.
  set (e' := Z.min (fexp64 E) (ex - ey)) in *.
  set (s := ex - ey - e') in *.
  assert (Hs : 0 <= s) by (unfold s, e'; lia).
  set (A := Z.pos mx * 2 ^ s) in *.
  set (q := A / Z.pos my) in *.
  assert (HA : 0 < A) by (pose proof (pow2_pos s Hs); unfold A; nia).
  assert (Hq : 0 <= q) by (apply Z.div_pos; lia).
  destruct (binary_round_aux_eq (xorb sx sy) q e' l Hq) as [Hbra _].
  cbv zeta in Hbra. rewrite Hloc in Hbra.
  set (n1 := Z.max 0 (fexp64 (Zdigits2 q + e') - e')) in *.
  assert (Hn1 : 0 <= n1) by (unfold n1; lia).
  pose proof (pow2_pos n1 Hn1) as Pn1.
  assert (HT : sq (sq (2 * A) (Z.pos my)) (2 * 2 ^ n1)
               = sq (2 * A) (Z.pos my * 2 ^ n1)) by (apply sq_sq; lia).
  rewrite HT in Hbra.
  exists (sq (2 * A) (Z.pos my * 2 ^ n1)), (e' + n1).
  split; [exact Hbra|]. split.
  - (* canonical *)
    pose proof (fexp64_eq (Zdigits2 q + e')) as HF.
    pose proof (fexp64_eq E) as HFE.
    assert (Hdiv : sq (2 * A) (Z.pos my * 2 ^ n1) / 4 = q / 2 ^ n1).
    { rewrite sq_div4 by lia. unfold q. rewrite Z.div_div by lia. reflexivity. }
    unfold canon. rewrite Hdiv.
    split; [unfold n1; lia|]. split; [apply sq_nonneg; lia|]. split.
    + destruct (Z.eq_dec q 0) as [Hq0|Hq0].
      * rewrite Hq0. rewrite Z.div_0_l by lia. simpl. lia.
      * pose proof (Zdigits2_bounds q ltac:(lia)) as D.
        apply Z.div_lt_upper_bound; [lia|].
        rewrite <- Z.pow_add_r by lia.
        assert (2 ^ Zdigits2 q <= 2 ^ (n1 + 53))
          by (apply Z.pow_le_mono_r; unfold n1; lia).
        lia.
    + destruct (Z.eq_dec (e' + n1) (-1074)) as [|Hc]; [now left|right].
      destruct (Z.le_gt_cases e' (fexp64 (Zdigits2 q + e'))) as [Hle|Hgt].
      * (* the quotient is shifted to 53 digits *)
        assert (Hn : n1 = fexp64 (Zdigits2 q + e') - e') by (unfold n1; lia).
        assert (Hq0 : 0 < q).
        { destruct (Z.eq_dec q 0) as [Hq0|Hq0]; [|lia].
          exfalso. rewrite Hq0 in HF, Hn, Hle. simpl Zdigits2 in *. lia. }
        pose proof (Zdigits2_bounds q Hq0) as D.
        assert (Hd : Zdigits2 q = n1 + 53) by lia.
        apply Z.div_le_lower_bound; [lia|].
        rewrite <- Z.pow_add_r by lia.
        replace (n1 + 52) with (Zdigits2 q - 1) by lia. lia.
      * (* no shift: the quotient has at least 53 digits *)
        assert (Hn : n1 = 0) by (unfold n1; lia).
        rewrite Hn, Z.pow_0_r, Z.div_1_r.
        assert (He' : e' <= E - 53) by (unfold e'; lia).
        pose proof (Zdigits2_bounds (Z.pos mx) ltac:(lia)) as D1.
        pose proof (Zdigits2_bounds (Z.pos my) ltac:(lia)) as D2.
        fold d1 in D1. fold d2 in D2.
        assert (Hd1 : 0 < d1) by (apply Zdigits2_pos; lia).
        assert (Hd2 : 0 < d2) by (apply Zdigits2_pos; lia).
        apply Z.div_le_lower_bound; [lia|].
        assert (Hpow : 2 ^ (d2 + 52) <= 2 ^ (d1 - 1) * 2 ^ s).
        { rewrite <- Z.pow_add_r by lia. apply Z.pow_le_mono_r; unfold s, E in *; lia. }
        assert (Hsplit : 2 ^ (d2 + 52) = 2 ^ d2 * 2 ^ 52)
          by (apply Z.pow_add_r; lia).
        pose proof (pow2_pos s Hs) as Ps.
        assert (2 ^ (d1 - 1) * 2 ^ s <= A) by (unfold A; nia).
        assert (Z.pos my * 2 ^ 52 <= 2 ^ d2 * 2 ^ 52) by nia.
        lia.
  - (* the ratio *)
    exists A, (Z.pos my * 2 ^ n1).
    split; [lia|]. split; [lia|]. split; [reflexivity|].
    unfold weight, A.
    assert (Hpow : 2 ^ s * 2 ^ (ey + 1074) * 2 ^ (e' + n1 + 1074)
                   = 2 ^ n1 * 2 ^ (ex + 1074) * 2 ^ 1074).
    { assert (Hc : -1074 <= e' + n1).
      { pose proof (fexp64_eq (Zdigits2 q + e')). unfold n1. lia. }
      rewrite <- !Z.pow_add_r by lia. f_equal. unfold s. lia. }
    set (p1 := 2 ^ s) in *. set (p2 := 2 ^ (ey + 1074)) in *.
    set (p3 := 2 ^ (e' + n1 + 1074)) in *. set (p4 := 2 ^ n1) in *.
    set (p5 := 2 ^ (ex + 1074)) in *. set (p6 := 2 ^ 1074) in *.
    replace (Z.pos mx * p1 * (Z.pos my * p2) * p3)
      with (Z.pos mx * Z.pos my * (p1 * p2 * p3)) by ring.
    rewrite Hpow. ring.
Qed.

Lemma round_key_nonneg (T c : Z) : key_le (0, 0, 0) (round_key T c).
Proof.
  unfold round_key, key_le, key_lt, key_eq.
  destruct (rne T =? 0); [right; lia|].
  destruct (rne T <? 2 ^ 53).
  - destruct (c <=? 971); left; lia.
  - destruct (c + 1 <=? 971); left; lia.
Qed.

(** The quotient of two positive finite floats grows with the ratio of
    their values. *)
Lemma SFdiv_mono (mx1 my1 mx2 my2 : positive) (ex1 ey1 ex2 ey2 : Z) :
  -1074 <= ex1 -> -1074 <= ey1 -> -1074 <= ex2 -> -1074 <= ey2 ->
  weight mx1 ex1 * weight my2 ey2 <= weight mx2 ex2 * weight my1 ey1 ->
  exists k1 k2,
    sf_key (SFdiv prec emax (S754_finite false mx1 ex1) (S754_finite false my1 ey1))
    = Some k1
    /\ sf_key (SFdiv prec emax (S754_finite false mx2 ex2) (S754_finite false my2 ey2))
       = Some k2
    /\ key_le k1 k2 /\ key_le (0, 0, 0) k1.
Proof.
  intros Hx1 Hy1 Hx2 Hy2 Hle.
  destruct (SFdiv_finite false false mx1 my1 ex1 ey1 Hx1 Hy1)
    as (T1 & c1 & E1 & C1 & R1).
  destruct (SFdiv_finite false false mx2 my2 ex2 ey2 Hx2 Hy2)
    as (T2 & c2 & E2 & C2 & R2).
  rewrite E1, E2. simpl xorb.
  rewrite (round_at_key T1 c1 C1), (round_at_key T2 c2 C2).
  exists (round_key T1 c1), (round_key T2 c2).
  split; [reflexivity|]. split; [reflexivity|].
  split; [|apply round_key_nonneg].
  apply round_key_mono; try assumption.
  assert (W : forall m e, -1074 <= e -> 0 < weight m e).
  { intros m e He. unfold weight. pose proof (pow2_pos (e + 1074) ltac:(lia)). nia. }
  apply (stands_for_order T1 c1 T2 c2 (weight mx1 ex1) (weight my1 ey1)
           (weight mx2 ex2) (weight my2 ey2)); auto.
Qed.

(** The mantissa and the exponent of a valid finite float. *)
Lemma valid_finite (s : bool) (m : positive) (e : Z) :
  SpecFloat.valid_binary prec emax (S754_finite s m e) = true ->
  -1074 <= e <= 971 /\ Z.pos m < 2 ^ 53 /\ (e = -1074 \/ 2 ^ 52 <= Z.pos m).
Proof.
  unfold SpecFloat.valid_binary, bounded, canonical_mantissa.
  change (fexp prec emax) with fexp64. intros H.
  apply andb_true_iff in H. destruct H as [Hc Hb].
  apply Z.eqb_eq in Hc. apply Z.leb_le in Hb.
  rewrite fexp64_eq in Hc. change (emax - prec) with 971 in Hb.
  pose proof (Zdigits2_bounds (Z.pos m) ltac:(lia)) as D.
  change (Z.pos (digits2_pos m)) with (Zdigits2 (Z.pos m)) in Hc.
  set (d := Zdigits2 (Z.pos m)) in *.
  split; [lia|]. split.
  - assert (2 ^ d <= 2 ^ 53) by (apply Z.pow_le_mono_r; lia). lia.
  - destruct (Z.eq_dec e (-1074)) as [|He]; [now left|right].
    assert (Hd : d = 53) by lia. rewrite Hd in D. exact (proj1 D).
Qed.

(** On valid positive finite floats the order of keys is the order of
    values. *)
Lemma weight_order (m1 m2 : positive) (e1 e2 : Z) :
  SpecFloat.valid_binary prec emax (S754_finite false m1 e1) = true ->
  SpecFloat.valid_binary prec emax (S754_finite false m2 e2) = true ->
  key_le (1, e1, Z.pos m1) (1, e2, Z.pos m2) ->
  weight m1 e1 <= weight m2 e2.
Proof.
  intros V1 V2 H.
  apply valid_finite in V1. destruct V1 as (He1 & Hm1 & Hn1).
  apply valid_finite in V2. destruct V2 as (He2 & Hm2 & Hn2).
  unfold weight. unfold key_le, key_lt, key_eq in H.
  assert (Hcases : e1 < e2 \/ (e1 = e2 /\ Z.pos m1 <= Z.pos m2)) by lia.
  destruct Hcases as [Hlt|[-> Hm]].
  - pose proof (pow2_pos (e1 + 1074) ltac:(lia)) as P1.
    assert (Hp : 2 * 2 ^ (e1 + 1074) <= 2 ^ (e2 + 1074)).
    { rewrite <- Z.pow_succ_r by lia. apply Z.pow_le_mono_r; lia. }
    assert (K53 : 2 ^ 53 = 2 * 2 ^ 52) by reflexivity.
    assert (Hm2' : 2 ^ 52 <= Z.pos m2) by lia.
    set (k := 2 ^ 52) in *. set (p1 := 2 ^ (e1 + 1074)) in *.
    set (p2 := 2 ^ (e2 + 1074)) in *.
    assert (Z.pos m1 * p1 <= 2 * k * p1) by nia.
    assert (k * (2 * p1) <= Z.pos m2 * p2) by (apply Z.mul_le_mono_nonneg; lia).
    lia.
  - pose proof (pow2_pos (e2 + 1074) ltac:(lia)) as P. nia.
Qed.

(** [binary_round_aux] of a mantissa that is not negative is a float
    with the given sign, never NaN. *)
Lemma binary_round_aux_key (mx ex : Z) (lx : location) :
  0 <= mx ->
  exists k, sf_key (binary_round_aux prec emax false mx ex lx) = Some k
            /\ key_le (0, 0, 0) k.
Proof.
  intros Hm. destruct (binary_round_aux_eq false mx ex lx Hm) as [E H1].
  cbv zeta in *. rewrite E. unfold finish.
  set (m1 := rne _) in *. set (n2 := Z.max 0 _).
  assert (H2 : 0 <= m1 / 2 ^ n2).
  { apply Z.div_pos; [exact H1|]. apply pow2_pos. unfold n2. lia. }
  destruct (m1 / 2 ^ n2) as [|p|p]; try lia.
  - eexists. split; [reflexivity|]. right. simpl. lia.
  - destruct (_ <=? 971); eexists; (split; [reflexivity|]); left; simpl; lia.
Qed.

(** ** Division on the floats of [SpecFloat] *)

Lemma SFdiv_nonneg (x y : spec_float) :
  sf_valid x -> sf_valid y ->
  sf_le (S754_zero false) x -> sf_lt (S754_zero false) y ->
  ~ (sf_inf x /\ sf_inf y) ->
  sf_le (S754_zero false) (SFdiv prec emax x y).
Proof.
  unfold sf_le, sf_lt, sf_inf, sf_valid. intros Vx Vy Hx Hy Hinf.
  destruct x as [sx|sx| |sx mx ex], y as [sy|sy| |sy my ey];
    try destruct sx; try destruct sy;
    cbn [sf_key] in Hx, Hy; unfold key_le, key_lt, key_eq in Hx, Hy;
    try lia; try tauto;
    try (cbn; unfold key_le, key_lt, key_eq; lia).
  apply valid_finite in Vx, Vy.
  destruct (SFdiv_mono mx my mx my ex ey ex ey) as (k1 & k2 & E1 & _ & _ & H0);
    try lia.
  rewrite E1. exact H0.
Qed.

Lemma sf_key_le_inf (x : spec_float) (k : Z * Z * Z) :
  sf_key x = Some k -> key_le k (2, 0, 0).
Proof.
  destruct x as [s|s| |s m e]; try destruct s; simpl; intros [= <-];
    unfold key_le, key_lt, key_eq; lia.
Qed.

Lemma sf_le_trans0 (x : spec_float) (k : Z * Z * Z) :
  sf_key x = Some k -> key_le (0, 0, 0) k -> sf_le (S754_zero false) x.
Proof. intros E H. unfold sf_le. rewrite E. exact H. Qed.

(** Division is monotone in the dividend and antitone in the divisor, on
    dividends that are not negative and divisors that are positive. *)
Lemma SFdiv_le (x1 x2 y1 y2 : spec_float) :
  sf_valid x1 -> sf_valid x2 -> sf_valid y1 -> sf_valid y2 ->
  sf_le (S754_zero false) x1 -> sf_le x1 x2 ->
  sf_lt (S754_zero false) y2 -> sf_le y2 y1 ->
  ~ (sf_inf x1 /\ sf_inf y1) -> ~ (sf_inf x2 /\ sf_inf y2) ->
  sf_le (SFdiv prec emax x1 y1) (SFdiv prec emax x2 y2).
Proof.
  intros Vx1 Vx2 Vy1 Vy2 H0 Hx Hy0 Hy I1 I2.
  assert (Hx2 : sf_le (S754_zero false) x2).
  { unfold sf_le in *. cbn [sf_key] in *.
    destruct (sf_key x1) as [[[? ?] ?]|], (sf_key x2) as [[[? ?] ?]|];
      try tauto. unfold key_le, key_lt, key_eq in *. lia. }
  assert (Hy1 : sf_lt (S754_zero false) y1).
  { unfold sf_le, sf_lt in *. cbn [sf_key] in *.
    destruct (sf_key y1) as [[[? ?] ?]|], (sf_key y2) as [[[? ?] ?]|];
      try tauto. unfold key_le, key_lt, key_eq in *. lia. }
  pose proof (SFdiv_nonneg x1 y1 Vx1 Vy1 H0 Hy1 I1) as N1.
  pose proof (SFdiv_nonneg x2 y2 Vx2 Vy2 Hx2 Hy0 I2) as N2.
  unfold sf_le, sf_lt, sf_inf, sf_valid in *.
  destruct x1 as [sx1|sx1| |sx1 mx1 ex1]; try destruct sx1;
    cbn [sf_key] in H0, Hx; unfold key_le, key_lt, key_eq in H0;
    try lia; try tauto.
  - (* a zero dividend *)
    destruct y1 as [sy1|sy1| |sy1 my1 ey1]; try destruct sy1;
      cbn [sf_key] in Hy1; unfold key_lt in Hy1; try lia; try tauto;
      cbn [SFdiv sf_key xorb] in *;
      destruct (sf_key (SFdiv prec emax x2 y2)) as [[[? ?] ?]|]; try tauto;
      unfold key_le, key_lt, key_eq in *; lia.
  - destruct y1 as [sy1|sy1| |sy1 my1 ey1]; try destruct sy1;
      cbn [sf_key] in Hy1; unfold key_lt in Hy1; try lia; try tauto;
      cbn [SFdiv sf_key xorb] in *;
      destruct (sf_key (SFdiv prec emax x2 y2)) as [[[? ?] ?]|]; try tauto;
      unfold key_le, key_lt, key_eq in *; lia.
  - (* an infinite dividend: the divisors are finite *)
    destruct x2 as [sx2|sx2| |sx2 mx2 ex2]; try destruct sx2;
      cbn [sf_key] in Hx; unfold key_le, key_lt, key_eq in Hx;
      try lia; try tauto.
    destruct y1 as [sy1|sy1| |sy1 my1 ey1]; try destruct sy1;
      cbn [sf_key] in Hy1, Hy; unfold key_lt in Hy1; try lia; try tauto.
    destruct y2 as [sy2|sy2| |sy2 my2 ey2]; try destruct sy2;
      cbn [sf_key] in Hy0, Hy; unfold key_le, key_lt, key_eq in Hy0, Hy;
      try lia; try tauto.
    cbn. unfold key_le, key_lt, key_eq. lia.
  - (* a finite dividend *)
    destruct y1 as [sy1|sy1| |sy1 my1 ey1]; try destruct sy1;
      cbn [sf_key] in Hy1, Hy; unfold key_lt in Hy1; try lia; try tauto.
    (* a finite divisor too: the smaller divisor is finite *)
    destruct y2 as [sy2|sy2| |sy2 my2 ey2]; try destruct sy2;
      cbn [sf_key] in Hy0, Hy; unfold key_le, key_lt, key_eq in Hy0, Hy;
      try lia; try tauto.
    destruct x2 as [sx2|sx2| |sx2 mx2 ex2]; try destruct sx2;
      cbn [sf_key] in Hx; unfold key_le, key_lt, key_eq in Hx;
      try lia; try tauto.
    + (* the greater dividend is infinite *)
      set (r1 := SFdiv prec emax (S754_finite false mx1 ex1)
                   (S754_finite false my1 ey1)) in *.
      cbn [SFdiv sf_key xorb].
      destruct (sf_key r1) as [k|] eqn:Hk; [|tauto].
      exact (sf_key_le_inf r1 k Hk).
    + (* four finite floats *)
      pose proof (weight_order mx1 mx2 ex1 ex2 Vx1 Vx2
                    ltac:(unfold key_le, key_lt, key_eq; lia)) as W1.
      pose proof (weight_order my2 my1 ey2 ey1 Vy2 Vy1
                    ltac:(unfold key_le, key_lt, key_eq; lia)) as W2.
      apply valid_finite in Vx1, Vx2, Vy1, Vy2.
      assert (P : forall m e, -1074 <= e -> 0 < weight m e).
      { intros m e He. unfold weight.
        pose proof (pow2_pos (e + 1074) ltac:(lia)). nia. }
      destruct (SFdiv_mono mx1 my1 mx2 my2 ex1 ey1 ex2 ey2)
        as (k1 & k2 & E1 & E2 & Hle & _); try lia.
      { pose proof (P mx1 ex1 ltac:(lia)). pose proof (P my2 ey2 ltac:(lia)).
        apply Z.mul_le_mono_nonneg; lia. }
      rewrite E1, E2. exact Hle.
Qed.

(** ** Division and multiplication on floats *)

Lemma fle_sf_le (x y : float) : fle x y <-> sf_le (Prim2SF x) (Prim2SF y).
Proof.
  unfold fle, flt, feq, fkey, sf_le, key_le.
  destruct (sf_key (Prim2SF x)), (sf_key (Prim2SF y)); tauto.
Qed.

Lemma flt_sf_lt (x y : float) : flt x y <-> sf_lt (Prim2SF x) (Prim2SF y).
Proof. reflexivity. Qed.

Lemma Prim2SF_zero : Prim2SF 0 = S754_zero false.
Proof. reflexivity. Qed.

(** Division is monotone in the dividend and antitone in the divisor. *)
Lemma fdiv_le (x1 x2 y1 y2 : float) :
  fle 0 x1 -> fle x1 x2 -> flt 0 y2 -> fle y2 y1 ->
  ~ (finf x1 /\ finf y1) -> ~ (finf x2 /\ finf y2) ->
  fle (x1 / y1) (x2 / y2).
Proof.
  rewrite !fle_sf_le, flt_sf_lt, !FloatAxioms.div_spec, Prim2SF_zero.
  intros. apply SFdiv_le; try assumption; apply FloatAxioms.Prim2SF_valid.
Qed.

Lemma fdiv_nonneg (x y : float) :
  fle 0 x -> flt 0 y -> ~ (finf x /\ finf y) -> fle 0 (x / y).
Proof.
  rewrite !fle_sf_le, flt_sf_lt, !FloatAxioms.div_spec, Prim2SF_zero.
  intros. apply SFdiv_nonneg; try assumption; apply FloatAxioms.Prim2SF_valid.
Qed.

Lemma finf_key (x : float) : finf x <-> fkey x = Some (2, 0, 0).
Proof.
  unfold finf, fkey. destruct (Prim2SF x) as [s|s| |s m e]; try destruct s;
    simpl; split; congruence.
Qed.

(** A quotient whose dividend is NaN, or whose operands are both
    infinite, is NaN. *)
Lemma fdiv_nan_l (x y : float) : fkey x = None -> fkey (x / y) = None.
Proof.
  unfold fkey. rewrite FloatAxioms.div_spec.
  destruct (Prim2SF x) as [s|s| |s m e]; try destruct s; simpl; try discriminate.
  reflexivity.
Qed.

Lemma fdiv_inf_inf (x y : float) : finf x -> finf y -> fkey (x / y) = None.
Proof.
  unfold finf, fkey. rewrite FloatAxioms.div_spec. intros -> ->. reflexivity.
Qed.

(** An infinite dividend and a positive divisor: infinity or NaN. *)
Lemma fdiv_inf_l (x y : float) :
  finf x -> flt 0 y -> fkey (x / y) = None \/ fkey (x / y) = Some (2, 0, 0).
Proof.
  unfold finf, flt, fkey. rewrite FloatAxioms.div_spec, Prim2SF_zero.
  intros ->. destruct (Prim2SF y) as [s|s| |s m e]; try destruct s; simpl;
    unfold key_lt; intros H; try lia; try tauto.
Qed.

(** A product of two floats that are not negative is not negative, or
    NaN (zero times infinity). *)
Lemma fmul_nonneg (x y : float) :
  fle 0 x -> fle 0 y -> fkey (x * y) = None \/ fle 0 (x * y).
Proof.
  rewrite !fle_sf_le, Prim2SF_zero. unfold fkey, sf_le.
  rewrite FloatAxioms.mul_spec. unfold SF64mul.
  destruct (Prim2SF x) as [sx|sx| |sx mx ex], (Prim2SF y) as [sy|sy| |sy my ey];
    try destruct sx; try destruct sy; cbn [sf_key];
    unfold key_le, key_lt, key_eq; intros Hx Hy; try lia; try tauto;
    try (cbn; unfold key_le, key_lt, key_eq; right; lia);
    try (cbn; now left).
  right. cbn [SFmul xorb].
  destruct (binary_round_aux_key (Z.pos (mx * my)) (ex + ey) loc_Exact ltac:(lia))
    as (k & -> & Hk).
  exact Hk.
Qed.

(** ** The delay as a function of the speed *)

Lemma finf_dec (x : float) : finf x \/ ~ finf x.
Proof.
  unfold finf. destruct (Prim2SF x) as [s|s| |s m e]; try destruct s;
    (left; reflexivity) || (right; discriminate).
Qed.

Lemma fkey_le_inf (x : float) (k : Z * Z * Z) :
  fkey x = Some k -> key_le k (2, 0, 0).
Proof. apply sf_key_le_inf. Qed.

(** Only infinity is above infinity. *)
Lemma finf_le (x y : float) : finf x -> fle x y -> finf y.
Proof.
  rewrite !finf_key. intros Hx Hxy. unfold fle, flt, feq in Hxy. rewrite Hx in Hxy.
  destruct (fkey y) as [[[a b] c]|] eqn:Hy; [|tauto].
  pose proof (fkey_le_inf y _ Hy) as Hle.
  unfold key_le, key_lt, key_eq in *. f_equal.
  assert (a = 2 /\ b = 0 /\ c = 0) as (-> & -> & ->) by lia. reflexivity.
Qed.

Lemma finf_literal (c : float) :
  fkey c <> Some (2, 0, 0) -> forall x, ~ (finf x /\ finf c).
Proof. intros Hc x [_ H]. now apply finf_key in H. Qed.

Lemma max_nan_r (a x : float) : fkey x = None -> Py.max a x = a.
Proof.
  intros Hx. unfold Py.max.
  assert ((a <? x)%float = false) as ->; [|reflexivity].
  apply ltb_false. unfold flt. rewrite Hx. destruct (fkey a); tauto.
Qed.

Lemma min_nan_r (a x : float) : fkey x = None -> Py.min a x = a.
Proof.
  intros Hx. unfold Py.min.
  assert ((x <? a)%float = false) as ->; [|reflexivity].
  apply ltb_false. unfold flt. rewrite Hx. tauto.
Qed.

Lemma min_inf_r (a x : float) : finf x -> Py.min a x = a.
Proof.
  rewrite finf_key. intros Hx. unfold Py.min.
  assert ((x <? a)%float = false) as ->; [|reflexivity].
  apply ltb_false. unfold flt. rewrite Hx.
  destruct (fkey a) as [[[p q] r]|] eqn:Ha; [|tauto].
  pose proof (fkey_le_inf a _ Ha) as Hle.
  unfold key_le, key_lt, key_eq in *. lia.
Qed.

Lemma max_id_l (a b : float) : fle b a -> Py.max a b = a.
Proof.
  intros H. unfold Py.max.
  assert ((a <? b)%float = false) as ->; [|reflexivity].
  float_order.
Qed.

Lemma max_lower (a x : float) : fle a a -> fle a (Py.max a x).
Proof.
  intros Ha. unfold Py.max. destruct (a <? x)%float eqn:E; float_order.
Qed.

Lemma max_mono_r (a x y : float) :
  fle a a -> fle x y -> fle (Py.max a x) (Py.max a y).
Proof.
  intros Ha Hxy. unfold Py.max.
  destruct (a <? x)%float eqn:E1; destruct (a <? y)%float eqn:E2; float_order.
Qed.

Lemma min_mono (a b x y : float) :
  fle a b -> fle x y -> fle (Py.min a x) (Py.min b y).
Proof.
  intros Hab Hxy. unfold Py.min.
  destruct (x <? a)%float eqn:E1; destruct (y <? b)%float eqn:E2; float_order.
Qed.

Lemma speed_nonneg (s : float) : fle 0.1 s -> fle 0 s /\ flt 0 s.
Proof. intros H. split; float_order. Qed.

Lemma flt_0_of_ge_1 (x : float) : fle 1 x -> flt 0 x /\ fle 0 x.
Proof. intros H. split; float_order. Qed.

Lemma fle_refl_r (x y : float) : fle x y -> fle y y.
Proof. intros H. float_order. Qed.

Lemma fle_refl_l (x y : float) : fle x y -> fle x x.
Proof. intros H. float_order. Qed.

Lemma float_constants :
  fle 1 1 /\ fle 20 20 /\ fle 10 10 /\ flt 0 10 /\ fkey 10 <> Some (2, 0, 0).
Proof. repeat split; try float_order. vm_compute. discriminate. Qed.

(** The dynamic maximum does not grow with the speed. *)
Lemma dynamicMax_antitone (cfg : config) (s1 s2 : float) :
  fle 0 (MAX_EMIT_DELAY_MS cfg) -> fle 0.1 s1 -> fle s1 s2 ->
  fle (Spec.dynamicMax cfg s2) (Spec.dynamicMax cfg s1).
Proof.
  intros Hmax H1 H12. unfold Spec.dynamicMax.
  destruct float_constants as (H11 & H20 & H10 & H010 & Hten).
  destruct (speed_nonneg s1 H1) as [H01 _].
  assert (fle (s1 / 10) (s2 / 10)) as Ht.
  { apply fdiv_le; try assumption; now apply finf_literal. }
  pose proof (max_mono_r 1 _ _ H11 Ht) as Hm.
  pose proof (max_lower 1 (s1 / 10) H11) as Hm1.
  set (m1 := Py.max 1 (s1 / 10)) in *. set (m2 := Py.max 1 (s2 / 10)) in *.
  clearbody m1 m2. clear Ht H1 H12 H01.
  set (M := MAX_EMIT_DELAY_MS cfg) in *. clearbody M.
  destruct (flt_0_of_ge_1 m1 Hm1) as [Hp _].
  pose proof (fle_refl_r _ _ Hmax) as HMM.
  destruct (finf_dec M) as [HM|HM]; [destruct (finf_dec m2) as [H2|H2]|].
  - rewrite (max_nan_r 20 (M / m2)) by now apply fdiv_inf_inf.
    now apply max_lower.
  - apply max_mono_r; [exact H20|].
    apply fdiv_le; try assumption; try tauto.
    intros [_ Hi]. apply H2. now apply (finf_le m1).
  - apply max_mono_r; [exact H20|].
    apply fdiv_le; try assumption; tauto.
Qed.

Lemma fmul_nan_l (x y : float) : fkey x = None -> fkey (x * y) = None.
Proof.
  unfold fkey. rewrite FloatAxioms.mul_spec.
  destruct (Prim2SF x) as [s|s| |s m e]; try destruct s; simpl; try discriminate.
  reflexivity.
Qed.

(** The normalized gap of a delta of at least 1 is not negative, or it
    is NaN (an infinite delta over an infinite reference, or an infinite
    quotient times a base of zero). *)
Lemma normalized_sign (cfg : config) (delta : float) :
  flt 0 (REFERENCE_DELTA_MS cfg) -> fle 0 (BASE_DELAY_MS cfg) -> fle 1 delta ->
  let normalized := (delta / REFERENCE_DELTA_MS cfg * BASE_DELAY_MS cfg)%float in
  fkey normalized = None \/ fle 0 normalized.
Proof.
  intros Href Hbase Hdelta normalized. subst normalized.
  destruct (flt_0_of_ge_1 delta Hdelta) as [_ H0].
  destruct (finf_dec delta) as [Hd|Hd];
    [destruct (finf_dec (REFERENCE_DELTA_MS cfg)) as [Hr|Hr]|].
  - left. apply fmul_nan_l. now apply fdiv_inf_inf.
  - apply fmul_nonneg; [|exact Hbase]. apply fdiv_nonneg; tauto.
  - apply fmul_nonneg; [|exact Hbase]. apply fdiv_nonneg; tauto.
Qed.

(** For a fixed delta of at least 1 the delay does not grow with the
    speed, from a speed of 0.1 on. *)
Lemma delay_antitone (cfg : config) (delta s1 s2 : float) :
  flt 0 (REFERENCE_DELTA_MS cfg) -> fle 0 (BASE_DELAY_MS cfg) ->
  fle 0 (MAX_EMIT_DELAY_MS cfg) -> fle (MIN_EMIT_DELAY_MS cfg) 20 ->
  fle 1 delta -> fle 0.1 s1 -> fle s1 s2 ->
  fle (Spec.delay cfg delta s2) (Spec.delay cfg delta s1).
Proof.
  intros Href Hbase Hmax Hmin Hdelta H1 H12.
  pose proof (dynamicMax_antitone cfg s1 s2 Hmax H1 H12) as Hdyn.
  pose proof (normalized_sign cfg delta Href Hbase Hdelta) as HN.
  unfold Spec.delay, Spec.clamp. cbv zeta in HN |- *.
  set (N := (delta / REFERENCE_DELTA_MS cfg * BASE_DELAY_MS cfg)%float) in *.
  set (hi1 := Spec.dynamicMax cfg s1) in *. set (hi2 := Spec.dynamicMax cfg s2) in *.
  set (lo := MIN_EMIT_DELAY_MS cfg) in *.
  clearbody N hi1 hi2 lo. clear Href Hbase Hmax Hdelta.
  pose proof (fle_refl_l _ _ Hmin) as Hlo. clear Hmin.
  assert (fle 0.1 s2) as H2.
  { clear - H1 H12. float_order. }
  rewrite (max_id_l s1 0.1 H1), (max_id_l s2 0.1 H2).
  destruct (speed_nonneg s1 H1) as [_ Hp1].
  destruct (speed_nonneg s2 H2) as [_ Hp2]. clear H1 H2.
  destruct HN as [HN|HN].
  - rewrite (min_nan_r hi1 (N / s1)), (min_nan_r hi2 (N / s2))
      by now apply fdiv_nan_l.
    now apply max_mono_r.
  - destruct (finf_dec N) as [Hi|Hi]; [destruct (finf_dec s2) as [Hs|Hs]|].
    + rewrite (min_nan_r hi2 (N / s2)) by now apply fdiv_inf_inf.
      assert (Py.min hi1 (N / s1) = hi1) as ->.
      { destruct (fdiv_inf_l N s1 Hi Hp1) as [E|E].
        - now apply min_nan_r.
        - apply min_inf_r. now apply finf_key. }
      now apply max_mono_r.
    + apply max_mono_r; [exact Hlo|]. apply min_mono; [exact Hdyn|].
      apply fdiv_le; try assumption; try tauto.
      * now apply (fle_refl_r 0).
      * intros [_ Hi1]. apply Hs. now apply (finf_le s1).
    + apply max_mono_r; [exact Hlo|]. apply min_mono; [exact Hdyn|].
      apply fdiv_le; try assumption; try tauto.
      now apply (fle_refl_r 0).
Qed.

Lemma config_ok_inv (cfg : config) :
  config_ok cfg = true ->
  (0 <? REFERENCE_DELTA_MS cfg)%float = true
  /\ (0 <=? BASE_DELAY_MS cfg)%float = true
  /\ (0 <=? MAX_EMIT_DELAY_MS cfg)%float = true
  /\ (MIN_EMIT_DELAY_MS cfg <=? 20)%float = true.
Proof.
  unfold config_ok. rewrite !andb_true_iff. tauto.
Qed.

Lemma positive_nonzero (x : float) :
  (0 <? x)%float = true -> (x =? 0)%float = false.
Proof. intros H. float_order. Qed.

(** C6, as the code has it.  With a positive reference delta, a base
    delay and a maximum that are not negative and a minimum of at most
    20 (the defaults are such), the delay computation raises nothing
    and: for every gap
    between two timestamps, hence for every [delta_ms = max(1.0, gap)]
    the loop computes, the delay does not grow with the speed, from a
    speed of 0.1 on; and for every delta and every speed the delay lies
    between the minimum and
    [max(20, MAX_EMIT_DELAY_MS / max(1, speed / 10))]. *)
Theorem pacing_delay_monotone_and_bounded (cfg : config) :
  config_ok cfg = true ->
  (forall gap s1 s2 : float,
      (0.1 <=? s1)%float = true -> (s1 <=? s2)%float = true ->
      exists d1 d2 : float,
        pacing_delay cfg (Py.max 1 gap) s1 = Py.Ok d1
        /\ pacing_delay cfg (Py.max 1 gap) s2 = Py.Ok d2
        /\ (d2 <=? d1)%float = true)
  /\ (forall delta speed : float,
         exists d : float,
           pacing_delay cfg delta speed = Py.Ok d
           /\ (MIN_EMIT_DELAY_MS cfg <=? d)%float = true
           /\ (d <=? Py.max 20 (MAX_EMIT_DELAY_MS cfg / Py.max 1 (speed / 10)))%float
              = true).
Proof.
  intros Hcfg. destruct (config_ok_inv cfg Hcfg) as (Href & Hbase & Hmax & Hmin).
  pose proof (positive_nonzero _ Href) as Hnz.
  split.
  - intros gap s1 s2 H1 H12.
    exists (Spec.delay cfg (Py.max 1 gap) s1), (Spec.delay cfg (Py.max 1 gap) s2).
    rewrite !pacing_delay_spec by exact Hnz.
    split; [reflexivity|]. split; [reflexivity|].
    apply leb_fle. apply delay_antitone; try (now apply leb_fle || apply ltb_flt).
    apply max_lower. now destruct float_constants.
  - intros delta speed. exists (Spec.delay cfg delta speed).
    rewrite pacing_delay_spec by exact Hnz.
    split; [reflexivity|]. exact (delay_bounds cfg delta speed Hmin).
Qed.

Lemma pacing_delay_monotone_and_bounded_witness :
  config_ok default_config = true
  /\ exists d1 d2 : float,
       pacing_delay default_config (Py.max 1 900000) 1 = Py.Ok d1
       /\ pacing_delay default_config (Py.max 1 900000) 10 = Py.Ok d2
       /\ (d2 <=? d1)%float = true.
Proof.
  split; [reflexivity|].
  exact (proj1 (pacing_delay_monotone_and_bounded default_config eq_refl)
           900000%float 1%float 10%float eq_refl eq_refl).
Defined.

(** C6 as stated fails for tunables the environment can set.  With a
    minimum of 50 ms the delay of a 15 minute gap at the speed 1000 is
    50 ms, above the dynamic maximum of 20 ms.  With a base delay of
    -400 ms (and a minimum of -1000 ms) the delay of a 15 minute gap
    grows with the speed: -400 ms at the speed 1, -40 ms at the speed
    10. *)
Lemma delay_outside_the_bounds :
  pacing_delay high_minimum_config 900000 1000 = Py.Ok 50%float
  /\ Spec.dynamicMax high_minimum_config 1000 = 20%float
  /\ (50 <=? 20)%float = false
  /\ pacing_delay negative_base_config 900000 1 = Py.Ok (-400)%float
  /\ pacing_delay negative_base_config 900000 10 = Py.Ok (-40)%float
  /\ (-40 <=? -400)%float = false.
Proof. repeat split; vm_compute; reflexivity. Qed.

(** The delta of the loop is never below 1.  For a delta the loop cannot
    produce, minus infinity, the raw delay at an infinite speed is NaN,
    which [min] and [max] turn into the dynamic maximum: the delay is
    then above the one at speed 1. *)
Lemma delay_of_an_infinite_negative_delta :
  pacing_delay default_config neg_infinity 1 = Py.Ok 1%float
  /\ pacing_delay default_config neg_infinity infinity = Py.Ok 20%float.
Proof. split; vm_compute; reflexivity. Qed.

(* ================================================================== *)
(** * Further properties of the handler *)
(* ================================================================== *)

(** ** The order of the checks of the setup *)

(** X1.  The setup checks [symbol] and [timeframe] first, then the
    cursor: when [symbol] or [timeframe] is missing or empty the handler
    accepts, sends the one ERROR message that names them and closes,
    whatever the other parameters are and whatever is received later;
    when both are given and [after] (or [from], when [after] is missing or
    empty) is not an integer, it sends the one ERROR message about
    [after/from] and closes, whatever [indicators] holds. *)
Theorem setup_validation_order (cfg : config) (rt : runtime)
    (params : query_params) :
  (Py.truthy_str (params "symbol") && Py.truthy_str (params "timeframe") = false ->
   forall inputs,
     _handle_candle_stream cfg rt params inputs
     = [Accept;
        SendJson (MsgError "symbol and timeframe query params are required");
        Close])
  /\ (Py.truthy_str (params "symbol") && Py.truthy_str (params "timeframe") = true ->
      forall a,
        Py.or_str (params "after") (params "from") = Some a ->
        Py.is_ok (Py.int_of_str (int_of_text rt) a) = false ->
        forall inputs,
          _handle_candle_stream cfg rt params inputs
          = [Accept;
             SendJson (MsgError "after/from must be a unix epoch in milliseconds");
             Close]).
Proof.
  split.
  - intros H inputs. unfold _handle_candle_stream, setup.
    destruct (params "symbol") as [sym|]; [|reflexivity].
    destruct (params "timeframe") as [tf|]; [|reflexivity].
    rewrite H. reflexivity.
  - intros H a Ha Hbad inputs. unfold _handle_candle_stream, setup.
    destruct (params "symbol") as [sym|]; [|discriminate].
    destruct (params "timeframe") as [tf|];
      [|simpl in H; rewrite andb_false_r in H; discriminate].
    rewrite H, Ha. destruct (Py.int_of_str (int_of_text rt) a); [discriminate|]. reflexivity.
Qed.

(** An instance as [read_spec] builds it: a new average with a period of
    at least one, an empty window, and a warmup of the period less one. *)
Lemma read_spec_fresh (rt : runtime) (spec : json) (i : instance) :
  read_spec rt spec = SpecAppend i ->
  1 <= period (impl i) /\ window (impl i) = [] /\ sum (impl i) = 0%float
  /\ warmup i = period (impl i) - 1 /\ Json.truthy (inst_id i) = true.
Proof.
  intros H. apply read_spec_append_inv in H.
  destruct H as (kvs & pkvs & z & _ & _ & _ & _ & ->). simpl.
  repeat split; try lia.
  destruct (Json.truthy (Json.get "id" kvs)) eqn:E; [exact E|].
  reflexivity.
Qed.

Lemma read_specs_fresh (rt : runtime) (specs : list json) (insts : list instance) :
  read_specs rt specs [] = Py.Ok insts ->
  Forall (fun i => 1 <= period (impl i) /\ window (impl i) = []
                   /\ sum (impl i) = 0%float
                   /\ warmup i = period (impl i) - 1
                   /\ Json.truthy (inst_id i) = true) insts.
Proof.
  intros H. apply read_specs_appended in H. simpl in H. subst insts.
  unfold appended. apply Forall_flat_map. apply Forall_forall. intros spec _.
  destruct (read_spec rt spec) as [|i|e] eqn:E; constructor; [|constructor].
  now apply (read_spec_fresh rt spec).
Qed.

Lemma read_spec_raise_inv (rt : runtime) (spec : json) (e : Py.exn) :
  read_spec rt spec = SpecRaise e -> e = Py.AttributeError \/ e = Py.OverflowError.
Proof.
  destruct spec as [| | | | | |kvs]; simpl; try discriminate.
  destruct (negb _); [discriminate|].
  destruct (if Json.truthy (Json.get "params" kvs)
            then Json.get "params" kvs else JDict [])
    as [| | | | | |pkvs]; try (intros [= <-]; now left).
  destruct (Json.get_default "period" (JInt 20) pkvs) as [|b|z|f|s|xs|d];
    simpl; try discriminate.
  - unfold Py.int_of_float. destruct (Prim2SF f); try discriminate.
    intros [= <-]. now right.
  - destruct (Py.int_of_str (int_of_text rt) s) as [z|e0] eqn:E; [discriminate|].
    apply int_of_str_raises in E. subst e0. discriminate.
Qed.

Lemma read_specs_raise_inv (rt : runtime) (specs : list json) :
  forall acc e, read_specs rt specs acc = Py.Raise e ->
                e = Py.AttributeError \/ e = Py.OverflowError.
Proof.
  induction specs as [|spec rest IH]; simpl; intros acc e H; [discriminate|].
  destruct (read_spec rt spec) as [|i|e0] eqn:E.
  - now apply (IH acc).
  - now apply (IH (acc ++ [i])).
  - injection H as <-. now apply (read_spec_raise_inv rt spec).
Qed.

Lemma read_indicators_inv (rt : runtime) (raw : option string) :
  match read_indicators rt raw with
  | None => True
  | Some (Py.Raise e) =>
      e = Py.AttributeError \/ e = Py.OverflowError
      \/ exists text, raw = Some text /\ json_loads rt text = LoadsRaise e
  | Some (Py.Ok insts) =>
      Forall (fun i => 1 <= period (impl i) /\ window (impl i) = []
                       /\ sum (impl i) = 0%float
                       /\ warmup i = period (impl i) - 1
                       /\ Json.truthy (inst_id i) = true) insts
  end.
Proof.
  unfold read_indicators. destruct raw as [text|]; [|constructor].
  destruct (Py.truthy_str (Some text)); [|constructor].
  destruct (json_loads rt text) as [[| | | | |specs|]| |e] eqn:El;
    try apply Forall_nil; try exact I.
  - destruct (read_specs rt specs []) as [insts|e] eqn:E.
    + now apply (read_specs_fresh rt specs).
    + destruct (read_specs_raise_inv rt specs [] e E) as [H|H]; tauto.
  - right. right. now exists text.
Qed.

(** X2.  The three outcomes of the setup.  A rejection has sent exactly
    one ERROR message, between the accept and the close.  An exception
    that leaves the setup is an [AttributeError] or an [OverflowError]
    of the loop over the specifications, or the exception that
    [json.loads] raised on the [indicators] text when it is not
    [JSONDecodeError] (a [ValueError] for an integer of more than 4300
    digits, a [RecursionError]), and nothing was sent.  A session that
    starts has sent nothing: it
    has the symbol and the timeframe of the query, both not empty, the
    dataset of [datasetId] or else [dataset_id], the clamped batch size,
    a cursor that is the integer read from [after] or [from] (none when
    both are missing), it is not paused, no row was sent, and every
    instance is new: a period of at least one, an empty window, a sum of
    zero, a warmup of the period less one, and an id that is truthy. *)
Theorem setup_outcomes (cfg : config) (rt : runtime) (params : query_params) :
  match setup cfg rt params with
  | (evs, Rejected) => exists m, evs = [Accept; SendJson (MsgError m); Close]
  | (evs, Crashed e) =>
      evs = [Accept]
      /\ (e = Py.AttributeError \/ e = Py.OverflowError
          \/ exists raw, params "indicators" = Some raw
                         /\ json_loads rt raw = LoadsRaise e)
  | (evs, Started s) =>
      evs = [Accept]
      /\ params "symbol" = Some (symbol s) /\ symbol s <> ""
      /\ params "timeframe" = Some (timeframe s) /\ timeframe s <> ""
      /\ dataset_id s = Py.or_str (params "datasetId") (params "dataset_id")
      /\ batch_size s = clamp_batch_size cfg rt (params "batch")
      /\ paused s = false /\ listening s = true /\ last_sent_ts s = None
      /\ match Py.or_str (params "after") (params "from") with
         | Some a => exists z, Py.int_of_str (int_of_text rt) a = Py.Ok z
                               /\ last_timestamp s = Some (NInt z)
         | None => last_timestamp s = None
         end
      /\ Forall (fun i => 1 <= period (impl i) /\ window (impl i) = []
                          /\ sum (impl i) = 0%float
                          /\ warmup i = period (impl i) - 1
                          /\ Json.truthy (inst_id i) = true)
           (indicator_instances s)
  end.
Proof.
  unfold setup.
  destruct (params "symbol") as [sym|]; [|eauto].
  destruct (params "timeframe") as [tf|]; [|eauto].
  destruct (Py.truthy_str (Some sym) && Py.truthy_str (Some tf)) eqn:Ht; [|eauto].
  apply andb_true_iff in Ht. destruct Ht as [Hs Ht]. simpl in Hs, Ht.
  assert (sym <> "") as Hsym.
  { intros ->. discriminate. }
  assert (tf <> "") as Htf.
  { intros ->. discriminate. }
  pose proof (read_indicators_inv rt (params "indicators")) as Hind.
  destruct (Py.or_str (params "after") (params "from")) as [a|].
  - destruct (Py.int_of_str (int_of_text rt) a) as [z|]; [|eauto].
    destruct (read_indicators rt (params "indicators")) as [[insts|e]|]; [| |eauto].
    + simpl. repeat split; try assumption. now exists z.
    + now split.
  - destruct (read_indicators rt (params "indicators")) as [[insts|e]|]; [| |eauto].
    + simpl. repeat split; assumption.
    + now split.
Qed.

Lemma int_of_float_overflow (f : float) :
  Py.int_of_float f = Py.Raise Py.OverflowError <-> is_inf f = true.
Proof.
  unfold Py.int_of_float, is_inf.
  destruct (Prim2SF f); split; congruence.
Qed.

Lemma read_spec_raises_iff (rt : runtime) (spec : json) (e : Py.exn) :
  read_spec rt spec = SpecRaise e <->
  exists kvs,
    spec = JDict kvs /\ Json.get "type" kvs = JStr "sma"
    /\ ((Json.truthy (Json.get "params" kvs) = true
         /\ Json.is_dict (Json.get "params" kvs) = false
         /\ e = Py.AttributeError)
        \/ (exists pkvs f,
              (if Json.truthy (Json.get "params" kvs)
               then Json.get "params" kvs else JDict []) = JDict pkvs
              /\ Json.get_default "period" (JInt 20) pkvs = JFloat f
              /\ is_inf f = true /\ e = Py.OverflowError)).
Proof.
  split.
  - destruct spec as [| | | | | |kvs]; simpl; try discriminate.
    destruct (Json.eq_str (Json.get "type" kvs) "sma") eqn:Ht; simpl;
      [|discriminate].
    apply eq_str_true in Ht. intros H. exists kvs. split; [reflexivity|].
    split; [exact Ht|].
    destruct (Json.truthy (Json.get "params" kvs)) eqn:Hp.
    + destruct (Json.get "params" kvs) as [| | | | | |pkvs];
        try (injection H as <-; left; now repeat split).
      right. exists pkvs.
      destruct (Json.get_default "period" (JInt 20) pkvs) as [|b|z|f|s|xs|d];
        simpl in H; try discriminate.
      * exists f. unfold Py.int_of_float in H. unfold is_inf.
        destruct (Prim2SF f); try discriminate.
        injection H as <-. now repeat split.
      * destruct (Py.int_of_str (int_of_text rt) s) as [z|e0] eqn:Hs; [discriminate|].
        apply int_of_str_raises in Hs. subst e0. discriminate.
    + right. exists [].
      cbn in H. discriminate.
  - intros (kvs & -> & Ht & [(Hp & Hd & ->)|(pkvs & f & Hp & Hf & Hi & ->)]);
      simpl; apply eq_str_true in Ht; rewrite Ht; simpl.
    + rewrite Hp. destruct (Json.get "params" kvs); try reflexivity.
      discriminate.
    + rewrite Hp, Hf. simpl. apply int_of_float_overflow in Hi. now rewrite Hi.
Qed.

Lemma read_specs_raise_first (rt : runtime) (specs : list json) :
  forall acc e,
    read_specs rt specs acc = Py.Raise e <->
    exists pre spec post,
      specs = pre ++ spec :: post
      /\ Forall (fun x => forall e', read_spec rt x <> SpecRaise e') pre
      /\ read_spec rt spec = SpecRaise e.
Proof.
  induction specs as [|x rest IH]; intros acc e; simpl.
  - split; [discriminate|]. intros (pre & spec & post & H & _).
    now destruct pre.
  - split.
    + destruct (read_spec rt x) as [|i|e0] eqn:Ex.
      * intros H. apply IH in H. destruct H as (pre & spec & post & -> & Hpre & Hs).
        exists (x :: pre), spec, post. split; [reflexivity|]. split; [|exact Hs].
        constructor; [|exact Hpre]. intros e'. rewrite Ex. discriminate.
      * intros H. apply IH in H. destruct H as (pre & spec & post & -> & Hpre & Hs).
        exists (x :: pre), spec, post. split; [reflexivity|]. split; [|exact Hs].
        constructor; [|exact Hpre]. intros e'. rewrite Ex. discriminate.
      * intros [= <-]. exists [], x, rest. split; [reflexivity|].
        split; [constructor | exact Ex].
    + intros (pre & spec & post & H & Hpre & Hs).
      destruct pre as [|y pre]; simpl in H; injection H as -> ->.
      * now rewrite Hs.
      * inversion Hpre as [|? ? Hy Hrest]; subst.
        destruct (read_spec rt y) as [|i|e0] eqn:Ey.
        -- apply IH. now exists pre, spec, post.
        -- apply IH. now exists pre, spec, post.
        -- now destruct (Hy e0).
Qed.

(** X3.  The indicator specifications that make the handler raise.  A
    specification raises exactly when it is a dict of type "sma" whose
    [params] is truthy and not a dict ([AttributeError]: the value has no
    [get]) or whose period is an infinite float ([OverflowError] of
    [int], which the [except] clause does not name); the loop over the
    specifications raises at the first such entry; and the handler has
    then accepted the connection and sent nothing: no ERROR message, no
    close. *)
Theorem indicator_specs_that_raise (cfg : config) (rt : runtime) :
  (forall spec e,
     read_spec rt spec = SpecRaise e <->
     exists kvs,
       spec = JDict kvs /\ Json.get "type" kvs = JStr "sma"
       /\ ((Json.truthy (Json.get "params" kvs) = true
            /\ Json.is_dict (Json.get "params" kvs) = false
            /\ e = Py.AttributeError)
           \/ (exists pkvs f,
                 (if Json.truthy (Json.get "params" kvs)
                  then Json.get "params" kvs else JDict []) = JDict pkvs
                 /\ Json.get_default "period" (JInt 20) pkvs = JFloat f
                 /\ is_inf f = true /\ e = Py.OverflowError)))
  /\ (forall specs e,
        read_specs rt specs [] = Py.Raise e <->
        exists pre spec post,
          specs = pre ++ spec :: post
          /\ Forall (fun x => forall e', read_spec rt x <> SpecRaise e') pre
          /\ read_spec rt spec = SpecRaise e)
  /\ (forall params raw specs e inputs,
        Py.truthy_str (params "symbol") && Py.truthy_str (params "timeframe") = true ->
        match Py.or_str (params "after") (params "from") with
        | Some a => Py.is_ok (Py.int_of_str (int_of_text rt) a) = true
        | None => True
        end ->
        params "indicators" = Some raw -> raw <> "" ->
        json_loads rt raw = Decoded (JList specs) ->
        read_specs rt specs [] = Py.Raise e ->
        setup cfg rt params = ([Accept], Crashed e)
        /\ _handle_candle_stream cfg rt params inputs = [Accept]).
Proof.
  split; [exact (read_spec_raises_iff rt)|]. split; [intros; apply read_specs_raise_first|].
  intros params raw specs e inputs Hst Hafter Hraw Hne Hloads Hraise.
  assert (setup cfg rt params = ([Accept], Crashed e)) as Hsetup.
  { unfold setup.
    destruct (params "symbol") as [sym|]; [|discriminate].
    destruct (params "timeframe") as [tf|];
      [|simpl in Hst; rewrite andb_false_r in Hst; discriminate].
    rewrite Hst.
    assert (read_indicators rt (params "indicators") = Some (Py.Raise e)) as ->.
    { unfold read_indicators.
      now rewrite Hraw, (truthy_str_some raw Hne), Hloads, Hraise. }
    destruct (Py.or_str (params "after") (params "from")) as [a|]; [|reflexivity].
    destruct (Py.int_of_str (int_of_text rt) a); [reflexivity | discriminate]. }
  split; [exact Hsetup|]. unfold _handle_candle_stream. now rewrite Hsetup.
Qed.

(** ** The control listener *)

Lemma to_float_raises (rt : runtime) (v : json) (e : Py.exn) :
  Json.to_float (float_of_str rt) v = Py.Raise e ->
  e = Py.TypeError \/ e = Py.ValueError
  \/ (e = Py.OverflowError
      /\ exists z, v = JInt z /\ Py.float_of_int z = Py.Raise Py.OverflowError).
Proof.
  destruct v as [|b|z|f|s|xs|d]; simpl; try discriminate;
    try (intros [= <-]; now left).
  - unfold Py.float_of_int.
    destruct (is_infinity _) eqn:E; [|discriminate].
    intros [= <-]. right. right. split; [reflexivity|]. exists z.
    split; [reflexivity|]. unfold Py.float_of_int. now rewrite E.
  - destruct (float_of_str rt s); [discriminate|]. intros [= <-]. right. now left.
Qed.

Lemma stopped_listener (rt : runtime) (cs : list ctrl_input) :
  forall s, listening s = false -> fold_left (control_listener rt) cs s = s.
Proof.
  induction cs as [|c cs IH]; simpl; intros s Hs; [reflexivity|].
  assert (control_listener rt s c = s) as ->; [|now apply IH].
  unfold control_listener. now rewrite Hs.
Qed.

Lemma paused_forever (cfg : config) (rt : runtime) (inputs : list input) :
  forall s,
    listening s = false -> paused s = true ->
    run cfg rt s inputs = (paused_sleeps inputs, Py.Ok s).
Proof.
  induction inputs as [|i inputs IH]; simpl; intros s Hl Hp; [reflexivity|].
  destruct i as [c|fetched]; simpl.
  - assert (control_listener rt s c = s) as ->.
    { unfold control_listener. now rewrite Hl. }
    now rewrite (IH s Hl Hp).
  - unfold iteration. rewrite Hp. now rewrite (IH s Hl Hp).
Qed.

(** X4.  The control listener stops (its task returns) exactly on an
    exception of [receive_json] and on a SET_SPEED whose [speed] is an
    integer too large for a float ([OverflowError], caught by
    [except Exception]).  Once it has stopped, no message changes the
    session any more; in particular a session that is paused then stays
    paused: whatever arrives, each turn of the loop only sleeps 0.05 s
    and no row is ever sent again. *)
Theorem listener_stops (rt : runtime) :
  (forall s i,
     listening s = true ->
     (listening (control_listener rt s i) = false <->
      i = CtrlRaise
      \/ exists kvs z,
           i = CtrlJson (JDict kvs)
           /\ Json.get "type" kvs = JStr "SET_SPEED"
           /\ Json.get "speed" kvs = JInt z
           /\ Py.float_of_int z = Py.Raise Py.OverflowError))
  /\ (forall s cs,
        listening s = false -> fold_left (control_listener rt) cs s = s)
  /\ (forall cfg s inputs,
        listening s = false -> paused s = true ->
        run cfg rt s inputs = (paused_sleeps inputs, Py.Ok s)).
Proof.
  split; [|split].
  - intros s i Hl. unfold control_listener. rewrite Hl. simpl negb. cbv iota.
    destruct i as [v|].
    + destruct v as [|b|z|f|str|xs|kvs];
        try (split; [congruence | intros [H|(kvs & z0 & H & _)]; discriminate H]).
      destruct (Json.eq_str (Json.get "type" kvs) "SET_SPEED") eqn:Ht.
      * apply eq_str_true in Ht.
        destruct (Json.to_float (float_of_str rt) (Json.get "speed" kvs))
          as [f|e] eqn:Hf.
        -- simpl. split; [congruence|].
           intros [H|(kvs0 & z & [= <-] & _ & Hz & Ho)]; [discriminate|].
           rewrite Hz in Hf. simpl in Hf. congruence.
        -- destruct (to_float_raises rt _ e Hf) as [->|[->|(-> & z & Hz & Ho)]].
           ++ split; [congruence|].
              intros [H|(kvs0 & z & [= <-] & _ & Hz & Ho)]; [discriminate|].
              rewrite Hz in Hf. simpl in Hf. congruence.
           ++ split; [congruence|].
              intros [H|(kvs0 & z & [= <-] & _ & Hz & Ho)]; [discriminate|].
              rewrite Hz in Hf. simpl in Hf. congruence.
           ++ simpl. split; [|reflexivity]. intros _. right.
              now exists kvs, z.
      * assert (listening
                  (if Json.eq_str (Json.get "type" kvs) "PAUSE"
                   then with_paused s true
                   else if Json.eq_str (Json.get "type" kvs) "PLAY"
                        then with_paused s false else s) = true) as ->.
        { destruct (Json.eq_str (Json.get "type" kvs) "PAUSE"); [exact Hl|].
          destruct (Json.eq_str (Json.get "type" kvs) "PLAY"); exact Hl. }
        split; [discriminate|].
        intros [H|(kvs0 & z & [= <-] & Ht' & _)]; [discriminate|].
        apply eq_str_true in Ht'. congruence.
    + simpl. split; [now left | reflexivity].
  - intros s cs. apply stopped_listener.
  - intros cfg s inputs. apply paused_forever.
Qed.

(** ** The replay loop *)

(** What one row emits: its CANDLE message, first, when the instances
    were updated; nothing when an update raised. *)
Lemma process_row_events (cfg : config) (rt : runtime) (s : session)
    (r : Candle.t) (cs : list ctrl_input) :
  match process_row cfg rt s r cs with
  | (evs, Py.Ok _) =>
      exists p, (evs = [SendJson (MsgCandle p)]
                 \/ exists d, evs = [SendJson (MsgCandle p); Sleep d])
                /\ row p = r
  | (evs, Py.Raise _) =>
      evs = [] \/ exists p, evs = [SendJson (MsgCandle p)] /\ row p = r
  end.
Proof.
  unfold process_row.
  destruct (update_instances (indicator_instances s) (Candle.close r) [])
    as [[insts d]|]; [|now left].
  destruct (last_sent_ts (fold_left (control_listener rt) cs s)) as [last|].
  - destruct (pacing_delay cfg _ _) as [delay|].
    + eexists. split; [right; eexists; reflexivity | reflexivity].
    + right. eexists. split; reflexivity.
  - eexists. split; [now left | reflexivity].
Qed.

Lemma sent_rows_app (xs ys : list event) :
  sent_rows (xs ++ ys) = sent_rows xs ++ sent_rows ys.
Proof. unfold sent_rows. apply flat_map_app. Qed.

Lemma process_rows_sent (cfg : config) (rt : runtime)
    (rows : list (Candle.t * list ctrl_input)) :
  forall s,
    match process_rows cfg rt s rows with
    | (evs, Py.Ok _) => sent_rows evs = map fst rows
    | (evs, Py.Raise _) =>
        exists k, (k < List.length rows)%nat
                  /\ (sent_rows evs = firstn k (map fst rows)
                      \/ sent_rows evs = firstn (S k) (map fst rows))
    end.
Proof.
  induction rows as [|[r cs] rows IH]; intros s; simpl; [reflexivity|].
  pose proof (process_row_events cfg rt s r cs) as Hrow.
  destruct (process_row cfg rt s r cs) as [evs1 [s1|e]].
  - specialize (IH s1).
    assert (sent_rows evs1 = [r]) as H1.
    { destruct Hrow as (p & [-> | [d ->]] & <-); reflexivity. }
    destruct (process_rows cfg rt s1 rows) as [evs2 [s2|e]].
    + rewrite sent_rows_app, H1, IH. reflexivity.
    + destruct IH as (k & Hk & IH). exists (S k). split; [lia|].
      rewrite sent_rows_app, H1. simpl.
      destruct IH as [-> | ->]; [now left | now right].
  - exists 0%nat. split; [lia|].
    destruct Hrow as [-> | (p & -> & <-)]; [now left | now right].
Qed.

(** X6.  One turn of the loop sends every row of the batch once, in the
    order of the batch, with the fields it was fetched with, whatever
    control messages are handled meanwhile: a PAUSE that arrives while a
    batch is being sent does not stop it, [paused] is read between
    batches only.  When the session is paused at the start of the turn
    nothing of the batch is sent (it is not even fetched).  When a row
    raises, what was sent is a prefix of the batch. *)
Theorem rows_are_sent_in_order (cfg : config) (rt : runtime) (s : session)
    (fetched : list (Candle.t * list ctrl_input)) :
  match iteration cfg rt s fetched with
  | (evs, Py.Ok _) =>
      sent_rows evs = if paused s then [] else map fst fetched
  | (evs, Py.Raise _) =>
      paused s = false
      /\ exists k, (k <= List.length fetched)%nat
                   /\ sent_rows evs = firstn k (map fst fetched)
  end.
Proof.
  unfold iteration. destruct (paused s); [reflexivity|].
  destruct fetched as [|row rows]; [reflexivity|].
  pose proof (process_rows_sent cfg rt (row :: rows) s) as H.
  destruct (process_rows cfg rt s (row :: rows)) as [evs [s1|e]].
  - rewrite sent_rows_app, H. simpl. now rewrite app_nil_r.
  - split; [reflexivity|]. destruct H as (k & Hk & [H|H]).
    + exists k. split; [lia | exact H].
    + exists (S k). split; [lia | exact H].
Qed.

Lemma process_rows_loop_events (cfg : config) (rt : runtime)
    (rows : list (Candle.t * list ctrl_input)) :
  forall s, forallb loop_event (fst (process_rows cfg rt s rows)) = true.
Proof.
  induction rows as [|[r cs] rows IH]; intros s; simpl; [reflexivity|].
  pose proof (process_row_events cfg rt s r cs) as Hrow.
  destruct (process_row cfg rt s r cs) as [evs1 [s1|e]].
  - specialize (IH s1). destruct (process_rows cfg rt s1 rows) as [evs2 res].
    simpl in *. rewrite forallb_app, IH, andb_true_r.
    destruct Hrow as (p & [-> | [d ->]] & _); reflexivity.
  - simpl. destruct Hrow as [-> | (p & -> & _)]; reflexivity.
Qed.

(** X7.  Once the setup is over the handler only sends CANDLE messages
    and sleeps: it never sends an ERROR message, never accepts again and
    never closes the channel itself, whatever the rows and the control
    messages are, and also when the run ends with an exception. *)
Theorem loop_sends_only_candles (cfg : config) (rt : runtime)
    (inputs : list input) (s : session) :
  forallb loop_event (fst (run cfg rt s inputs)) = true.
Proof.
  revert s. induction inputs as [|i inputs IH]; intros s; simpl; [reflexivity|].
  assert (forallb loop_event (fst (step cfg rt s i)) = true) as Hstep.
  { destruct i as [c|fetched]; simpl; [reflexivity|].
    unfold iteration. destruct (paused s); [reflexivity|].
    destruct fetched as [|row rows]; [reflexivity|].
    pose proof (process_rows_loop_events cfg rt (row :: rows) s) as H.
    destruct (process_rows cfg rt s (row :: rows)) as [evs [s1|e]]; simpl in *.
    - now rewrite forallb_app, H.
    - exact H. }
  destruct (step cfg rt s i) as [evs1 [s1|e]]; simpl in *.
  - specialize (IH s1). destruct (run cfg rt s1 inputs) as [evs2 res].
    simpl in *. now rewrite forallb_app, Hstep, IH.
  - exact Hstep.
Qed.

Lemma dict_store_keys (k : json) (v : option float) (d : indicator_dict) :
  dict_store k v d <> []
  /\ incl (map fst (dict_store k v d)) (k :: map fst d)
  /\ (List.length (dict_store k v d) <= S (List.length d))%nat.
Proof.
  induction d as [|[k' v'] rest (IH1 & IH2 & IH3)]; simpl.
  - split; [discriminate|]. split; [apply incl_refl | lia].
  - destruct (Json.key_eqb k' k); simpl.
    + split; [discriminate|]. split; [|lia].
      intros x [<-|Hx]; [right; now left | right; now right].
    + split; [discriminate|]. split; [|lia].
      intros x [<-|Hx]; [right; now left|].
      destruct (IH2 x Hx) as [<-|H]; [now left | right; now right].
Qed.

(** What the loop over the instances leaves when no update raises. *)
Lemma update_instances_shape (insts : list instance) (close : float) :
  forall d0 insts' d,
    update_instances insts close d0 = Py.Ok (insts', d) ->
    Forall2 (fun j j' => inst_id j' = inst_id j /\ warmup j' = warmup j
                         /\ exists out, update (impl j) close = Py.Ok (impl j', out))
      insts insts'
    /\ (d0 <> [] \/ insts <> [] -> d <> [])
    /\ (insts = [] -> d = d0)
    /\ incl (map fst d) (map fst d0 ++ map inst_id insts)
    /\ (List.length d <= List.length d0 + List.length insts)%nat.
Proof.
  induction insts as [|j rest IH]; simpl; intros d0 insts' d H.
  - injection H as <- <-. split; [constructor|]. split; [now intros [H|H]|].
    split; [reflexivity|]. split; [|lia]. rewrite app_nil_r. apply incl_refl.
  - destruct (update (impl j) close) as [[impl1 out]|] eqn:Hu; simpl in H;
      [|discriminate].
    unfold dict_setitem in H.
    destruct (Json.hashable (inst_id j)); simpl in H; [|discriminate].
    destruct (update_instances rest close (dict_store (inst_id j) out d0))
      as [[rest1 d1]|] eqn:Hr; simpl in H; [|discriminate].
    injection H as <- <-.
    destruct (IH _ _ _ Hr) as (Hall & Hne & _ & Hincl & Hlen).
    destruct (dict_store_keys (inst_id j) out d0) as (Hs1 & Hs2 & Hs3).
    split; [|split; [|split; [|split]]].
    + constructor; [|exact Hall]. simpl. repeat split. now exists out.
    + intros _. apply Hne. now left.
    + discriminate.
    + intros x Hx. apply Hincl in Hx. apply in_app_or in Hx.
      apply in_or_app. destruct Hx as [Hx|Hx].
      * apply Hs2 in Hx. destruct Hx as [<-|Hx]; [right; now left | now left].
      * right. now right.
    + lia.
Qed.

(** X8.  The [indicators] key of a CANDLE message.  A row either raises
    before anything is sent (an update of the instances raised), or its
    first event is its CANDLE message, which carries the row as fetched;
    the message has no [indicators] key exactly when the session has no
    instance (so with at least one instance the key is there from the
    first row on, with null values during the warmup), and the keys of
    [indicators] are ids of instances, at most one entry for each
    instance. *)
Theorem indicators_key (cfg : config) (rt : runtime) (s : session)
    (r : Candle.t) (cs : list ctrl_input) :
  match process_row cfg rt s r cs with
  | (SendJson (MsgCandle p) :: _, _) =>
      row p = r
      /\ (indicators p = None <-> indicator_instances s = [])
      /\ forall d, indicators p = Some d ->
           incl (map fst d) (map inst_id (indicator_instances s))
           /\ (0 < List.length d <= List.length (indicator_instances s))%nat
  | ([], Py.Raise _) =>
      exists e, update_instances (indicator_instances s) (Candle.close r) []
                = Py.Raise e
  | _ => False
  end.
Proof.
  unfold process_row.
  destruct (update_instances (indicator_instances s) (Candle.close r) [])
    as [[insts d]|e] eqn:Hu; [|now exists e].
  destruct (update_instances_shape _ _ _ _ _ Hu) as (_ & Hne & Hnil & Hincl & Hlen).
  assert (row {| row := r;
                 indicators := match d with [] => None | _ => Some d end |} = r
          /\ (indicators {| row := r;
                 indicators := match d with [] => None | _ => Some d end |} = None
              <-> indicator_instances s = [])
          /\ forall d', indicators {| row := r;
                 indicators := match d with [] => None | _ => Some d end |} = Some d' ->
               incl (map fst d') (map inst_id (indicator_instances s))
               /\ (0 < List.length d' <= List.length (indicator_instances s))%nat)
    as Hgoal.
  { simpl. split; [reflexivity|]. split.
    - split.
      + intros H. destruct (indicator_instances s) as [|j rest]; [reflexivity|].
        destruct d; [|discriminate]. exfalso. apply Hne; [right; discriminate|].
        reflexivity.
      + intros H. now rewrite (Hnil H).
    - intros d' H. destruct d as [|kv d0]; [discriminate|]. injection H as <-.
      split; [exact Hincl|]. simpl in *. lia. }
  destruct (last_sent_ts (fold_left (control_listener rt) cs s)) as [last|].
  - destruct (pacing_delay cfg _ _) as [delay|]; exact Hgoal.
  - exact Hgoal.
Qed.

Lemma fed_nil (insts : list instance) : Forall2 (fed []) insts insts.
Proof.
  induction insts as [|j rest IH]; constructor; [|exact IH].
  repeat split. now exists [].
Qed.

Lemma fed_app (xs ys : list float) (a b c : list instance) :
  Forall2 (fed xs) a b -> Forall2 (fed ys) b c -> Forall2 (fed (xs ++ ys)) a c.
Proof.
  intros Hab. revert c. induction Hab as [|j j' a b Hj Hab IH]; intros c Hbc.
  - inversion Hbc. constructor.
  - inversion Hbc as [|? j'' ? c' Hj' Hbc']; subst. constructor; [|now apply IH].
    destruct Hj as (H1 & H2 & outs1 & Ho1), Hj' as (G1 & G2 & outs2 & Ho2).
    repeat split; try congruence.
    exists (outs1 ++ outs2). exact (run_updates_app xs ys _ _ _ _ _ Ho1 Ho2).
Qed.

Lemma process_row_fed (cfg : config) (rt : runtime) (s : session)
    (r : Candle.t) (cs : list ctrl_input) :
  match process_row cfg rt s r cs with
  | (evs, Py.Ok s') =>
      sent_rows evs = [r]
      /\ Forall2 (fed [Candle.close r]) (indicator_instances s)
           (indicator_instances s')
  | _ => True
  end.
Proof.
  unfold process_row.
  destruct (update_instances (indicator_instances s) (Candle.close r) [])
    as [[insts d]|e] eqn:Hu; [|exact I].
  destruct (update_instances_shape _ _ _ _ _ Hu) as (Hall & _).
  assert (Forall2 (fed [Candle.close r]) (indicator_instances s) insts) as Hfed.
  { eapply Forall2_impl; [|exact Hall].
    intros j j' (H1 & H2 & out & Ho). repeat split; try assumption.
    exists [out]. simpl. rewrite Ho. reflexivity. }
  destruct (last_sent_ts (fold_left (control_listener rt) cs s)) as [last|].
  - destruct (pacing_delay cfg _ _) as [delay|]; [|exact I]. now split.
  - now split.
Qed.

Lemma process_rows_fed (cfg : config) (rt : runtime)
    (rows : list (Candle.t * list ctrl_input)) :
  forall s,
    match process_rows cfg rt s rows with
    | (evs, Py.Ok s') =>
        Forall2 (fed (map Candle.close (sent_rows evs)))
          (indicator_instances s) (indicator_instances s')
    | _ => True
    end.
Proof.
  induction rows as [|[r cs] rows IH]; intros s; simpl; [apply fed_nil|].
  pose proof (process_row_fed cfg rt s r cs) as Hrow.
  destruct (process_row cfg rt s r cs) as [evs1 [s1|e]]; [|exact I].
  destruct Hrow as [Hsent Hfed]. specialize (IH s1).
  destruct (process_rows cfg rt s1 rows) as [evs2 [s2|e]]; [|exact I].
  rewrite sent_rows_app, map_app, Hsent. simpl map at 1.
  exact (fed_app _ _ _ _ _ Hfed IH).
Qed.

Lemma step_fed (cfg : config) (rt : runtime) (s : session) (i : input) :
  match step cfg rt s i with
  | (evs, Py.Ok s') =>
      Forall2 (fed (map Candle.close (sent_rows evs)))
        (indicator_instances s) (indicator_instances s')
  | _ => True
  end.
Proof.
  destruct i as [c|fetched]; simpl.
  - destruct (control_listener_cursor rt s c) as (_ & _ & ->). apply fed_nil.
  - unfold iteration. destruct (paused s); [apply fed_nil|].
    destruct fetched as [|row rows]; [apply fed_nil|].
    pose proof (process_rows_fed cfg rt (row :: rows) s) as H.
    destruct (process_rows cfg rt s (row :: rows)) as [evs [s1|e]]; [|exact I].
    rewrite sent_rows_app. simpl. now rewrite app_nil_r.
Qed.

Lemma run_fed (cfg : config) (rt : runtime) (inputs : list input) :
  forall s,
    match run cfg rt s inputs with
    | (evs, Py.Ok s') =>
        Forall2 (fed (map Candle.close (sent_rows evs)))
          (indicator_instances s) (indicator_instances s')
    | _ => True
    end.
Proof.
  induction inputs as [|i inputs IH]; intros s; simpl; [apply fed_nil|].
  pose proof (step_fed cfg rt s i) as Hstep.
  destruct (step cfg rt s i) as [evs1 [s1|e]]; [|exact I].
  specialize (IH s1).
  destruct (run cfg rt s1 inputs) as [evs2 [s2|e]]; [|exact I].
  rewrite sent_rows_app, map_app. exact (fed_app _ _ _ _ _ Hstep IH).
Qed.

(** The instances of a session that starts are new. *)
Lemma setup_instances_fresh (cfg : config) (rt : runtime)
    (params : query_params) (evs : list event) (s : session) :
  setup cfg rt params = (evs, Started s) ->
  Forall (fun i => 1 <= period (impl i) /\ window (impl i) = []
                   /\ sum (impl i) = 0%float
                   /\ warmup i = period (impl i) - 1
                   /\ Json.truthy (inst_id i) = true)
    (indicator_instances s).
Proof.
  unfold setup.
  destruct (params "symbol") as [sym|]; [|discriminate].
  destruct (params "timeframe") as [tf|]; [|discriminate].
  destruct (Py.truthy_str (Some sym) && Py.truthy_str (Some tf)); [|discriminate].
  pose proof (read_indicators_inv rt (params "indicators")) as Hind.
  destruct (Py.or_str (params "after") (params "from")) as [a|].
  - destruct (Py.int_of_str (int_of_text rt) a) as [z|]; [|discriminate].
    destruct (read_indicators rt (params "indicators")) as [[insts|e]|];
      try discriminate.
    now intros [= _ <-].
  - destruct (read_indicators rt (params "indicators")) as [[insts|e]|];
      try discriminate.
    now intros [= _ <-].
Qed.

(** X9.  Along a run that does not raise, every instance keeps its id and
    its warmup, and its average is the one it had, updated with the
    close of every row that was sent, in the order they were sent: rows
    skipped while paused and control messages never reach an average.
    For a session that the setup started, the window of each instance
    holds the last [period] closes sent, all of them when fewer were
    sent. *)
Theorem instances_see_every_close (cfg : config) (rt : runtime)
    (inputs : list input) :
  (forall s,
     match run cfg rt s inputs with
     | (evs, Py.Ok s') =>
         Forall2 (fed (map Candle.close (sent_rows evs)))
           (indicator_instances s) (indicator_instances s')
     | _ => True
     end)
  /\ (forall params evs0 s0,
        setup cfg rt params = (evs0, Started s0) ->
        match run cfg rt s0 inputs with
        | (evs, Py.Ok s') =>
            Forall (fun j =>
                      window (impl j)
                      = lastn (Z.to_nat (period (impl j)))
                          (map Candle.close (sent_rows evs)))
              (indicator_instances s')
        | _ => True
        end).
Proof.
  split; [apply run_fed|].
  intros params evs0 s0 Hsetup.
  pose proof (setup_instances_fresh cfg rt params evs0 s0 Hsetup) as Hfresh.
  pose proof (run_fed cfg rt inputs s0) as Hfed.
  destruct (run cfg rt s0 inputs) as [evs [s'|e]]; [|exact I].
  set (closes := map Candle.close (sent_rows evs)) in *. clearbody closes.
  revert Hfresh. induction Hfed as [|j j' a b Hj Hab IH]; intros Hfresh.
  - constructor.
  - inversion Hfresh as [|? ? (Hp & Hw & _) Hrest]; subst.
    constructor; [|now apply IH].
    destruct Hj as (_ & _ & outs & Hrun).
    destruct (run_updates_window closes (impl j) [] Hp)
      as (self' & outs' & Hrun' & Hp' & _ & Hw').
    { rewrite Hw. reflexivity. }
    rewrite Hrun in Hrun'. injection Hrun' as <- <-.
    rewrite Hp'. exact Hw'.
Qed.

(** ** Instances that share an id, along a run *)

Lemma sent_payloads_app (xs ys : list event) :
  sent_payloads (xs ++ ys) = sent_payloads xs ++ sent_payloads ys.
Proof. unfold sent_payloads. apply flat_map_app. Qed.

(** One pass over the instances: the entry of the id [k] is the output
    of its last instance, and that instance is again the last one with
    the id. *)
Lemma update_instances_later (k : string) (pre post : list instance)
    (i : instance) (close : float) :
  last_with_id k pre i post ->
  exists pre' i' post' d out,
    update_instances (pre ++ i :: post) close [] = Py.Ok (pre' ++ i' :: post', d)
    /\ update (impl i) close = Py.Ok (impl i', out)
    /\ dict_getitem d (JStr k) = Some out
    /\ last_with_id k pre' i' post'.
Proof.
  intros (Hall & Hk & Hpost). unfold instances_ok in Hall.
  apply Forall_app in Hall. destruct Hall as [Hpre Hrest].
  inversion Hrest as [|? ? [Hsi Hpi] Hpost']; subst.
  destruct (update_instances_total pre close Hpre [])
    as (pre' & d1 & Hrun1 & Hids1 & Hall1 & _ & _).
  destruct (update_total (impl i) close Hpi) as (impl1 & out & Hu & Hper).
  destruct (update_instances_total post close Hpost' (dict_store (JStr k) out d1))
    as (post' & d2 & Hrun2 & Hids2 & Hall2 & Hkeep & _).
  exists pre', {| inst_id := inst_id i; warmup := warmup i; impl := impl1 |},
    post', d2, out.
  assert (forall a b,
            Forall (fun j => (exists s, inst_id j = JStr s) /\ 1 <= period (impl j)) a ->
            map inst_id b = map inst_id a ->
            Forall2 (fun j j' => exists out,
                       update (impl j) close = Py.Ok (impl j', out)) a b ->
            Forall (fun j => (exists s, inst_id j = JStr s) /\ 1 <= period (impl j)) b)
    as Hkeep_ok.
  { intros a b Ha. revert b.
    induction Ha as [|j a [[s Hs] Hp] _ IH]; intros b Hids Hf.
    - inversion Hf. constructor.
    - inversion Hf as [|? j' ? b' (o & Ho) Hf']; subst.
      simpl in Hids. injection Hids as Hid Hids.
      constructor; [|now apply IH].
      split; [exists s; congruence|].
      now rewrite (update_period _ _ _ _ Hp Ho). }
  split; [|split; [|split]].
  - apply (update_instances_app pre (i :: post) close [] pre' d1 _ d2 Hrun1).
    simpl. rewrite Hu. simpl. unfold dict_setitem. rewrite Hk. simpl.
    rewrite Hrun2. reflexivity.
  - exact Hu.
  - rewrite (Hkeep k Hpost), dict_getitem_store, String.eqb_refl. reflexivity.
  - split; [|split].
    + unfold instances_ok. apply Forall_app. split.
      * apply (Hkeep_ok pre pre' Hpre Hids1).
        eapply Forall2_impl; [|exact Hall1].
        intros a b (o & Ho & _). now exists o.
      * constructor.
        -- simpl. split; [exact Hsi | now rewrite Hper].
        -- apply (Hkeep_ok post post' Hpost' Hids2).
           eapply Forall2_impl; [|exact Hall2].
           intros a b (o & Ho & _). now exists o.
    + exact Hk.
    + clear - Hids2 Hpost. revert post' Hids2.
      induction Hpost as [|j post Hj _ IH]; intros post' Hids.
      * destruct post'; [constructor | discriminate].
      * destruct post' as [|j' post']; [discriminate|].
        simpl in Hids. injection Hids as Hid Hids.
        constructor; [congruence | now apply IH].
Qed.

(** Events with no CANDLE message change nothing. *)
Lemma carries_quiet (k : string) (pre post : list instance) (i : instance)
    (evs : list event) (s : session) :
  sent_payloads evs = [] -> sent_rows evs = [] ->
  indicator_instances s = pre ++ i :: post -> last_with_id k pre i post ->
  carries_later_value k i (evs, Py.Ok s).
Proof.
  intros Hp Hr Hs Hlast. exists (impl i), []. simpl. rewrite Hp, Hr.
  split; [reflexivity|]. split; [reflexivity|].
  intros s' [= <-]. now exists pre, i, post.
Qed.

Lemma carries_app_quiet (k : string) (i : instance) (evs quiet : list event)
    (res : Py.result session) :
  sent_payloads quiet = [] -> sent_rows quiet = [] ->
  carries_later_value k i (evs, res) ->
  carries_later_value k i (evs ++ quiet, res).
Proof.
  intros Hp Hr (self & outs & Hrun & Hval & Hnext).
  exists self, outs. simpl in *.
  rewrite sent_rows_app, sent_payloads_app, Hp, Hr, !app_nil_r.
  now repeat split.
Qed.

(** Two parts of a run, one after the other. *)
Lemma carries_seq (k : string) (i : instance) (evs1 : list event)
    (s1 : session) (part2 : list event * Py.result session) :
  carries_later_value k i (evs1, Py.Ok s1) ->
  (forall pre i1 post,
     indicator_instances s1 = pre ++ i1 :: post -> last_with_id k pre i1 post ->
     carries_later_value k i1 part2) ->
  carries_later_value k i (evs1 ++ fst part2, snd part2).
Proof.
  intros (self1 & outs1 & Hrun1 & Hval1 & Hnext1) H2. simpl in *.
  destruct (Hnext1 s1 eq_refl) as (pre' & i' & post' & Hs1 & Himpl & Hlast).
  destruct (H2 pre' i' post' Hs1 Hlast) as (self2 & outs2 & Hrun2 & Hval2 & Hnext2).
  exists self2, (outs1 ++ outs2). simpl.
  rewrite sent_rows_app, sent_payloads_app, !map_app, Hval1, Hval2.
  split; [|split; [reflexivity | exact Hnext2]].
  rewrite Himpl in Hrun2.
  exact (run_updates_app _ _ _ _ _ _ _ Hrun1 Hrun2).
Qed.

Lemma process_row_later (cfg : config) (rt : runtime) (k : string)
    (s : session) (pre post : list instance) (i : instance)
    (r : Candle.t) (cs : list ctrl_input) :
  indicator_instances s = pre ++ i :: post -> last_with_id k pre i post ->
  carries_later_value k i (process_row cfg rt s r cs).
Proof.
  intros Hs Hlast.
  destruct (update_instances_later k pre post i (Candle.close r) Hlast)
    as (pre' & i' & post' & d & out & Hrun & Hu & Hget & Hlast').
  unfold process_row. rewrite Hs, Hrun.
  assert (match d with [] => None | _ => Some d end = Some d) as Hd.
  { destruct d; [discriminate | reflexivity]. }
  rewrite Hd.
  assert (forall rest res,
            sent_payloads rest = [] -> sent_rows rest = [] ->
            (forall s', res = Py.Ok s' ->
               indicator_instances s' = pre' ++ i' :: post') ->
            carries_later_value k i
              (SendJson (MsgCandle {| row := r; indicators := Some d |}) :: rest,
               res)) as Hgoal.
  { intros rest res Hp Hr Hnext. exists (impl i'), [out].
    cbn [fst snd sent_rows sent_payloads flat_map map app row indicator_value
         indicators].
    fold (sent_rows rest). fold (sent_payloads rest). rewrite Hp, Hr.
    cbn [map app run_updates]. rewrite Hu. cbn [Py.bind].
    split; [reflexivity|]. split; [now rewrite Hget|].
    intros s' Hs'. exists pre', i', post'.
    split; [now apply Hnext|]. now split. }
  destruct (last_sent_ts (fold_left (control_listener rt) cs s)) as [last|].
  - destruct (pacing_delay cfg _ _) as [delay|e].
    + apply Hgoal; try reflexivity. now intros s' [= <-].
    + apply Hgoal; try reflexivity. discriminate.
  - apply Hgoal; try reflexivity. now intros s' [= <-].
Qed.

Lemma process_rows_later (cfg : config) (rt : runtime) (k : string)
    (rows : list (Candle.t * list ctrl_input)) :
  forall s pre i post,
    indicator_instances s = pre ++ i :: post -> last_with_id k pre i post ->
    carries_later_value k i (process_rows cfg rt s rows).
Proof.
  induction rows as [|[r cs] rows IH]; intros s pre i post Hs Hlast.
  - now apply (carries_quiet k pre post).
  - cbn [process_rows].
    pose proof (process_row_later cfg rt k s pre post i r cs Hs Hlast) as Hrow.
    destruct (process_row cfg rt s r cs) as [evs1 [s1|e]]; [|exact Hrow].
    pose proof (carries_seq k i evs1 s1 (process_rows cfg rt s1 rows) Hrow
                  (IH s1)) as H.
    now destruct (process_rows cfg rt s1 rows) as [evs2 res].
Qed.

Lemma step_later (cfg : config) (rt : runtime) (k : string) (s : session)
    (pre post : list instance) (i : instance) (inp : input) :
  indicator_instances s = pre ++ i :: post -> last_with_id k pre i post ->
  carries_later_value k i (step cfg rt s inp).
Proof.
  intros Hs Hlast. destruct inp as [c|fetched]; cbn [step].
  - apply (carries_quiet k pre post); try reflexivity; [|exact Hlast].
    destruct (control_listener_cursor rt s c) as (_ & _ & ->). exact Hs.
  - unfold iteration. destruct (paused s).
    + now apply (carries_quiet k pre post).
    + destruct fetched as [|row rows].
      * now apply (carries_quiet k pre post).
      * pose proof (process_rows_later cfg rt k (row :: rows) s pre i post
                      Hs Hlast) as H.
        destruct (process_rows cfg rt s (row :: rows)) as [evs [s1|e]];
          [|exact H].
        now apply carries_app_quiet.
Qed.

Lemma run_later (cfg : config) (rt : runtime) (k : string)
    (inputs : list input) :
  forall s pre i post,
    indicator_instances s = pre ++ i :: post -> last_with_id k pre i post ->
    carries_later_value k i (run cfg rt s inputs).
Proof.
  induction inputs as [|inp inputs IH]; intros s pre i post Hs Hlast.
  - now apply (carries_quiet k pre post).
  - cbn [run].
    pose proof (step_later cfg rt k s pre post i inp Hs Hlast) as Hstep.
    destruct (step cfg rt s inp) as [evs1 [s1|e]]; [|exact Hstep].
    pose proof (carries_seq k i evs1 s1 (run cfg rt s1 inputs) Hstep (IH s1))
      as H.
    now destruct (run cfg rt s1 inputs) as [evs2 res].
Qed.

(** C4, as the code has it: [indicator_instances] is a list, so both
    instances of a shared id stay registered, and both are updated with
    the close of every row that is sent; it is the dict of values sent
    with a row whose entry is overwritten.  For a session that the setup
    started, with string ids, whose last instance with the id [k] is
    [i]: along every run, whether it ends or raises, the values that the
    CANDLE messages carry under [k] are, message after message, the
    outputs of the average of [i] on the closes sent so far, whatever
    the earlier instances of the id return; and when the run ends, every
    instance of the registry is still there, fed every close. *)
Theorem later_instance_value_wins (cfg : config) (rt : runtime)
    (params : query_params) (evs0 : list event) (s0 : session)
    (pre post : list instance) (i : instance) (k : string)
    (Hsetup : setup cfg rt params = (evs0, Started s0))
    (Hinsts : indicator_instances s0 = pre ++ i :: post)
    (Hids : Forall (fun j => exists s, inst_id j = JStr s) (pre ++ i :: post))
    (Hk : inst_id i = JStr k)
    (Hpost : Forall (fun j => inst_id j <> JStr k) post) :
  forall inputs,
    let evs := fst (run cfg rt s0 inputs) in
    let closes := map Candle.close (sent_rows evs) in
    (exists self outs,
       run_updates (impl i) closes = Py.Ok (self, outs)
       /\ map (indicator_value (JStr k)) (sent_payloads evs) = map Some outs)
    /\ (forall s, snd (run cfg rt s0 inputs) = Py.Ok s ->
          Forall2 (fed closes) (pre ++ i :: post) (indicator_instances s)).
Proof.
  intros inputs evs closes.
  assert (last_with_id k pre i post) as Hlast.
  { split; [|now split]. unfold instances_ok.
    pose proof (setup_instances_fresh cfg rt params evs0 s0 Hsetup) as Hfresh.
    rewrite Hinsts in Hfresh.
    rewrite Forall_forall in Hids, Hfresh |- *. intros j Hj.
    split; [now apply Hids | now apply Hfresh]. }
  split.
  - destruct (run_later cfg rt k inputs s0 pre i post Hinsts Hlast)
      as (self & outs & Hrun & Hval & _).
    now exists self, outs.
  - intros s Hs. pose proof (run_fed cfg rt inputs s0) as Hfed.
    subst closes evs.
    destruct (run cfg rt s0 inputs) as [evs1 res]. simpl in *. subst res.
    now rewrite Hinsts in Hfed.
Qed.

Lemma shared_id_setup :
  setup default_config shared_id_runtime shared_id_params
  = ([Accept], Started shared_id_session).
Proof. reflexivity. Qed.

Lemma later_instance_value_wins_witness :
  map (indicator_value (JStr "x"))
    (sent_payloads
       (fst (run default_config shared_id_runtime shared_id_session demo_inputs)))
  = [Some None; Some (Some 15%float); Some (Some 25%float)].
Proof.
  destruct (later_instance_value_wins default_config shared_id_runtime
              shared_id_params [Accept] shared_id_session
              [ {| inst_id := JStr "x"; warmup := 0;
                   impl := SimpleMovingAverage_init 1 |} ]
              []
              {| inst_id := JStr "x"; warmup := 1;
                 impl := SimpleMovingAverage_init 2 |}
              "x" shared_id_setup eq_refl
              ltac:(repeat constructor; eexists; reflexivity)
              eq_refl ltac:(constructor) demo_inputs)
    as [(self & outs & Hrun & Hval) _].
  rewrite Hval. vm_compute in Hrun. injection Hrun as _ <-. reflexivity.
Defined.

(** ** Exceptions in the loop *)

Lemma run_updates_period (values : list float) :
  forall self self' outs,
    1 <= period self -> run_updates self values = Py.Ok (self', outs) ->
    period self' = period self.
Proof.
  induction values as [|v values IH]; simpl; intros self self' outs Hp H.
  - now injection H as <- _.
  - destruct (update self v) as [[self1 out]|] eqn:Hu; simpl in H; [|discriminate].
    destruct (run_updates self1 values) as [[self2 outs2]|] eqn:Hr; simpl in H;
      [|discriminate].
    injection H as <- _.
    pose proof (update_period _ _ _ _ Hp Hu) as H1.
    rewrite (IH self1 self2 outs2); [exact H1 | lia | exact Hr].
Qed.

Lemma fed_periods (closes : list float) (a b : list instance) :
  Forall2 (fed closes) a b ->
  periods_ok a -> periods_ok b /\ ids_hashable b = ids_hashable a.
Proof.
  unfold periods_ok.
  induction 1 as [|j j' a b (Hid & _ & outs & Hrun) Hab IH]; intros Hok.
  - now split.
  - inversion Hok as [|? ? Hp Hrest]; subst. destruct (IH Hrest) as [IH1 IH2].
    split.
    + constructor; [|exact IH1].
      now rewrite (run_updates_period closes _ _ _ Hp Hrun).
    + simpl. now rewrite Hid, IH2.
Qed.

(** The loop over the instances raises only for an id that cannot be a
    dict key. *)
Lemma update_instances_raises (insts : list instance) (close : float) :
  periods_ok insts ->
  forall d,
    if ids_hashable insts
    then exists insts' d', update_instances insts close d = Py.Ok (insts', d')
    else update_instances insts close d = Py.Raise Py.TypeError.
Proof.
  unfold periods_ok. induction 1 as [|j rest Hp _ IH]; intros d; simpl.
  - now exists [], d.
  - destruct (update_total (impl j) close Hp) as (impl1 & out & -> & _). simpl.
    unfold dict_setitem. destruct (Json.hashable (inst_id j)); simpl; [|reflexivity].
    specialize (IH (dict_store (inst_id j) out d)).
    destruct (ids_hashable rest).
    + destruct IH as (rest' & d' & ->). simpl. eauto.
    + now rewrite IH.
Qed.

Lemma pacing_delay_raises (cfg : config) (delta speed : float) (e : Py.exn) :
  pacing_delay cfg delta speed = Py.Raise e <->
  (REFERENCE_DELTA_MS cfg =? 0)%float = true /\ e = Py.ZeroDivisionError.
Proof.
  destruct (REFERENCE_DELTA_MS cfg =? 0)%float eqn:Href.
  - unfold pacing_delay, Py.truediv. rewrite Href. simpl.
    split; [intros [= <-]; now split | now intros [_ ->]].
  - rewrite (pacing_delay_spec cfg delta speed Href).
    split; [discriminate | intros [H _]; discriminate].
Qed.

(** X10.  An id that cannot be a dict key.  With periods of at least one
    (all that [SimpleMovingAverage] builds), a row is processed in one
    of two ways: when every id is hashable its CANDLE message is sent
    first, with the row as fetched; when the id of some instance is a
    JSON list or object, storing its value in [indicator_payload] raises
    [TypeError] before anything is sent, so such a session never sends a
    row. *)
Theorem unhashable_id_raises (cfg : config) (rt : runtime) (s : session)
    (r : Candle.t) (cs : list ctrl_input) :
  periods_ok (indicator_instances s) ->
  if ids_hashable (indicator_instances s)
  then exists p rest res,
         process_row cfg rt s r cs = (SendJson (MsgCandle p) :: rest, res)
         /\ row p = r
  else process_row cfg rt s r cs = ([], Py.Raise Py.TypeError).
Proof.
  intros Hok. unfold process_row.
  pose proof (update_instances_raises _ (Candle.close r) Hok []) as H.
  destruct (ids_hashable (indicator_instances s)).
  - destruct H as (insts & d & ->).
    destruct (last_sent_ts (fold_left (control_listener rt) cs s)) as [last|].
    + destruct (pacing_delay cfg _ _) as [delay|e];
        eexists; eexists; eexists; split; reflexivity.
    + eexists. eexists. eexists. split; reflexivity.
  - now rewrite H.
Qed.

Lemma unhashable_id_raises_witness :
  process_row default_config example_runtime
    {| symbol := "BTCUSDT"; timeframe := "15m"; dataset_id := None;
       batch_size := 500; speed := 1; paused := false;
       last_sent_ts := None; last_timestamp := None;
       indicator_instances :=
         [ {| inst_id := JList [JInt 1]; warmup := 1;
              impl := SimpleMovingAverage_init 2 |} ];
       listening := true |}
    (example_candle 1000 10) []
  = ([], Py.Raise Py.TypeError).
Proof.
  apply (unhashable_id_raises default_config example_runtime
           {| symbol := "BTCUSDT"; timeframe := "15m"; dataset_id := None;
              batch_size := 500; speed := 1; paused := false;
              last_sent_ts := None; last_timestamp := None;
              indicator_instances :=
                [ {| inst_id := JList [JInt 1]; warmup := 1;
                     impl := SimpleMovingAverage_init 2 |} ];
              listening := true |}
           (example_candle 1000 10) []).
  repeat constructor. simpl. lia.
Defined.

(** X11.  The delay computation raises only for a reference delta of
    zero, and then [ZeroDivisionError]: the other divisors, [max(speed,
    0.1)], [10] and [max(1, speed / 10)], are never zero.  With a
    reference delta of zero (and instances that update), the first row
    of a session is sent and kept, no delay being computed for it; every
    later row is sent and then the handler raises [ZeroDivisionError]
    instead of sleeping. *)
Theorem zero_reference_delta (cfg : config) (rt : runtime) :
  (forall delta speed e,
     pacing_delay cfg delta speed = Py.Raise e <->
     (REFERENCE_DELTA_MS cfg =? 0)%float = true /\ e = Py.ZeroDivisionError)
  /\ (forall s r cs,
        (REFERENCE_DELTA_MS cfg =? 0)%float = true ->
        periods_ok (indicator_instances s) ->
        ids_hashable (indicator_instances s) = true ->
        exists p,
          match last_sent_ts s with
          | None => exists s', process_row cfg rt s r cs
                               = ([SendJson (MsgCandle p)], Py.Ok s')
          | Some _ => process_row cfg rt s r cs
                      = ([SendJson (MsgCandle p)],
                         Py.Raise Py.ZeroDivisionError)
          end
          /\ row p = r).
Proof.
  split; [apply pacing_delay_raises|].
  intros s r cs Href Hok Hh. unfold process_row.
  pose proof (update_instances_raises _ (Candle.close r) Hok []) as H.
  rewrite Hh in H. destruct H as (insts & d & ->).
  destruct (listeners_cursor rt cs s) as (_ & -> & _).
  destruct (last_sent_ts s) as [last|].
  - destruct (pacing_delay cfg _ _) as [delay|e] eqn:Hd.
    + unfold pacing_delay, Py.truediv in Hd. rewrite Href in Hd. discriminate.
    + apply pacing_delay_raises in Hd. destruct Hd as [_ ->].
      eexists. split; reflexivity.
  - eexists. split; [eexists; reflexivity | reflexivity].
Qed.

Lemma process_row_periods (cfg : config) (rt : runtime) (s : session)
    (r : Candle.t) (cs : list ctrl_input) :
  periods_ok (indicator_instances s) ->
  match process_row cfg rt s r cs with
  | (_, Py.Ok s') =>
      periods_ok (indicator_instances s')
      /\ ids_hashable (indicator_instances s') = ids_hashable (indicator_instances s)
  | _ => True
  end.
Proof.
  intros Hok. pose proof (process_row_fed cfg rt s r cs) as H.
  destruct (process_row cfg rt s r cs) as [evs [s'|e]]; [|exact I].
  destruct H as [_ H]. exact (fed_periods _ _ _ H Hok).
Qed.

Lemma process_row_never_raises (cfg : config) (rt : runtime) (s : session)
    (r : Candle.t) (cs : list ctrl_input) :
  (REFERENCE_DELTA_MS cfg =? 0)%float = false ->
  periods_ok (indicator_instances s) ->
  ids_hashable (indicator_instances s) = true ->
  exists evs s', process_row cfg rt s r cs = (evs, Py.Ok s').
Proof.
  intros Href Hok Hh. unfold process_row.
  pose proof (update_instances_raises _ (Candle.close r) Hok []) as H.
  rewrite Hh in H. destruct H as (insts & d & ->).
  destruct (last_sent_ts (fold_left (control_listener rt) cs s)) as [last|].
  - rewrite (pacing_delay_spec cfg _ _ Href). eauto.
  - eauto.
Qed.

Lemma process_rows_never_raise (cfg : config) (rt : runtime)
    (rows : list (Candle.t * list ctrl_input)) :
  (REFERENCE_DELTA_MS cfg =? 0)%float = false ->
  forall s,
    periods_ok (indicator_instances s) ->
    ids_hashable (indicator_instances s) = true ->
    exists evs s',
      process_rows cfg rt s rows = (evs, Py.Ok s')
      /\ periods_ok (indicator_instances s')
      /\ ids_hashable (indicator_instances s') = true.
Proof.
  intros Href. induction rows as [|[r cs] rows IH]; simpl; intros s Hok Hh.
  - exists [], s. now repeat split.
  - pose proof (process_row_periods cfg rt s r cs Hok) as Hp.
    destruct (process_row_never_raises cfg rt s r cs Href Hok Hh)
      as (evs1 & s1 & Hr).
    rewrite Hr in *. destruct Hp as [Hok1 Hh1]. rewrite Hh in Hh1.
    destruct (IH s1 Hok1 Hh1) as (evs2 & s2 & -> & Hok2 & Hh2).
    exists (evs1 ++ evs2), s2. now repeat split.
Qed.

Lemma run_never_raises (cfg : config) (rt : runtime) (inputs : list input) :
  (REFERENCE_DELTA_MS cfg =? 0)%float = false ->
  forall s,
    periods_ok (indicator_instances s) ->
    ids_hashable (indicator_instances s) = true ->
    exists evs s', run cfg rt s inputs = (evs, Py.Ok s').
Proof.
  intros Href. induction inputs as [|i inputs IH]; simpl; intros s Hok Hh.
  - eauto.
  - assert (exists evs1 s1,
               step cfg rt s i = (evs1, Py.Ok s1)
               /\ periods_ok (indicator_instances s1)
               /\ ids_hashable (indicator_instances s1) = true)
      as (evs1 & s1 & -> & Hok1 & Hh1).
    { destruct i as [c|fetched]; simpl.
      - eexists. eexists. split; [reflexivity|].
        destruct (control_listener_cursor rt s c) as (_ & _ & ->). now split.
      - unfold iteration. destruct (paused s); [eauto|].
        destruct fetched as [|row rows]; [eauto|].
        destruct (process_rows_never_raise cfg rt (row :: rows) Href s Hok Hh)
          as (evs & s' & -> & Hok' & Hh').
        eauto. }
    destruct (IH s1 Hok1 Hh1) as (evs2 & s2 & ->). eauto.
Qed.

Lemma setup_started_events (cfg : config) (rt : runtime)
    (params : query_params) (evs : list event) (s : session) :
  setup cfg rt params = (evs, Started s) -> evs = [Accept].
Proof.
  unfold setup.
  destruct (params "symbol") as [sym|]; [|discriminate].
  destruct (params "timeframe") as [tf|]; [|discriminate].
  destruct (Py.truthy_str (Some sym) && Py.truthy_str (Some tf)); [|discriminate].
  destruct (Py.or_str (params "after") (params "from")) as [a|].
  - destruct (Py.int_of_str (int_of_text rt) a) as [z|]; [|discriminate].
    destruct (read_indicators rt (params "indicators")) as [[insts|e]|];
      try discriminate.
    now intros [= <- _].
  - destruct (read_indicators rt (params "indicators")) as [[insts|e]|];
      try discriminate.
    now intros [= <- _].
Qed.

(** X12.  With a reference delta that is not zero, a session that the
    setup started and whose ids are all hashable never raises: whatever
    rows the source returns and whatever the client sends, every run
    ends in a state, and the events of the handler are the accept
    followed by the events of the run. *)
Theorem session_never_raises (cfg : config) (rt : runtime)
    (params : query_params) (evs0 : list event) (s0 : session)
    (inputs : list input) :
  (REFERENCE_DELTA_MS cfg =? 0)%float = false ->
  setup cfg rt params = (evs0, Started s0) ->
  ids_hashable (indicator_instances s0) = true ->
  exists evs s,
    run cfg rt s0 inputs = (evs, Py.Ok s)
    /\ _handle_candle_stream cfg rt params inputs = Accept :: evs.
Proof.
  intros Href Hsetup Hh.
  assert (periods_ok (indicator_instances s0)) as Hok.
  { pose proof (setup_instances_fresh cfg rt params evs0 s0 Hsetup) as H.
    unfold periods_ok. eapply Forall_impl; [|exact H]. now intros j (Hp & _). }
  destruct (run_never_raises cfg rt inputs Href s0 Hok Hh) as (evs & s & Hrun).
  exists evs, s. split; [exact Hrun|].
  unfold _handle_candle_stream. rewrite Hsetup, Hrun. simpl.
  now rewrite (setup_started_events cfg rt params evs0 s0 Hsetup).
Qed.

(** ** The requests of a session *)

Lemma control_listener_request (rt : runtime) (s : session) (i : ctrl_input) :
  symbol (control_listener rt s i) = symbol s
  /\ timeframe (control_listener rt s i) = timeframe s
  /\ dataset_id (control_listener rt s i) = dataset_id s
  /\ batch_size (control_listener rt s i) = batch_size s.
Proof.
  unfold control_listener.
  destruct (negb (listening s)); [now repeat split|].
  destruct i as [[| | | | | |kvs]|]; try (now repeat split).
  destruct (Json.eq_str (Json.get "type" kvs) "SET_SPEED").
  - destruct (Json.to_float (float_of_str rt) (Json.get "speed" kvs))
      as [parsed|[]]; now repeat split.
  - destruct (Json.eq_str (Json.get "type" kvs) "PAUSE"); [now repeat split|].
    destruct (Json.eq_str (Json.get "type" kvs) "PLAY"); now repeat split.
Qed.

Lemma listeners_request (rt : runtime) (cs : list ctrl_input) :
  forall s,
    symbol (fold_left (control_listener rt) cs s) = symbol s
    /\ timeframe (fold_left (control_listener rt) cs s) = timeframe s
    /\ dataset_id (fold_left (control_listener rt) cs s) = dataset_id s
    /\ batch_size (fold_left (control_listener rt) cs s) = batch_size s.
Proof.
  induction cs as [|c cs IH]; simpl; intros s; [now repeat split|].
  destruct (IH (control_listener rt s c)) as (H1 & H2 & H3 & H4).
  destruct (control_listener_request rt s c) as (G1 & G2 & G3 & G4).
  repeat split; congruence.
Qed.

Lemma process_row_request (cfg : config) (rt : runtime) (s : session)
    (r : Candle.t) (cs : list ctrl_input) :
  match process_row cfg rt s r cs with
  | (_, Py.Ok s') =>
      symbol s' = symbol s /\ timeframe s' = timeframe s
      /\ dataset_id s' = dataset_id s /\ batch_size s' = batch_size s
  | _ => True
  end.
Proof.
  unfold process_row.
  destruct (update_instances (indicator_instances s) (Candle.close r) [])
    as [[insts d]|e]; [|exact I].
  pose proof (listeners_request rt cs s) as H.
  destruct (last_sent_ts (fold_left (control_listener rt) cs s)) as [last|].
  - destruct (pacing_delay cfg _ _) as [delay|]; [exact H | exact I].
  - exact H.
Qed.

Lemma process_rows_request (cfg : config) (rt : runtime)
    (rows : list (Candle.t * list ctrl_input)) :
  forall s,
    match process_rows cfg rt s rows with
    | (_, Py.Ok s') =>
        symbol s' = symbol s /\ timeframe s' = timeframe s
        /\ dataset_id s' = dataset_id s /\ batch_size s' = batch_size s
    | _ => True
    end.
Proof.
  induction rows as [|[r cs] rows IH]; intros s; simpl; [now repeat split|].
  pose proof (process_row_request cfg rt s r cs) as Hrow.
  destruct (process_row cfg rt s r cs) as [evs1 [s1|e]]; [|exact I].
  specialize (IH s1).
  destruct (process_rows cfg rt s1 rows) as [evs2 [s2|e]]; [|exact I].
  destruct Hrow as (H1 & H2 & H3 & H4), IH as (G1 & G2 & G3 & G4).
  repeat split; congruence.
Qed.

Lemma run_request (cfg : config) (rt : runtime) (inputs : list input) :
  forall s,
    match run cfg rt s inputs with
    | (_, Py.Ok s') =>
        symbol s' = symbol s /\ timeframe s' = timeframe s
        /\ dataset_id s' = dataset_id s /\ batch_size s' = batch_size s
    | _ => True
    end.
Proof.
  induction inputs as [|i inputs IH]; intros s; simpl; [now repeat split|].
  assert (match step cfg rt s i with
          | (_, Py.Ok s') =>
              symbol s' = symbol s /\ timeframe s' = timeframe s
              /\ dataset_id s' = dataset_id s /\ batch_size s' = batch_size s
          | _ => True
          end) as Hstep.
  { destruct i as [c|fetched]; simpl; [apply control_listener_request|].
    unfold iteration. destruct (paused s); [now repeat split|].
    destruct fetched as [|row rows]; [now repeat split|].
    pose proof (process_rows_request cfg rt (row :: rows) s) as H.
    now destruct (process_rows cfg rt s (row :: rows)) as [evs [s1|e]]. }
  destruct (step cfg rt s i) as [evs1 [s1|e]]; [|exact I].
  specialize (IH s1).
  destruct (run cfg rt s1 inputs) as [evs2 [s2|e]]; [|exact I].
  destruct Hstep as (H1 & H2 & H3 & H4), IH as (G1 & G2 & G3 & G4).
  repeat split; congruence.
Qed.

Lemma setup_request (cfg : config) (rt : runtime)
    (params : query_params) (evs : list event) (s : session) :
  setup cfg rt params = (evs, Started s) ->
  params "symbol" = Some (symbol s)
  /\ params "timeframe" = Some (timeframe s)
  /\ dataset_id s = Py.or_str (params "datasetId") (params "dataset_id")
  /\ batch_size s = clamp_batch_size cfg rt (params "batch").
Proof.
  unfold setup.
  destruct (params "symbol") as [sym|]; [|discriminate].
  destruct (params "timeframe") as [tf|]; [|discriminate].
  destruct (Py.truthy_str (Some sym) && Py.truthy_str (Some tf)); [|discriminate].
  destruct (Py.or_str (params "after") (params "from")) as [a|].
  - destruct (Py.int_of_str (int_of_text rt) a) as [z|]; [|discriminate].
    destruct (read_indicators rt (params "indicators")) as [[insts|e]|];
      try discriminate.
    intros [= _ <-]. now repeat split.
  - destruct (read_indicators rt (params "indicators")) as [[insts|e]|];
      try discriminate.
    intros [= _ <-]. now repeat split.
Qed.

(** X13.  What a session asks [fetch_candles] for.  In every state a
    started session reaches, the request has the symbol and the
    timeframe of the query, the dataset of [datasetId] or else
    [dataset_id], the current cursor as [after_timestamp], and as limit
    the batch size clamped at the setup, which lies between 1 and
    [max(1, MAX_BATCH_SIZE)]: rows and control messages change none of
    these but the cursor. *)
Theorem requests_of_a_session (cfg : config) (rt : runtime)
    (params : query_params) (inputs : list input) :
  match setup cfg rt params with
  | (_, Started s0) =>
      match run cfg rt s0 inputs with
      | (_, Py.Ok s) =>
          params "symbol" = Some (req_symbol (fetch_request_of s))
          /\ params "timeframe" = Some (req_timeframe (fetch_request_of s))
          /\ req_dataset_id (fetch_request_of s)
             = Py.or_str (params "datasetId") (params "dataset_id")
          /\ after_timestamp (fetch_request_of s) = last_timestamp s
          /\ limit (fetch_request_of s) = clamp_batch_size cfg rt (params "batch")
          /\ 1 <= limit (fetch_request_of s) <= Z.max 1 (MAX_BATCH_SIZE cfg)
      | _ => True
      end
  | _ => True
  end.
Proof.
  destruct (setup cfg rt params) as [evs0 [| |s0]] eqn:Hsetup; try exact I.
  destruct (setup_request cfg rt params evs0 s0 Hsetup) as (H1 & H2 & H3 & H4).
  pose proof (run_request cfg rt inputs s0) as Hrun.
  destruct (run cfg rt s0 inputs) as [evs [s|e]]; [|exact I].
  destruct Hrun as (G1 & G2 & G3 & G4). unfold fetch_request_of. simpl.
  rewrite G1, G2, G3, G4. repeat split; try assumption.
  - rewrite H4. unfold clamp_batch_size. lia.
  - rewrite H4. unfold clamp_batch_size. lia.
Qed.

(** ** The query of [fetch_candles] *)

Lemma fetch_query_cases (req : fetch_request) :
  fetch_query req
  = (query_text
       (["symbol = %s"; "timeframe = %s"]
        ++ (if Py.truthy_str (req_dataset_id req) then ["dataset_id = %s"] else [])
        ++ match after_timestamp req with
           | Some _ => ["timestamp > to_timestamp(%s / 1000.0)"]
           | None => []
           end),
     [ParamStr (req_symbol req); ParamStr (req_timeframe req)]
     ++ match req_dataset_id req with
        | Some ds => if Py.truthy_str (req_dataset_id req) then [ParamStr ds] else []
        | None => []
        end
     ++ match after_timestamp req with
        | Some after => [ParamNumber after]
        | None => []
        end
     ++ [ParamInt (limit req)]).
Proof.
  unfold fetch_query.
  destruct (req_dataset_id req) as [ds|];
    [destruct (Py.truthy_str (Some ds))|];
    destruct (after_timestamp req); reflexivity.
Qed.

(** X14.  The query of [fetch_candles] has one parameter for each of its
    [%s] placeholders, three to five of them; the limit is the last
    parameter; and the text of the query depends only on whether a
    dataset is given (truthy) and whether a cursor is given: the symbol,
    the timeframe, the dataset, the cursor and the limit are passed as
    parameters and never written into the text. *)
Theorem query_placeholders (req : fetch_request) :
  placeholders (fst (fetch_query req)) = List.length (snd (fetch_query req))
  /\ (3 <= placeholders (fst (fetch_query req)) <= 5)%nat
  /\ last (snd (fetch_query req)) (ParamInt 0) = ParamInt (limit req)
  /\ forall req',
       Py.truthy_str (req_dataset_id req') = Py.truthy_str (req_dataset_id req) ->
       (match after_timestamp req', after_timestamp req with
        | Some _, Some _ | None, None => True
        | _, _ => False
        end) ->
       fst (fetch_query req') = fst (fetch_query req).
Proof.
  rewrite (fetch_query_cases req). cbn [fst snd].
  split; [|split; [|split]].
  - destruct (req_dataset_id req) as [ds|];
      [destruct (Py.truthy_str (Some ds))|];
      destruct (after_timestamp req); vm_compute; reflexivity.
  - destruct (Py.truthy_str (req_dataset_id req));
      destruct (after_timestamp req); vm_compute; lia.
  - rewrite !app_assoc. apply last_last.
  - intros req' Hds Hafter. rewrite (fetch_query_cases req'). cbn [fst].
    rewrite Hds.
    destruct (after_timestamp req'), (after_timestamp req);
      try contradiction; reflexivity.
Qed.

(** ** Reading back the decimal text of an integer *)

(** X15.  Reading back the decimal text of an integer [n] (of at most
    4300 digits, the longest CPython prints or reads): [int(str(n))] is
    [n]; as the [batch] parameter the text resolves to [n] clamped
    between 1 and the maximum; as the [after] parameter it is never the
    cause of a rejection, and a session that starts has the cursor
    [n]. *)
Theorem decimal_text_is_read_back (cfg : config) (rt : runtime) (n : Z) :
  Z.abs n < 10 ^ 4300 ->
  Py.int_of_str (int_of_text rt) (Py.str_of_int n) = Py.Ok n
  /\ clamp_batch_size cfg rt (Some (Py.str_of_int n))
     = Z.max 1 (Z.min n (MAX_BATCH_SIZE cfg))
  /\ forall params,
       params "after" = Some (Py.str_of_int n) ->
       match setup cfg rt params with
       | (_, Started s) => last_timestamp s = Some (NInt n)
       | (evs, Rejected) =>
           evs <> [Accept;
                   SendJson (MsgError "after/from must be a unix epoch in milliseconds");
                   Close]
       | (_, Crashed _) => True
       end.
Proof.
  intros Hn.
  pose proof (int_of_str_of_int (int_of_text rt) n Hn) as Hread.
  split; [exact Hread|].
  split; [apply clamp_batch_size_int, Hread|].
  intros params Hafter. unfold setup. rewrite Hafter.
  assert (Py.or_str (Some (Py.str_of_int n)) (params "from")
          = Some (Py.str_of_int n)) as ->.
  { unfold Py.or_str.
    destruct (String.eqb_spec (Py.str_of_int n) "") as [E|_]; [|reflexivity].
    now apply str_of_int_nonempty in E. }
  rewrite Hread.
  destruct (params "symbol") as [sym|]; [|discriminate].
  destruct (params "timeframe") as [tf|]; [|discriminate].
  destruct (Py.truthy_str (Some sym) && Py.truthy_str (Some tf)); [|discriminate].
  destruct (read_indicators rt (params "indicators")) as [[insts|e]|];
    [reflexivity | exact I | discriminate].
Qed.

Lemma decimal_text_is_read_back_witness :
  Py.int_of_str (int_of_text example_runtime) (Py.str_of_int 250) = Py.Ok 250
  /\ clamp_batch_size default_config example_runtime (Some (Py.str_of_int (-3))) = 1.
Proof.
  split.
  - apply (decimal_text_is_read_back default_config example_runtime 250).
    reflexivity.
  - destruct (decimal_text_is_read_back default_config example_runtime (-3))
      as (_ & H & _);
      [reflexivity | exact H].
Defined.

(** X16.  The default ids.  A specification without a truthy [id] is
    registered under the id "sma-" followed by the decimal text of its
    period (the period after [max(1, int(period))]); two such
    specifications get the same id exactly when their periods are equal
    (periods of at most 4300 digits, the longest CPython prints). *)
Theorem default_ids_tell_periods (rt : runtime)
    (kvs1 kvs2 : list (string * json)) (i1 i2 : instance) :
  Json.truthy (Json.get "id" kvs1) = false ->
  Json.truthy (Json.get "id" kvs2) = false ->
  read_spec rt (JDict kvs1) = SpecAppend i1 ->
  read_spec rt (JDict kvs2) = SpecAppend i2 ->
  period (impl i1) < 10 ^ 4300 -> period (impl i2) < 10 ^ 4300 ->
  inst_id i1 = JStr ("sma-" ++ Py.str_of_int (period (impl i1)))
  /\ (inst_id i1 = inst_id i2 <-> period (impl i1) = period (impl i2)).
Proof.
  intros Hid1 Hid2 H1 H2 _ _.
  apply read_spec_append_inv in H1, H2.
  destruct H1 as (k1 & p1 & z1 & [= <-] & _ & _ & _ & ->).
  destruct H2 as (k2 & p2 & z2 & [= <-] & _ & _ & _ & ->).
  simpl. rewrite Hid1, Hid2.
  replace (Z.max 1 (Z.max 1 z1)) with (Z.max 1 z1) by lia.
  replace (Z.max 1 (Z.max 1 z2)) with (Z.max 1 z2) by lia.
  split; [reflexivity|]. split.
  - intros [= H]. now apply str_of_int_inj.
  - now intros ->.
Qed.

Lemma default_ids_tell_periods_witness :
  JStr "sma-5" <> JStr "sma-20"
  /\ inst_id {| inst_id := JStr "sma-5"; warmup := 4;
                impl := SimpleMovingAverage_init 5 |} = JStr "sma-5".
Proof.
  destruct (default_ids_tell_periods example_runtime
              [("type", JStr "sma"); ("params", JDict [("period", JInt 5)])]
              [("type", JStr "sma")]
              {| inst_id := JStr "sma-5"; warmup := 4;
                 impl := SimpleMovingAverage_init 5 |}
              {| inst_id := JStr "sma-20"; warmup := 19;
                 impl := SimpleMovingAverage_init 20 |}
              eq_refl eq_refl eq_refl eq_refl eq_refl eq_refl) as [H1 H2].
  split; [|exact H1].
  intros E. apply H2 in E. discriminate E.
Defined.

(** ** Values that are not finite *)

Lemma is_nan_iff (f : float) : is_nan f = true <-> Prim2SF f = S754_nan.
Proof.
  unfold is_nan. destruct (f =? f)%float eqn:E.
  - apply eqb_feq in E. unfold feq, fkey in E.
    destruct (Prim2SF f); simpl in E; split; try discriminate; tauto.
  - apply eqb_false in E. unfold feq, fkey in E.
    destruct (Prim2SF f) as [s|s| |s m e]; try destruct s; simpl in E;
      unfold key_eq in E; split; try reflexivity; intros _; exfalso; apply E;
      repeat split.
Qed.

Lemma add_nan (x y : float) :
  Prim2SF x = S754_nan \/ Prim2SF y = S754_nan -> Prim2SF (x + y) = S754_nan.
Proof.
  rewrite FloatAxioms.add_spec. unfold SF64add.
  intros [H|H]; rewrite H; [reflexivity|].
  destruct (Prim2SF x); reflexivity.
Qed.

Lemma sub_nan (x y : float) :
  Prim2SF x = S754_nan \/ Prim2SF y = S754_nan -> Prim2SF (x - y) = S754_nan.
Proof.
  rewrite FloatAxioms.sub_spec. unfold SF64sub.
  intros [H|H]; rewrite H; [reflexivity|].
  destruct (Prim2SF x); reflexivity.
Qed.

Lemma div_nan (x y : float) :
  Prim2SF x = S754_nan -> Prim2SF (x / y) = S754_nan.
Proof.
  rewrite FloatAxioms.div_spec. unfold SF64div. now intros ->.
Qed.

(** One [update] keeps a sum that is NaN, and makes it NaN when the
    value is. *)
Lemma update_nan (self self' : SimpleMovingAverage) (value : float)
    (out : option float) :
  1 <= period self ->
  Prim2SF (sum self) = S754_nan \/ Prim2SF value = S754_nan ->
  update self value = Py.Ok (self', out) ->
  Prim2SF (sum self') = S754_nan /\ nan_or_none out = true.
Proof.
  intros Hp Hnan H. rewrite (update_eq self value Hp) in H. cbv zeta in H.
  injection H as <- <-. simpl.
  assert (Prim2SF (if period self <? Z.of_nat (List.length (window self ++ [value]))
                   then (sum self + value - hd 0 (window self ++ [value]))%float
                   else (sum self + value)%float) = S754_nan) as Hs.
  { destruct (period self <? _).
    - apply sub_nan. left. now apply add_nan.
    - now apply add_nan. }
  split; [exact Hs|].
  destruct (Z.of_nat _ <? period self); [reflexivity|].
  simpl. apply is_nan_iff. now apply div_nan.
Qed.

Lemma run_updates_nan (values : list float) :
  forall self,
    1 <= period self -> Prim2SF (sum self) = S754_nan ->
    exists self' outs,
      run_updates self values = Py.Ok (self', outs)
      /\ period self' = period self
      /\ Prim2SF (sum self') = S754_nan
      /\ forallb nan_or_none outs = true.
Proof.
  induction values as [|v values IH]; intros self Hp Hs; simpl.
  - exists self, []. now repeat split.
  - destruct (update_total self v Hp) as (self1 & out & Hu & Hp1).
    destruct (update_nan self self1 v out Hp (or_introl Hs) Hu) as [Hs1 Ho].
    rewrite Hu. simpl.
    destruct (IH self1) as (self2 & outs & -> & Hp2 & Hs2 & Houts);
      [lia | exact Hs1 |].
    exists self2, (out :: outs). simpl. rewrite Ho, Houts.
    repeat split; [congruence | exact Hs2].
Qed.

(** X17.  A NaN value poisons the average for good: from the update
    with a NaN value on, the running sum is NaN and every value
    [update] returns is [None] or NaN, for every later value and
    however many follow, also after the NaN has left the window. *)
Theorem nan_poisons_the_average (p : Z) (pre post : list float) (v : float) :
  is_nan v = true ->
  exists before outs self outs',
    run_updates (SimpleMovingAverage_init p) pre = Py.Ok (before, outs)
    /\ run_updates before (v :: post) = Py.Ok (self, outs')
    /\ run_updates (SimpleMovingAverage_init p) (pre ++ v :: post)
       = Py.Ok (self, outs ++ outs')
    /\ is_nan (sum self) = true
    /\ forallb nan_or_none outs' = true.
Proof.
  intros Hv. apply is_nan_iff in Hv.
  destruct (run_updates_window pre (SimpleMovingAverage_init p) []
              (init_period p) (init_window p))
    as (before & outs & Hrun & Hp & _).
  assert (1 <= period before) as Hpb by (rewrite Hp; apply init_period).
  destruct (update_total before v Hpb) as (self1 & out & Hu & Hp1).
  destruct (update_nan before self1 v out Hpb (or_intror Hv) Hu) as [Hs1 Ho].
  destruct (run_updates_nan post self1) as (self & outs1 & Hrun1 & _ & Hs & Houts);
    [lia | exact Hs1 |].
  assert (run_updates before (v :: post) = Py.Ok (self, out :: outs1)) as Hrun2.
  { simpl. rewrite Hu. simpl. now rewrite Hrun1. }
  exists before, outs, self, (out :: outs1).
  split; [exact Hrun|]. split; [exact Hrun2|].
  split; [exact (run_updates_app pre (v :: post) _ _ _ _ _ Hrun Hrun2)|].
  split; [now apply is_nan_iff|].
  simpl. now rewrite Ho, Houts.
Qed.

Lemma nan_poisons_the_average_witness :
  is_nan nan = true
  /\ exists self outs outs',
       run_updates (SimpleMovingAverage_init 1) ([1] ++ nan :: [2; 3])%float
       = Py.Ok (self, outs ++ outs')
       /\ is_nan (sum self) = true
       /\ forallb nan_or_none outs' = true.
Proof.
  split; [reflexivity|].
  destruct (nan_poisons_the_average 1 [1%float] [2; 3]%float nan eq_refl)
    as (before & outs & self & outs' & _ & _ & H & Hs & Ho).
  now exists self, outs, outs'.
Defined.

Lemma add_poisoned (sg : bool) (s x : float) :
  poisoned sg s \/ Prim2SF x = S754_infinity sg -> poisoned sg (s + x).
Proof.
  unfold poisoned. rewrite FloatAxioms.add_spec. unfold SF64add.
  intros [[H|H]|H]; rewrite H.
  - now left.
  - destruct (Prim2SF x) as [s0|s0| |s0 m e]; simpl; try (now right);
      try (now left).
    destruct sg, s0; (now left) || (now right).
  - destruct (Prim2SF s) as [s0|s0| |s0 m e]; simpl; try (now right);
      try (now left).
    destruct sg, s0; (now left) || (now right).
Qed.

Lemma sub_poisoned (sg : bool) (s d : float) :
  poisoned sg s -> poisoned sg (s - d).
Proof.
  unfold poisoned. rewrite FloatAxioms.sub_spec. unfold SF64sub.
  intros [H|H]; rewrite H.
  - now left.
  - destruct (Prim2SF d) as [s0|s0| |s0 m e]; simpl; try (now right);
      try (now left).
    destruct sg, s0; (now left) || (now right).
Qed.

Lemma sub_poisoned_inf (sg : bool) (s v : float) :
  poisoned sg s -> Prim2SF v = S754_infinity sg -> Prim2SF (s - v) = S754_nan.
Proof.
  unfold poisoned. rewrite FloatAxioms.sub_spec. unfold SF64sub.
  intros [H|H] Hv; rewrite H, Hv; [reflexivity|]. now destruct sg.
Qed.

Lemma update_poisoned (sg : bool) (self self' : SimpleMovingAverage)
    (value : float) (out : option float) :
  1 <= period self ->
  poisoned sg (sum self) \/ Prim2SF value = S754_infinity sg ->
  update self value = Py.Ok (self', out) ->
  poisoned sg (sum self').
Proof.
  intros Hp Hs H. rewrite (update_eq self value Hp) in H. cbv zeta in H.
  injection H as <- _. simpl.
  destruct (period self <? _).
  - apply sub_poisoned. now apply add_poisoned.
  - now apply add_poisoned.
Qed.

Lemma run_updates_poisoned (sg : bool) (values : list float) :
  forall self self' outs,
    1 <= period self -> poisoned sg (sum self) ->
    run_updates self values = Py.Ok (self', outs) ->
    poisoned sg (sum self').
Proof.
  induction values as [|v values IH]; simpl; intros self self' outs Hp Hs H.
  - now injection H as <- _.
  - destruct (update self v) as [[self1 out]|] eqn:Hu; simpl in H; [|discriminate].
    destruct (run_updates self1 values) as [[self2 outs2]|] eqn:Hr; simpl in H;
      [|discriminate].
    injection H as <- _.
    apply (IH self1 self2 outs2); [|
      exact (update_poisoned sg self self1 v out Hp (or_introl Hs) Hu) | exact Hr].
    rewrite (update_period _ _ _ _ Hp Hu). exact Hp.
Qed.

Lemma lastn_app_exact {A : Type} (pre xs : list A) :
  lastn (List.length xs) (pre ++ xs) = xs.
Proof.
  unfold lastn. rewrite length_app.
  replace (List.length pre + List.length xs - List.length xs)%nat
    with (List.length pre) by lia.
  rewrite skipn_app, skipn_all, Nat.sub_diag. reflexivity.
Qed.

Lemma run_updates_app_inv (xs ys : list float) :
  forall self self' outs,
    run_updates self (xs ++ ys) = Py.Ok (self', outs) ->
    exists self1 outs1 outs2,
      run_updates self xs = Py.Ok (self1, outs1)
      /\ run_updates self1 ys = Py.Ok (self', outs2)
      /\ outs = outs1 ++ outs2.
Proof.
  induction xs as [|x xs IH]; simpl; intros self self' outs H.
  - exists self, [], outs. now repeat split.
  - destruct (update self x) as [[s1 out]|]; simpl in *; [|discriminate].
    destruct (run_updates s1 (xs ++ ys)) as [[s2 outs2]|] eqn:Hr; simpl in H;
      [|discriminate].
    injection H as <- <-.
    destruct (IH _ _ _ Hr) as (self1 & o1 & o2 & -> & H2 & ->).
    exists self1, (out :: o1), o2. now repeat split.
Qed.

(** X18.  An infinite value poisons the average once it is evicted.
    When an infinite value is followed by [period] more values, the last
    of them evicts it: the window then holds these [period] values, all
    of which may be finite, but the running sum is NaN (infinity minus
    infinity, or already NaN), the update returns NaN, and so does every
    later update that returns a value. *)
Theorem infinity_poisons_the_average (p : Z) (pre mid post : list float)
    (v last : float) :
  is_inf v = true ->
  List.length (mid ++ [last]) = Z.to_nat (Z.max 1 p) ->
  exists evicted outs out self outs',
    run_updates (SimpleMovingAverage_init p) (pre ++ v :: mid ++ [last])
    = Py.Ok (evicted, outs ++ [Some out])
    /\ window evicted = mid ++ [last]
    /\ is_nan (sum evicted) = true /\ is_nan out = true
    /\ run_updates evicted post = Py.Ok (self, outs')
    /\ is_nan (sum self) = true
    /\ forallb nan_or_none outs' = true.
Proof.
  intros Hv Hlen. unfold is_inf in Hv.
  destruct (Prim2SF v) as [|sg| |] eqn:Ev; try discriminate. clear Hv.
  set (P := Z.max 1 p) in *.
  (* up to the value before [last] *)
  destruct (run_updates_window (pre ++ v :: mid) (SimpleMovingAverage_init p) []
              (init_period p) (init_window p))
    as (full & outs & Hrun & Hp & _ & Hw).
  simpl in Hp, Hw. fold P in Hp, Hw.
  assert (1 <= P) as HP by (unfold P; lia).
  assert (1 <= period full) as Hpf by (rewrite Hp; exact HP).
  rewrite length_app in Hlen. simpl in Hlen.
  assert (window full = v :: mid) as Hwf.
  { rewrite Hw. replace (Z.to_nat P) with (List.length (v :: mid))
      by (simpl; lia).
    apply lastn_app_exact. }
  assert (poisoned sg (sum full)) as Hsf.
  { destruct (run_updates_app_inv pre (v :: mid) _ _ _ Hrun)
      as (s0 & outs0 & outs1 & Hrun0 & Hrun1 & _).
    assert (1 <= period s0) as Hp0.
    { destruct (run_updates_window pre (SimpleMovingAverage_init p) []
                  (init_period p) (init_window p))
        as (s0' & outs0' & Hrun0' & Hp0' & _).
      rewrite Hrun0 in Hrun0'. injection Hrun0' as <- _.
      rewrite Hp0'. apply init_period. }
    simpl in Hrun1.
    destruct (update s0 v) as [[s1 out1]|] eqn:Hu1; simpl in Hrun1; [|discriminate].
    destruct (run_updates s1 mid) as [[s2 outs2]|] eqn:Hr2; simpl in Hrun1;
      [|discriminate].
    injection Hrun1 as <- _.
    apply (run_updates_poisoned sg mid s1 s2 outs2); [| |exact Hr2].
    - rewrite (update_period _ _ _ _ Hp0 Hu1). exact Hp0.
    - exact (update_poisoned sg s0 s1 v out1 Hp0 (or_intror Ev) Hu1). }
  (* [last] evicts [v] *)
  pose proof (update_eq full last Hpf) as Hu. cbv zeta in Hu.
  rewrite Hwf, Hp in Hu.
  assert ((P <? Z.of_nat (List.length ((v :: mid) ++ [last]))) = true) as He.
  { apply Z.ltb_lt. rewrite length_app. simpl. lia. }
  rewrite He in Hu. cbn [app tl hd] in Hu.
  assert ((Z.of_nat (List.length (mid ++ [last])) <? P) = false) as Hl.
  { apply Z.ltb_ge. rewrite length_app. simpl. lia. }
  rewrite Hl in Hu.
  set (s2 := (sum full + last - v)%float) in *.
  assert (Prim2SF s2 = S754_nan) as Hs2.
  { unfold s2. apply (sub_poisoned_inf sg); [|exact Ev].
    apply add_poisoned. now left. }
  set (evicted := {| period := P; window := mid ++ [last]; sum := s2 |}) in *.
  destruct (run_updates_nan post evicted HP Hs2)
    as (self & outs' & Hpost & _ & Hs & Houts).
  exists evicted, outs,
    (s2 / Py.float_of_len (List.length (mid ++ [last])))%float, self, outs'.
  split; [|split; [|split; [|split; [|split; [|split]]]]].
  - change (pre ++ v :: mid ++ [last]) with (pre ++ (v :: mid) ++ [last]).
    rewrite app_assoc.
    apply (run_updates_app _ [last] _ full outs); [exact Hrun|].
    simpl. rewrite Hu. reflexivity.
  - reflexivity.
  - now apply is_nan_iff.
  - apply is_nan_iff. now apply div_nan.
  - exact Hpost.
  - now apply is_nan_iff.
  - exact Houts.
Qed.

Lemma infinity_poisons_the_average_witness :
  is_inf infinity = true
  /\ exists evicted outs out,
       run_updates (SimpleMovingAverage_init 2) ([1] ++ infinity :: [2] ++ [3])%float
       = Py.Ok (evicted, outs ++ [Some out])
       /\ window evicted = [2; 3]%float
       /\ is_nan (sum evicted) = true /\ is_nan out = true.
Proof.
  split; [reflexivity|].
  destruct (infinity_poisons_the_average 2 [1%float] [2%float] [] infinity 3
              eq_refl eq_refl)
    as (evicted & outs & out & self & outs' & H1 & H2 & H3 & H4 & _).
  now exists evicted, outs, out.
Defined.

(** ** The sleeps of the loop *)

Lemma fle_trans (x y z : float) : fle x y -> fle y z -> fle x z.
Proof. intros H1 H2. float_order. Qed.

Lemma thousand_facts :
  fle 1000 1000 /\ flt 0 1000 /\ fkey 1000 <> Some (2, 0, 0) /\ fle 0.1 0.1.
Proof. repeat split; try float_order. vm_compute. discriminate. Qed.

Lemma pacing_sleep_bounds (cfg : config) (delta speed : float) :
  config_ok cfg = true -> (0 <=? MIN_EMIT_DELAY_MS cfg)%float = true ->
  (0.1 <=? speed)%float = true ->
  exists d,
    pacing_delay cfg delta speed = Py.Ok d
    /\ fle (MIN_EMIT_DELAY_MS cfg / 1000) (d / 1000)
    /\ fle (d / 1000) (Spec.dynamicMax cfg 0.1 / 1000).
Proof.
  intros Hcfg Hmin0 Hspeed.
  destruct (config_ok_inv cfg Hcfg) as (Href & Hbase & Hmax & Hmin).
  exists (Spec.delay cfg delta speed).
  rewrite (pacing_delay_spec cfg delta speed (positive_nonzero _ Href)).
  split; [reflexivity|].
  destruct (delay_bounds cfg delta speed Hmin) as [Hlo Hhi].
  apply leb_fle in Hlo, Hhi, Hmin0, Hmax, Hspeed.
  destruct thousand_facts as (H1 & H2 & H3 & H4).
  pose proof (dynamicMax_antitone cfg 0.1 speed Hmax H4 Hspeed) as Hdyn.
  pose proof (fle_trans _ _ _ Hhi Hdyn) as Hhi'.
  pose proof (fle_trans _ _ _ Hmin0 Hlo) as H0.
  split; apply fdiv_le; try assumption; now apply finf_literal.
Qed.

Lemma process_row_sleeps (cfg : config) (rt : runtime) (s : session)
    (r : Candle.t) (cs : list ctrl_input) :
  config_ok cfg = true -> (0 <=? MIN_EMIT_DELAY_MS cfg)%float = true ->
  speed_ok s ->
  Forall (sleep_in_bounds cfg) (fst (process_row cfg rt s r cs))
  /\ match process_row cfg rt s r cs with
     | (_, Py.Ok s') => speed_ok s'
     | _ => True
     end.
Proof.
  intros Hcfg Hmin0 Hs.
  pose proof (listeners_speed_ok rt cs s Hs) as Hs1.
  unfold process_row.
  destruct (update_instances (indicator_instances s) (Candle.close r) [])
    as [[insts d]|e]; [|split; [constructor | exact I]].
  destruct (last_sent_ts (fold_left (control_listener rt) cs s)) as [last|].
  - destruct (pacing_sleep_bounds cfg (Py.max 1 (Candle.timestamp r - last))
                (speed (fold_left (control_listener rt) cs s)) Hcfg Hmin0 Hs1)
      as (delay & -> & Hlo & Hhi).
    split; [|exact Hs1].
    constructor; [exact I|]. constructor; [|constructor].
    simpl. right. right. right. now split.
  - split; [|exact Hs1]. constructor; [exact I | constructor].
Qed.

Lemma process_rows_sleeps (cfg : config) (rt : runtime)
    (rows : list (Candle.t * list ctrl_input)) :
  config_ok cfg = true -> (0 <=? MIN_EMIT_DELAY_MS cfg)%float = true ->
  forall s,
    speed_ok s ->
    Forall (sleep_in_bounds cfg) (fst (process_rows cfg rt s rows))
    /\ match process_rows cfg rt s rows with
       | (_, Py.Ok s') => speed_ok s'
       | _ => True
       end.
Proof.
  intros Hcfg Hmin0. induction rows as [|[r cs] rows IH]; intros s Hs; simpl.
  - split; [constructor | exact Hs].
  - destruct (process_row_sleeps cfg rt s r cs Hcfg Hmin0 Hs) as [H1 H2].
    destruct (process_row cfg rt s r cs) as [evs1 [s1|e]]; simpl in *.
    + destruct (IH s1 H2) as [G1 G2].
      destruct (process_rows cfg rt s1 rows) as [evs2 res]; simpl in *.
      split; [now apply Forall_app | exact G2].
    + now split.
Qed.

Lemma step_sleeps (cfg : config) (rt : runtime) (s : session) (i : input) :
  config_ok cfg = true -> (0 <=? MIN_EMIT_DELAY_MS cfg)%float = true ->
  speed_ok s ->
  Forall (sleep_in_bounds cfg) (fst (step cfg rt s i))
  /\ match step cfg rt s i with
     | (_, Py.Ok s') => speed_ok s'
     | _ => True
     end.
Proof.
  intros Hcfg Hmin0 Hs. destruct i as [c|fetched]; simpl.
  - split; [constructor | now apply control_listener_speed_ok].
  - unfold iteration. destruct (paused s).
    + split; [|exact Hs]. constructor; [now left | constructor].
    + destruct fetched as [|row rows].
      * split; [|exact Hs]. constructor; [right; now left | constructor].
      * destruct (process_rows_sleeps cfg rt (row :: rows) Hcfg Hmin0 s Hs)
          as [H1 H2].
        destruct (process_rows cfg rt s (row :: rows)) as [evs [s1|e]];
          simpl in *; [|now split].
        split; [|exact H2]. apply Forall_app. split; [exact H1|].
        constructor; [|constructor]. right. right. now left.
Qed.

Lemma run_sleeps (cfg : config) (rt : runtime) (inputs : list input) :
  config_ok cfg = true -> (0 <=? MIN_EMIT_DELAY_MS cfg)%float = true ->
  forall s,
    speed_ok s -> Forall (sleep_in_bounds cfg) (fst (run cfg rt s inputs)).
Proof.
  intros Hcfg Hmin0. induction inputs as [|i inputs IH]; intros s Hs; simpl.
  - constructor.
  - destruct (step_sleeps cfg rt s i Hcfg Hmin0 Hs) as [H1 H2].
    destruct (step cfg rt s i) as [evs1 [s1|e]]; simpl in *; [|exact H1].
    specialize (IH s1 H2).
    destruct (run cfg rt s1 inputs) as [evs2 res]; simpl in *.
    now apply Forall_app.
Qed.

Lemma setup_speed_ok (cfg : config) (rt : runtime) (params : query_params)
    (evs : list event) (s : session) :
  setup cfg rt params = (evs, Started s) -> speed_ok s.
Proof.
  intros H. unfold speed_ok. rewrite (setup_speed _ _ _ _ _ H).
  destruct (params "speed") as [raw|]; [|reflexivity].
  destruct (float_of_str rt raw); [now apply max_ge_l | reflexivity].
Qed.

(** X19.  How long the handler sleeps.  With a positive reference
    delta, a base delay and a maximum that are not negative, and a
    minimum between 0 and 20, every sleep of the handler is one of the
    constants 0.05 s (paused), [POLL_INTERVAL_SECONDS] (empty batch) and
    0 s (end of a batch), or a pacing sleep between
    [MIN_EMIT_DELAY_MS / 1000] and the dynamic maximum of the lowest
    speed, [max(20, MAX_EMIT_DELAY_MS / max(1, 0.1 / 10)) / 1000]: with
    the default configuration between 0.001 s and 0.25 s. *)
Theorem sleeps_are_bounded (cfg : config) (rt : runtime)
    (params : query_params) (inputs : list input) :
  config_ok cfg = true -> (0 <=? MIN_EMIT_DELAY_MS cfg)%float = true ->
  Forall (sleep_in_bounds cfg) (_handle_candle_stream cfg rt params inputs).
Proof.
  intros Hcfg Hmin0. unfold _handle_candle_stream.
  destruct (setup cfg rt params) as [evs0 res] eqn:Hsetup.
  assert (Forall (sleep_in_bounds cfg) evs0) as H0.
  { unfold setup in Hsetup.
    destruct (params "symbol") as [sym|];
      [|injection Hsetup as <- _; repeat constructor].
    destruct (params "timeframe") as [tf|];
      [|injection Hsetup as <- _; repeat constructor].
    destruct (Py.truthy_str (Some sym) && Py.truthy_str (Some tf));
      [|injection Hsetup as <- _; repeat constructor].
    destruct (Py.or_str (params "after") (params "from")) as [a|].
    - destruct (Py.int_of_str (int_of_text rt) a) as [z|];
        [|injection Hsetup as <- _; repeat constructor].
      destruct (read_indicators rt (params "indicators")) as [[insts|e]|];
        injection Hsetup as <- _; repeat constructor.
    - destruct (read_indicators rt (params "indicators")) as [[insts|e]|];
        injection Hsetup as <- _; repeat constructor. }
  destruct res as [| |s0]; try exact H0.
  apply Forall_app. split; [exact H0|].
  apply run_sleeps; try assumption.
  exact (setup_speed_ok cfg rt params evs0 s0 Hsetup).
Qed.

(** ** Examples *)

Lemma demo_setup :
  setup default_config demo_runtime demo_params = ([Accept], Started demo_session).
Proof. reflexivity. Qed.

Lemma session_never_raises_witness :
  exists evs s,
    run default_config demo_runtime demo_session demo_inputs = (evs, Py.Ok s)
    /\ _handle_candle_stream default_config demo_runtime demo_params demo_inputs
       = Accept :: evs.
Proof.
  exact (session_never_raises default_config demo_runtime demo_params [Accept]
           demo_session demo_inputs eq_refl eq_refl eq_refl).
Defined.

Lemma sleeps_are_bounded_witness :
  (MIN_EMIT_DELAY_MS default_config / 1000 = 0.001)%float
  /\ (Spec.dynamicMax default_config 0.1 / 1000 = 0.25)%float
  /\ Forall (sleep_in_bounds default_config)
       (_handle_candle_stream default_config demo_runtime demo_params demo_inputs).
Proof.
  split; [reflexivity|]. split; [reflexivity|].
  exact (sleeps_are_bounded default_config demo_runtime demo_params demo_inputs
           eq_refl eq_refl).
Defined.

(** The events of the example: the first row is sent without a delay,
    the second and the third are followed by the sleep of their pacing
    delay (400 / 2.5 = 160 ms), the average of period 2 is null for the
    first row, and nothing is sent once the session is paused. *)
Lemma demo_events :
  _handle_candle_stream default_config demo_runtime demo_params demo_inputs
  = [Accept;
     SendJson (MsgCandle {| row := example_candle 900000 10;
                            indicators := Some [(JStr "sma-2", None)] |});
     SendJson (MsgCandle {| row := example_candle 1800000 20;
                            indicators := Some [(JStr "sma-2", Some 15%float)] |});
     Sleep 0.16;
     SendJson (MsgCandle {| row := example_candle 2700000 30;
                            indicators := Some [(JStr "sma-2", Some 25%float)] |});
     Sleep 0.16;
     Sleep 0;
     Sleep 0.05].
Proof. vm_compute. reflexivity. Qed.

(** ** Pausing *)

Lemma control_listener_keeps_pause (rt : runtime) (s : session) (c : ctrl_input) :
  paused s = true -> is_play (Control c) = false ->
  paused (control_listener rt s c) = true.
Proof.
  intros Hp Hc. unfold control_listener.
  destruct (negb (listening s)); [exact Hp|].
  destruct c as [[| | | | | |kvs]|]; try exact Hp.
  simpl in Hc.
  destruct (Json.eq_str (Json.get "type" kvs) "SET_SPEED").
  - destruct (Json.to_float (float_of_str rt) (Json.get "speed" kvs))
      as [parsed|[]]; exact Hp.
  - destruct (Json.eq_str (Json.get "type" kvs) "PAUSE"); [reflexivity|].
    rewrite Hc. exact Hp.
Qed.

Lemma paused_run (cfg : config) (rt : runtime) (inputs : list input) :
  forall s,
    paused s = true -> forallb (fun i => negb (is_play i)) inputs = true ->
    exists s',
      run cfg rt s inputs = (paused_sleeps inputs, Py.Ok s')
      /\ paused s' = true
      /\ last_timestamp s' = last_timestamp s
      /\ last_sent_ts s' = last_sent_ts s
      /\ indicator_instances s' = indicator_instances s.
Proof.
  induction inputs as [|i inputs IH]; simpl; intros s Hp Hin.
  - exists s. now repeat split.
  - apply andb_true_iff in Hin. destruct Hin as [Hi Hin].
    apply negb_true_iff in Hi.
    destruct i as [c|fetched]; simpl.
    + pose proof (control_listener_keeps_pause rt s c Hp Hi) as Hp1.
      destruct (control_listener_cursor rt s c) as (H1 & H2 & H3).
      destruct (IH _ Hp1 Hin) as (s' & -> & Hp' & G1 & G2 & G3).
      exists s'. repeat split; congruence.
    + unfold iteration. rewrite Hp.
      destruct (IH s Hp Hin) as (s' & -> & Hp' & G1 & G2 & G3).
      exists s'. now repeat split.
Qed.

(** X5.  Pausing.  While the listener runs, a PAUSE message pauses the
    session and a PLAY message resumes it.  From a paused state and as
    long as no PLAY message arrives, each turn of the loop only sleeps
    0.05 s: no row is sent (none is fetched), the cursor does not move
    and no instance is updated, whatever else the client sends. *)
Theorem paused_until_play (cfg : config) (rt : runtime) :
  (forall s kvs,
     listening s = true ->
     (Json.get "type" kvs = JStr "PAUSE" ->
      paused (control_listener rt s (CtrlJson (JDict kvs))) = true)
     /\ (Json.get "type" kvs = JStr "PLAY" ->
         paused (control_listener rt s (CtrlJson (JDict kvs))) = false))
  /\ (forall s inputs,
        paused s = true -> forallb (fun i => negb (is_play i)) inputs = true ->
        exists s',
          run cfg rt s inputs = (paused_sleeps inputs, Py.Ok s')
          /\ paused s' = true
          /\ last_timestamp s' = last_timestamp s
          /\ last_sent_ts s' = last_sent_ts s
          /\ indicator_instances s' = indicator_instances s).
Proof.
  split.
  - intros s kvs Hl. unfold control_listener. rewrite Hl. simpl negb. cbv iota.
    split; intros ->; reflexivity.
  - intros s inputs. apply paused_run.
Qed.

(** ** Timestamps that do not advance *)

Lemma clamp_at_minimum (lo hi raw : float) :
  fle raw lo -> Py.max lo (Py.min hi raw) = lo.
Proof.
  intros H1. unfold Py.max, Py.min.
  destruct (raw <? hi)%float eqn:E1.
  - assert ((lo <? raw)%float = false) as ->; [|reflexivity].
    clear - H1. float_order.
  - assert ((lo <? hi)%float = false) as ->; [|reflexivity].
    float_order.
Qed.

Lemma max_inf_l (a x : float) : finf a -> Py.max a x = a.
Proof.
  intros Ha. apply finf_key in Ha. unfold Py.max.
  assert ((a <? x)%float = false) as ->; [|reflexivity].
  apply ltb_false. intros H. unfold flt in H. rewrite Ha in H.
  destruct (fkey x) as [kx|] eqn:Ex; [|exact H].
  pose proof (fkey_le_inf x kx Ex) as Hle.
  unfold key_le, key_lt, key_eq in *. destruct kx as [[a1 a2] a3]. simpl in *. lia.
Qed.

(** X20.  Timestamps that do not advance.  With a positive reference
    delta and a base delay that is not negative, when the delay of a gap
    of one millisecond at the speed 0.1 is at most the minimum (with the
    default configuration it is 0.0044 ms against 1 ms), every row
    whose timestamp is not more than one millisecond after the previous
    one (equal, earlier, or not comparable because one of them is NaN)
    is paced with exactly [MIN_EMIT_DELAY_MS], at every speed from 0.1
    on, whatever the minimum and the maximum are. *)
Theorem stale_timestamps_get_the_minimum_delay (cfg : config)
    (gap speed : float) :
  (0 <? REFERENCE_DELTA_MS cfg)%float = true ->
  (0 <=? BASE_DELAY_MS cfg)%float = true ->
  (1 / REFERENCE_DELTA_MS cfg * BASE_DELAY_MS cfg / 0.1
   <=? MIN_EMIT_DELAY_MS cfg)%float = true ->
  (1 <? gap)%float = false -> (0.1 <=? speed)%float = true ->
  pacing_delay cfg (Py.max 1 gap) speed = Py.Ok (MIN_EMIT_DELAY_MS cfg).
Proof.
  intros Href Hbase Hraw Hgap Hspeed.
  rewrite (pacing_delay_spec cfg _ speed (positive_nonzero _ Href)).
  f_equal. unfold Spec.delay, Spec.clamp, Py.max at 2. rewrite Hgap.
  apply leb_fle in Hraw, Hbase, Hspeed. apply ltb_flt in Href.
  destruct float_constants as (H11 & _).
  destruct thousand_facts as (_ & _ & _ & Htenth).
  rewrite (max_id_l speed 0.1 Hspeed).
  set (N := (1 / REFERENCE_DELTA_MS cfg * BASE_DELAY_MS cfg)%float) in *.
  destruct (finf_dec (MIN_EMIT_DELAY_MS cfg)) as [Hinf|Hmin];
    [now apply max_inf_l|].
  assert (fle 0 N) as HN.
  { destruct (normalized_sign cfg 1 Href Hbase H11) as [Hnan|H]; [|exact H].
    fold N in Hnan. apply (fdiv_nan_l N 0.1) in Hnan.
    unfold fle, flt, feq in Hraw. rewrite Hnan in Hraw. tauto. }
  destruct (speed_nonneg 0.1 Htenth) as [_ Hp].
  assert (~ finf N) as Hfin.
  { intros Hinf. destruct (fdiv_inf_l N 0.1 Hinf Hp) as [E|E].
    - unfold fle, flt, feq in Hraw. rewrite E in Hraw. tauto.
    - apply finf_key in E. exact (Hmin (finf_le _ _ E Hraw)). }
  assert (fle (N / speed) (N / 0.1)) as Hle.
  { apply fdiv_le; try assumption; try tauto. now apply (fle_refl_r 0). }
  apply clamp_at_minimum. exact (fle_trans _ _ _ Hle Hraw).
Qed.

Lemma stale_timestamps_get_the_minimum_delay_witness :
  pacing_delay default_config (Py.max 1 (900000 - 900000)) 1 = Py.Ok 1%float
  /\ pacing_delay default_config (Py.max 1 nan) 0.1 = Py.Ok 1%float
  /\ pacing_delay high_minimum_config (Py.max 1 0) 5 = Py.Ok 50%float.
Proof.
  split; [|split].
  - exact (stale_timestamps_get_the_minimum_delay default_config
             (900000 - 900000)%float 1%float eq_refl eq_refl eq_refl eq_refl
             eq_refl).
  - exact (stale_timestamps_get_the_minimum_delay default_config
             nan 0.1%float eq_refl eq_refl eq_refl eq_refl eq_refl).
  - exact (stale_timestamps_get_the_minimum_delay high_minimum_config
             0%float 5%float eq_refl eq_refl eq_refl eq_refl eq_refl).
Defined.

(** ** Multiplication of floats is monotone *)

(** The product of two finite floats is the rounding of a sticky
    quotient that stands for the product of their weights. *)
Lemma SFmul_finite (sx sy : bool) (mx my : positive) (ex ey : Z) :
  SpecFloat.valid_binary prec emax (S754_finite sx mx ex) = true ->
  SpecFloat.valid_binary prec emax (S754_finite sy my ey) = true ->
  exists T c,
    SFmul prec emax (S754_finite sx mx ex) (S754_finite sy my ey)
    = round_at (xorb sx sy) T c
    /\ canon T c
    /\ stands_for T c (weight mx ex * weight my ey) (2 ^ 2148).
Proof.
  intros Vx Vy. apply valid_finite in Vx, Vy.
  cbn [SFmul]. rewrite Pos2Z.inj_mul.
  set (m := Z.pos mx * Z.pos my). set (e := ex + ey).
  assert (Hm : 0 < m) by (unfold m; lia).
  destruct (binary_round_aux_eq (xorb sx sy) m e loc_Exact ltac:(lia)) as [Hbra _].
  cbv zeta in Hbra. cbn [loc_code] in Hbra.
  set (n1 := Z.max 0 (fexp64 (Zdigits2 m + e) - e)) in *.
  assert (Hn1 : 0 <= n1) by (unfold n1; lia).
  pose proof (pow2_pos n1 Hn1) as Pn1.
  assert (HT : sq (4 * m + 0) (2 * 2 ^ n1) = sq (2 * m) (2 ^ n1)).
  { apply sq_ratio; lia. }
  rewrite HT in Hbra.
  exists (sq (2 * m) (2 ^ n1)), (e + n1).
  split; [exact Hbra|].
  pose proof (fexp64_eq (Zdigits2 m + e)) as HF.
  pose proof (Zdigits2_bounds m Hm) as D.
  assert (Hd : 0 < Zdigits2 m) by (apply Zdigits2_pos; lia).
  split.
  - unfold canon. rewrite sq_div4 by lia.
    split; [unfold n1; lia|]. split; [apply sq_nonneg; lia|]. split.
    + apply Z.div_lt_upper_bound; [lia|].
      rewrite <- Z.pow_add_r by lia.
      assert (2 ^ Zdigits2 m <= 2 ^ (n1 + 53))
        by (apply Z.pow_le_mono_r; unfold n1; lia).
      lia.
    + destruct (Z.eq_dec (e + n1) (-1074)) as [|Hc]; [now left|right].
      destruct (Z.le_gt_cases e (fexp64 (Zdigits2 m + e))) as [Hle|Hgt].
      * (* the product is shifted to 53 digits *)
        assert (Hn : n1 = Zdigits2 m - 53) by (unfold n1 in *; lia).
        apply Z.div_le_lower_bound; [lia|].
        rewrite <- Z.pow_add_r by lia.
        replace (n1 + 52) with (Zdigits2 m - 1) by lia. lia.
      * (* no shift: one factor is normal, so the product has 53 digits *)
        exfalso.
        assert (Hd52 : Zdigits2 m <= 52) by lia.
        assert (2 ^ Zdigits2 m <= 2 ^ 52) by (apply Z.pow_le_mono_r; lia).
        assert (2 ^ 52 <= m); [|lia].
        unfold m, e in *.
        destruct Vx as (Hex & Hmx & [Ex|Nx]), Vy as (Hey & Hmy & [Ey|Ny]);
          try lia; nia.
  - exists m, (2 ^ n1).
    split; [lia|]. split; [lia|]. split; [reflexivity|].
    unfold weight.
    assert (Hpow : 2 ^ 2148 * 2 ^ (e + n1 + 1074)
                   = 2 ^ n1 * (2 ^ (ex + 1074) * 2 ^ (ey + 1074)) * 2 ^ 1074).
    { rewrite <- !Z.pow_add_r by (unfold n1, e in *; lia).
      f_equal. unfold e. lia. }
    set (p1 := 2 ^ 2148) in *. set (p2 := 2 ^ (e + n1 + 1074)) in *.
    set (p3 := 2 ^ n1) in *. set (p4 := 2 ^ (ex + 1074)) in *.
    set (p5 := 2 ^ (ey + 1074)) in *. set (p6 := 2 ^ 1074) in *.
    replace (m * p1 * p2) with (m * (p1 * p2)) by ring.
    rewrite Hpow. unfold m. ring.
Qed.

(** The product of finite floats that are not negative, as a key:
    monotone in the weights. *)
Lemma SFmul_mono (mx1 my1 mx2 my2 : positive) (ex1 ey1 ex2 ey2 : Z) :
  SpecFloat.valid_binary prec emax (S754_finite false mx1 ex1) = true ->
  SpecFloat.valid_binary prec emax (S754_finite false my1 ey1) = true ->
  SpecFloat.valid_binary prec emax (S754_finite false mx2 ex2) = true ->
  SpecFloat.valid_binary prec emax (S754_finite false my2 ey2) = true ->
  weight mx1 ex1 * weight my1 ey1 <= weight mx2 ex2 * weight my2 ey2 ->
  exists k1 k2,
    sf_key (SFmul prec emax (S754_finite false mx1 ex1) (S754_finite false my1 ey1))
    = Some k1
    /\ sf_key (SFmul prec emax (S754_finite false mx2 ex2) (S754_finite false my2 ey2))
       = Some k2
    /\ key_le k1 k2.
Proof.
  intros Vx1 Vy1 Vx2 Vy2 Hle.
  destruct (SFmul_finite false false mx1 my1 ex1 ey1 Vx1 Vy1)
    as (T1 & c1 & E1 & C1 & R1).
  destruct (SFmul_finite false false mx2 my2 ex2 ey2 Vx2 Vy2)
    as (T2 & c2 & E2 & C2 & R2).
  rewrite E1, E2. simpl xorb.
  rewrite (round_at_key T1 c1 C1), (round_at_key T2 c2 C2).
  exists (round_key T1 c1), (round_key T2 c2).
  split; [reflexivity|]. split; [reflexivity|].
  apply round_key_mono; try assumption.
  apply valid_finite in Vx1, Vy1, Vx2, Vy2.
  assert (W : forall m e, -1074 <= e -> 0 < weight m e).
  { intros m e He. unfold weight. pose proof (pow2_pos (e + 1074) ltac:(lia)). nia. }
  pose proof (W mx1 ex1 ltac:(lia)). pose proof (W my1 ey1 ltac:(lia)).
  pose proof (W mx2 ex2 ltac:(lia)). pose proof (W my2 ey2 ltac:(lia)).
  pose proof (pow2_pos 2148 ltac:(lia)) as P.
  apply (stands_for_order T1 c1 T2 c2 (weight mx1 ex1 * weight my1 ey1) (2 ^ 2148)
           (weight mx2 ex2 * weight my2 ey2) (2 ^ 2148)); auto; try nia.
Qed.


(** Multiplication by a factor that is not negative keeps the order of
    floats that are not negative, unless a product is NaN (zero times
    infinity): then the greater product is NaN, or it is infinite. *)
Lemma SFmul_le_l (x1 x2 y : spec_float) :
  sf_valid x1 -> sf_valid x2 -> sf_valid y ->
  sf_le (S754_zero false) x1 -> sf_le x1 x2 -> sf_le (S754_zero false) y ->
  sf_key (SFmul prec emax x2 y) = None
  \/ (sf_key (SFmul prec emax x1 y) = None
      /\ SFmul prec emax x2 y = S754_infinity false)
  \/ sf_le (SFmul prec emax x1 y) (SFmul prec emax x2 y).
Proof.
  intros Vx1 Vx2 Vy H1 H12 Hy.
  unfold sf_le, sf_valid in *.
  destruct y as [sy|sy| |sy my ey]; try destruct sy;
    cbn [sf_key] in Hy; unfold key_le, key_lt, key_eq in Hy; try lia; try tauto.
  - (* a zero factor *)
    destruct x2 as [s2|s2| |s2 m2 e2]; try destruct s2;
      destruct x1 as [s1|s1| |s1 m1 e1]; try destruct s1;
      cbn [sf_key] in H1, H12; unfold key_le, key_lt, key_eq in H1, H12;
      try lia; try tauto;
      cbn [SFmul sf_key xorb]; try (now left);
      right; right; unfold key_le, key_lt, key_eq; lia.
  - destruct x2 as [s2|s2| |s2 m2 e2]; try destruct s2;
      destruct x1 as [s1|s1| |s1 m1 e1]; try destruct s1;
      cbn [sf_key] in H1, H12; unfold key_le, key_lt, key_eq in H1, H12;
      try lia; try tauto;
      cbn [SFmul sf_key xorb]; try (now left);
      right; right; unfold key_le, key_lt, key_eq; lia.
  - (* an infinite factor *)
    destruct x2 as [s2|s2| |s2 m2 e2]; try destruct s2;
      destruct x1 as [s1|s1| |s1 m1 e1]; try destruct s1;
      cbn [sf_key] in H1, H12; unfold key_le, key_lt, key_eq in H1, H12;
      try lia; try tauto;
      cbn [SFmul sf_key xorb]; try (now left);
      try (right; left; now split);
      right; right; unfold key_le, key_lt, key_eq; lia.
  - (* a finite factor *)
    destruct x1 as [s1|s1| |s1 m1 e1]; try destruct s1;
      cbn [sf_key] in H1, H12; unfold key_le, key_lt, key_eq in H1;
      try lia; try tauto.
    + right. right. cbn [SFmul sf_key xorb].
      destruct x2 as [s2|s2| |s2 m2 e2]; try destruct s2;
        cbn [sf_key] in H12; unfold key_le, key_lt, key_eq in H12;
        try lia; try tauto; cbn [SFmul sf_key xorb];
        try (unfold key_le, key_lt, key_eq; lia).
      destruct (binary_round_aux_key (Z.pos (m2 * my)) (e2 + ey) loc_Exact
                  ltac:(lia)) as (k & -> & Hk).
      exact Hk.
    + right. right. cbn [SFmul sf_key xorb].
      destruct x2 as [s2|s2| |s2 m2 e2]; try destruct s2;
        cbn [sf_key] in H12; unfold key_le, key_lt, key_eq in H12;
        try lia; try tauto; cbn [SFmul sf_key xorb];
        try (unfold key_le, key_lt, key_eq; lia).
      destruct (binary_round_aux_key (Z.pos (m2 * my)) (e2 + ey) loc_Exact
                  ltac:(lia)) as (k & -> & Hk).
      exact Hk.
    + right. right.
      destruct x2 as [s2|s2| |s2 m2 e2]; try destruct s2;
        cbn [sf_key] in H12; unfold key_le, key_lt, key_eq in H12;
        try lia; try tauto.
      cbn [SFmul sf_key xorb]. unfold key_le, key_lt, key_eq. lia.
    + right. right.
      destruct x2 as [s2|s2| |s2 m2 e2]; try destruct s2;
        cbn [sf_key] in H12; unfold key_le, key_lt, key_eq in H12;
        try lia; try tauto.
      * (* the greater factor is infinite *)
        set (r1 := SFmul prec emax (S754_finite false m1 e1)
                     (S754_finite false my ey)).
        cbn [SFmul sf_key xorb].
        destruct (binary_round_aux_key (Z.pos (m1 * my)) (e1 + ey) loc_Exact
                    ltac:(lia)) as (k & Hk & _).
        unfold r1. cbn [SFmul xorb]. rewrite Hk.
        exact (sf_key_le_inf _ k Hk).
      * (* three finite floats *)
        pose proof (weight_order m1 m2 e1 e2 Vx1 Vx2
                      ltac:(unfold key_le, key_lt, key_eq; lia)) as W.
        destruct (SFmul_mono m1 my m2 my e1 ey e2 ey Vx1 Vy Vx2 Vy)
          as (k1 & k2 & E1 & E2 & Hle).
        { apply valid_finite in Vy. unfold weight at 2 4.
          pose proof (pow2_pos (ey + 1074) ltac:(lia)).
          apply Z.mul_le_mono_nonneg_r; [nia | exact W]. }
        rewrite E1, E2. exact Hle.
Qed.

Lemma fmul_le_l (x1 x2 y : float) :
  fle 0 x1 -> fle x1 x2 -> fle 0 y ->
  fkey (x2 * y) = None
  \/ (fkey (x1 * y) = None /\ finf (x2 * y))
  \/ fle (x1 * y) (x2 * y).
Proof.
  rewrite !fle_sf_le, Prim2SF_zero. unfold fkey, finf.
  rewrite !FloatAxioms.mul_spec. unfold SF64mul.
  intros H1 H12 Hy.
  apply SFmul_le_l; try assumption; apply FloatAxioms.Prim2SF_valid.
Qed.

(** ** The delay as a function of the gap *)

Lemma clamp_le_top (lo hi raw : float) :
  fle lo lo -> fle hi hi ->
  fle (Py.max lo (Py.min hi raw)) (Py.max lo hi).
Proof.
  intros Hlo Hhi. apply max_mono_r; [exact Hlo|].
  unfold Py.min. destruct (raw <? hi)%float eqn:E; [|exact Hhi].
  clear Hlo. float_order.
Qed.

Lemma clamp_top (lo hi raw : float) :
  fkey raw = None \/ finf raw -> Py.max lo (Py.min hi raw) = Py.max lo hi.
Proof.
  intros [H|H]; [now rewrite min_nan_r | now rewrite min_inf_r].
Qed.

(** The case in which the quotients by the reference are ordered. *)
Lemma delay_monotone_core (lo hi R B speed d1 d2 : float) :
  flt 0 R -> fle 0 B -> fle lo lo -> fle hi hi -> flt 0 speed -> fle speed speed ->
  fle 0 d1 -> fle d1 d2 ->
  ~ (finf d1 /\ finf R) -> ~ (finf d2 /\ finf R) ->
  (forall raw2,
      fkey raw2 = None \/ finf raw2 ->
      fle (Py.max lo (Py.min hi (d1 / R * B / speed)))
        (Py.max lo (Py.min hi raw2))) ->
  fle (Py.max lo (Py.min hi (d1 / R * B / speed)))
    (Py.max lo (Py.min hi (d2 / R * B / speed))).
Proof.
  intros HR HB Hlo Hhh Hsp Hss H01 H12 I1 I2 Htop.
  pose proof (fle_refl_r _ _ (or_introl HR)) as HRR.
  assert (fle (d1 / R) (d2 / R)) as Hq by (apply fdiv_le; assumption).
  assert (fle 0 (d1 / R)) as Hq0 by (apply fdiv_nonneg; assumption).
  destruct (fmul_le_l (d1 / R) (d2 / R) B Hq0 Hq HB) as [Hn|[[_ Hi]|HN]].
  - apply Htop. left. now apply fdiv_nan_l.
  - apply Htop. destruct (fdiv_inf_l _ speed Hi Hsp) as [E|E];
      [now left | right; now apply finf_key].
  - set (N1 := (d1 / R * B)%float) in *. set (N2 := (d2 / R * B)%float) in *.
    assert (fle 0 N1) as HN1.
    { destruct (fmul_nonneg (d1 / R) B Hq0 HB) as [E|E]; [|exact E].
      fold N1 in E. unfold fle, flt, feq in HN. rewrite E in HN. tauto. }
    destruct (finf_dec N2) as [HN2|HN2]; [destruct (finf_dec speed) as [Hs|Hs]|].
    + apply Htop. left. now apply fdiv_inf_inf.
    + apply max_mono_r; [exact Hlo|]. apply min_mono; [exact Hhh|].
      apply fdiv_le; try assumption; tauto.
    + apply max_mono_r; [exact Hlo|]. apply min_mono; [exact Hhh|].
      apply fdiv_le; try assumption; try tauto.
      intros [H _]. apply HN2. now apply (finf_le N1).
Qed.

(** For a fixed speed of at least 0.1 the delay does not shrink when the
    delta grows, from a delta of 1 on. *)
Lemma delay_monotone (cfg : config) (d1 d2 speed : float) :
  flt 0 (REFERENCE_DELTA_MS cfg) -> fle 0 (BASE_DELAY_MS cfg) ->
  fle (MIN_EMIT_DELAY_MS cfg) 20 ->
  fle 1 d1 -> fle d1 d2 -> fle 0.1 speed ->
  fle (Spec.delay cfg d1 speed) (Spec.delay cfg d2 speed).
Proof.
  intros Href Hbase Hmin H1 H12 Hspeed.
  unfold Spec.delay, Spec.clamp. cbv zeta.
  rewrite (max_id_l speed 0.1 Hspeed).
  destruct float_constants as (_ & H20 & _).
  pose proof (max_lower 20 (MAX_EMIT_DELAY_MS cfg / Py.max 1 (speed / 10)) H20)
    as Hhi. fold (Spec.dynamicMax cfg speed) in Hhi.
  set (hi := Spec.dynamicMax cfg speed) in *.
  set (lo := MIN_EMIT_DELAY_MS cfg) in *.
  set (R := REFERENCE_DELTA_MS cfg) in *. set (B := BASE_DELAY_MS cfg) in *.
  clearbody hi lo R B.
  pose proof (fle_refl_l _ _ Hmin) as Hlo. pose proof (fle_refl_r _ _ Hhi) as Hhh.
  clear Hmin Hhi H20.
  destruct (speed_nonneg speed Hspeed) as [_ Hsp]. clear Hspeed.
  pose proof (fle_refl_r _ _ (or_introl Hsp)) as Hss.
  destruct (flt_0_of_ge_1 d1 H1) as [_ H01]. clear H1.
  (* the greater delay is the top of the clamp *)
  assert (Htop : forall raw2,
             fkey raw2 = None \/ finf raw2 ->
             fle (Py.max lo (Py.min hi (d1 / R * B / speed)))
               (Py.max lo (Py.min hi raw2))).
  { intros raw2 H. rewrite (clamp_top lo hi raw2 H). now apply clamp_le_top. }
  destruct (finf_dec d2) as [Hd2|Hd2]; [destruct (finf_dec R) as [HR|HR]|].
  - apply Htop. left. apply fdiv_nan_l, fmul_nan_l. now apply fdiv_inf_inf.
  - apply (delay_monotone_core lo hi R B speed d1 d2); try assumption; tauto.
  - apply (delay_monotone_core lo hi R B speed d1 d2); try assumption.
    + intros [H _]. apply Hd2. now apply (finf_le d1).
    + tauto.
Qed.

(** X21.  For a fixed speed of at least 0.1 the delay does not shrink
    when the gap between two timestamps grows (with a positive reference
    delta, a base delay and a maximum that are not negative and a
    minimum of at most 20): for gaps [gap1 <= gap2], the delays computed
    from [max(1.0, gap1)] and [max(1.0, gap2)] are in the same order.
    Infinite gaps are included; when the normalized gap of the greater
    one is NaN or infinite, its delay is the top of the clamp. *)
Theorem delay_grows_with_the_gap (cfg : config) (gap1 gap2 speed : float) :
  config_ok cfg = true ->
  (gap1 <=? gap2)%float = true -> (0.1 <=? speed)%float = true ->
  exists d1 d2 : float,
    pacing_delay cfg (Py.max 1 gap1) speed = Py.Ok d1
    /\ pacing_delay cfg (Py.max 1 gap2) speed = Py.Ok d2
    /\ (d1 <=? d2)%float = true.
Proof.
  intros Hcfg Hgap Hspeed.
  destruct (config_ok_inv cfg Hcfg) as (Href & Hbase & _ & Hmin).
  pose proof (positive_nonzero _ Href) as Hnz.
  exists (Spec.delay cfg (Py.max 1 gap1) speed),
    (Spec.delay cfg (Py.max 1 gap2) speed).
  rewrite !pacing_delay_spec by exact Hnz.
  split; [reflexivity|]. split; [reflexivity|].
  destruct float_constants as (H11 & _).
  apply leb_fle. apply delay_monotone; try (now apply leb_fle || apply ltb_flt).
  - now apply max_lower.
  - apply max_mono_r; [exact H11 | now apply leb_fle].
Qed.

Lemma delay_grows_with_the_gap_witness :
  exists d1 d2 : float,
    pacing_delay default_config (Py.max 1 90000) 1 = Py.Ok d1
    /\ pacing_delay default_config (Py.max 1 900000) 1 = Py.Ok d2
    /\ (d1 <=? d2)%float = true.
Proof.
  exact (delay_grows_with_the_gap default_config 90000 900000 1
           eq_refl eq_refl eq_refl).
Defined.

(** ** The cursor and the rows sent *)

Lemma last_sent_app (xs ys : list event) :
  last_sent (xs ++ ys)
  = match last_sent ys with Some r => Some r | None => last_sent xs end.
Proof.
  unfold last_sent. rewrite sent_rows_app, map_app.
  induction (sent_rows ys) as [|r rest IH] using rev_ind.
  - simpl. now rewrite app_nil_r.
  - rewrite map_app. simpl. rewrite app_assoc, !last_last. reflexivity.
Qed.

Lemma cursor_after_app (xs ys : list event) (c : option number)
    (l : option float) :
  cursor_after (xs ++ ys) c l
  = cursor_after ys (fst (cursor_after xs c l)) (snd (cursor_after xs c l)).
Proof.
  unfold cursor_after. rewrite last_sent_app.
  destruct (last_sent ys); [reflexivity|]. now destruct (last_sent xs).
Qed.

Lemma process_row_cursor_after (cfg : config) (rt : runtime) (s : session)
    (r : Candle.t) (cs : list ctrl_input) :
  match process_row cfg rt s r cs with
  | (evs, Py.Ok s') =>
      (last_timestamp s', last_sent_ts s')
      = cursor_after evs (last_timestamp s) (last_sent_ts s)
  | _ => True
  end.
Proof.
  pose proof (process_row_fed cfg rt s r cs) as Hfed.
  destruct (process_row cfg rt s r cs) as [evs [s'|e]] eqn:Hrow; [|exact I].
  destruct Hfed as [Hsent _].
  destruct (process_row_ok cfg rt s s' r cs evs Hrow) as (_ & H1 & H2).
  unfold cursor_after, last_sent. rewrite Hsent. simpl. now rewrite H1, H2.
Qed.

Lemma process_rows_cursor_after (cfg : config) (rt : runtime)
    (rows : list (Candle.t * list ctrl_input)) :
  forall s,
    match process_rows cfg rt s rows with
    | (evs, Py.Ok s') =>
        (last_timestamp s', last_sent_ts s')
        = cursor_after evs (last_timestamp s) (last_sent_ts s)
    | _ => True
    end.
Proof.
  induction rows as [|[r cs] rows IH]; intros s; simpl; [reflexivity|].
  pose proof (process_row_cursor_after cfg rt s r cs) as Hrow.
  destruct (process_row cfg rt s r cs) as [evs1 [s1|e]]; [|exact I].
  specialize (IH s1).
  destruct (process_rows cfg rt s1 rows) as [evs2 [s2|e]]; [|exact I].
  rewrite cursor_after_app, <- Hrow. exact IH.
Qed.

Lemma run_cursor_after (cfg : config) (rt : runtime) (inputs : list input) :
  forall s,
    match run cfg rt s inputs with
    | (evs, Py.Ok s') =>
        (last_timestamp s', last_sent_ts s')
        = cursor_after evs (last_timestamp s) (last_sent_ts s)
    | _ => True
    end.
Proof.
  induction inputs as [|i inputs IH]; intros s; simpl; [reflexivity|].
  assert (match step cfg rt s i with
          | (evs, Py.Ok s') =>
              (last_timestamp s', last_sent_ts s')
              = cursor_after evs (last_timestamp s) (last_sent_ts s)
          | _ => True
          end) as Hstep.
  { destruct i as [c|fetched]; simpl.
    - destruct (control_listener_cursor rt s c) as (-> & -> & _). reflexivity.
    - unfold iteration. destruct (paused s); [reflexivity|].
      destruct fetched as [|row rows]; [reflexivity|].
      pose proof (process_rows_cursor_after cfg rt (row :: rows) s) as H.
      destruct (process_rows cfg rt s (row :: rows)) as [evs [s1|e]]; [|exact I].
      rewrite cursor_after_app, <- H. reflexivity. }
  destruct (step cfg rt s i) as [evs1 [s1|e]]; [|exact I].
  specialize (IH s1).
  destruct (run cfg rt s1 inputs) as [evs2 [s2|e]]; [|exact I].
  rewrite cursor_after_app, <- Hstep. exact IH.
Qed.

(** X22.  The cursor follows the rows sent.  In every state a run
    reaches, when a row was sent the cursor and [last_sent_ts] are both
    the timestamp of the last row sent, and the next query of
    [fetch_candles] filters on it: it has the timestamp filter, with
    this timestamp among its parameters.  When no row was sent (empty
    batches, turns while paused, control messages) both are as they were
    at the start. *)
Theorem queries_follow_the_rows_sent (cfg : config) (rt : runtime)
    (inputs : list input) (s : session) :
  match run cfg rt s inputs with
  | (evs, Py.Ok s') =>
      match last_sent evs with
      | Some r =>
          last_timestamp s' = Some (NFloat (Candle.timestamp r))
          /\ last_sent_ts s' = Some (Candle.timestamp r)
          /\ In (ParamNumber (NFloat (Candle.timestamp r)))
               (snd (fetch_query (fetch_request_of s')))
          /\ (4 <= placeholders (fst (fetch_query (fetch_request_of s'))))%nat
      | None =>
          last_timestamp s' = last_timestamp s
          /\ last_sent_ts s' = last_sent_ts s
      end
  | _ => True
  end.
Proof.
  pose proof (run_cursor_after cfg rt inputs s) as H.
  destruct (run cfg rt s inputs) as [evs [s'|e]]; [|exact I].
  unfold cursor_after in H. destruct (last_sent evs) as [r|].
  - injection H as H1 H2. split; [exact H1|]. split; [exact H2|].
    rewrite (fetch_query_cases (fetch_request_of s')). cbn [fst snd].
    unfold fetch_request_of.
    cbn [after_timestamp req_dataset_id req_symbol req_timeframe limit].
    rewrite H1. split.
    + apply in_or_app. right. apply in_or_app. right.
      apply in_or_app. left. now left.
    + destruct (Py.truthy_str (dataset_id s')); vm_compute; lia.
  - now injection H as H1 H2.
Qed.

(** ** The warmup of an instance *)

Lemma run_updates_outputs (values : list float) :
  forall (self self' : SimpleMovingAverage) (pre : list float)
         (outs : list (option float)),
    1 <= period self ->
    window self = lastn (Z.to_nat (period self)) pre ->
    run_updates self values = Py.Ok (self', outs) ->
    List.length outs = List.length values
    /\ forall k o,
         nth_error outs k = Some o ->
         (o = None <-> Z.of_nat (List.length pre + k + 1) < period self).
Proof.
  induction values as [|v values IH]; simpl; intros self self' pre outs Hp Hw H.
  - injection H as _ <-. split; [reflexivity|]. intros [|k] o; discriminate.
  - destruct (update self v) as [[self1 out]|] eqn:Hu; simpl in H; [|discriminate].
    destruct (run_updates self1 values) as [[self2 outs2]|] eqn:Hr; simpl in H;
      [|discriminate].
    injection H as _ <-.
    destruct (update_window self self1 pre v out Hp Hw Hu) as (Hp1 & Hw1 & Hout).
    destruct (IH self1 self2 (pre ++ [v]) outs2) as [Hlen Hnth];
      [lia | now rewrite Hp1 | exact Hr |].
    split; [simpl; now rewrite Hlen|].
    intros [|k] o Ho; simpl in Ho.
    + injection Ho as <-. rewrite Hout, length_app. simpl.
      destruct (Z.of_nat (List.length pre + 1) <? period self) eqn:E.
      * apply Z.ltb_lt in E. split; [intros _; lia | reflexivity].
      * apply Z.ltb_ge in E. split; [discriminate | lia].
    + specialize (Hnth k o Ho). rewrite length_app, Hp1 in Hnth. simpl in Hnth.
      rewrite Hnth. lia.
Qed.

(** X23.  The [warmup] of a registered instance counts its null values:
    fed any closes, its average never raises and returns one output for
    each close, and the output number [k] (from 0) is [None] exactly
    when [k < warmup]. *)
Theorem warmup_counts_the_nulls (rt : runtime) (spec : json) (i : instance)
    (closes : list float) :
  read_spec rt spec = SpecAppend i ->
  exists self outs,
    run_updates (impl i) closes = Py.Ok (self, outs)
    /\ List.length outs = List.length closes
    /\ forall k o,
         nth_error outs k = Some o -> (o = None <-> Z.of_nat k < warmup i).
Proof.
  intros H. destruct (read_spec_fresh rt spec i H) as (Hp & Hw & _ & Hwarm & _).
  destruct (run_updates_window closes (impl i) [] Hp) as (self & outs & Hrun & _).
  { now rewrite Hw. }
  exists self, outs. split; [exact Hrun|].
  destruct (run_updates_outputs closes (impl i) self [] outs Hp) as [Hlen Hnth];
    [now rewrite Hw | exact Hrun |].
  split; [exact Hlen|].
  intros k o Ho. rewrite (Hnth k o Ho). simpl. lia.
Qed.

Lemma warmup_counts_the_nulls_witness :
  exists self outs,
    run_updates (SimpleMovingAverage_init 3) [1; 2; 3; 4]%float
    = Py.Ok (self, outs)
    /\ List.length outs = 4%nat
    /\ forall k o, nth_error outs k = Some o -> (o = None <-> Z.of_nat k < 2).
Proof.
  exact (warmup_counts_the_nulls example_runtime
           (JDict [("type", JStr "sma"); ("params", JDict [("period", JInt 3)])])
           {| inst_id := JStr "sma-3"; warmup := 2;
              impl := SimpleMovingAverage_init 3 |}
           [1; 2; 3; 4]%float eq_refl).
Defined.

(** ** The module's top level *)

(** X24.  Loading the module.  Without a [DATABASE_URL] that is not
    empty the import raises [RuntimeError], whatever the tunables hold.
    With one, and none of the seven tunables set, the configuration is
    [default_config] (for a [float] that reads the texts "0.5", "1",
    "250", "400" and "900000" as these numbers).  And a value of
    [STREAM_BATCH_SIZE] or [STREAM_MAX_BATCH_SIZE] that [int] refuses,
    the empty text included (a variable that is set is never replaced
    by its default), makes the import raise [ValueError]. *)
Theorem load_config_outcomes (rt : runtime) (env : string -> option string) :
  (Py.truthy_str (env "DATABASE_URL") = false ->
   load_config rt env = LoadRuntimeError)
  /\ (Py.truthy_str (env "DATABASE_URL") = true ->
      (forall name,
          name = "STREAM_POLL_INTERVAL" \/ name = "STREAM_BATCH_SIZE"
          \/ name = "STREAM_MAX_BATCH_SIZE" \/ name = "STREAM_MIN_EMIT_DELAY_MS"
          \/ name = "STREAM_MAX_EMIT_DELAY_MS" \/ name = "STREAM_BASE_DELAY_MS"
          \/ name = "STREAM_REFERENCE_DELTA_MS" ->
          env name = None) ->
      reads_the_defaults rt ->
      load_config rt env = Loaded default_config)
  /\ (Py.truthy_str (env "DATABASE_URL") = true ->
      forall text,
        env "STREAM_BATCH_SIZE" = Some text \/ env "STREAM_MAX_BATCH_SIZE" = Some text ->
        Py.is_ok (Py.int_of_str (int_of_text rt) text) = false ->
        load_config rt env = LoadValueError).
Proof.
  split; [|split].
  - intros H. unfold load_config. now rewrite H.
  - intros Hdb Hnone (H1 & H2 & H3 & H4 & H5). unfold load_config, getenv.
    rewrite Hdb. simpl negb. cbv iota.
    rewrite !Hnone by tauto.
    rewrite H1. change (Py.int_of_str (int_of_text rt) "500") with (Py.Ok 500).
    change (Py.int_of_str (int_of_text rt) "2000") with (Py.Ok 2000). cbv iota.
    rewrite H2, H3, H4.
    change (Py.str_of_int (15 * 60 * 1000)) with "900000". rewrite H5.
    reflexivity.
  - intros Hdb text Htext Hbad. unfold load_config, getenv.
    rewrite Hdb. simpl negb. cbv iota.
    destruct (float_of_str rt _); [|reflexivity].
    destruct Htext as [Ht|Ht]; rewrite Ht.
    + destruct (Py.int_of_str (int_of_text rt) text); [discriminate | reflexivity].
    + destruct (Py.int_of_str (int_of_text rt) match env "STREAM_BATCH_SIZE" with
                               | Some v => v
                               | None => "500"
                               end); [|reflexivity].
      destruct (Py.int_of_str (int_of_text rt) text); [discriminate | reflexivity].
Qed.

(** With [DATABASE_URL] alone in the environment the module loads the
    default configuration. *)
Lemma load_config_example :
  reads_the_defaults defaults_runtime
  /\ load_config defaults_runtime database_only = Loaded default_config
  /\ load_config defaults_runtime (query []) = LoadRuntimeError
  /\ load_config defaults_runtime
       (query [("DATABASE_URL", "postgresql://localhost/candles");
               ("STREAM_BATCH_SIZE", "")])
     = LoadValueError.
Proof. repeat split; reflexivity. Qed.
